(** * Soil-health checker: the analysis route and the client-side simulation

    A shallow embedding of [src/app/api/analyze/route.ts] (the upload route:
    [POST], [runPythonModel], [parseCSV], [extractModelMetrics]) and of the
    client library that follows it in the same file ([uploadSoilData],
    [simulateModelAnalysis], [simulateSinglePrediction],
    [generateModelOutputText]), followed by what the components compute
    from these results: the search, the pages and the export of
    [SoilSampleTable], the score of [SoilHealthGauge], the series of
    [SoilCharts], the submission of [SpectralDataForm], the advice of
    [SoilRecommendations] and the summary table of [ModelMetrics].

    Conventions of the embedding.
    - A JavaScript string is a [string]; the character with code [n] stands
      for the UTF-16 code unit [n], so the development covers texts whose code
      units lie in U+0000..U+00FF.  Inside that range the white space of
      [trim], of [Number] and of the regular expressions is
      TAB, LF, VT, FF, CR, SP and NBSP, and the line terminators (what [.]
      refuses to match) are LF and CR.
    - A JavaScript number is [NaN], a signed [Infinity], or [Finite q] with
      [q] the exact mathematical value: rounding to binary64 is not
      represented, nor overflow and underflow, and the two zeros are
      identified.  The bounds stated for the sums that the code computes
      from random draws are closed, and the square of the example is given
      with a tolerance, so that the rounded values meet them as well.
    - A JavaScript object written [{}] and filled by assignment is the
      [gmap string _] of its own properties; what it inherits from
      [Object.prototype] is taken into account where the code assigns or reads
      under a computed name ([setProperty], [objectPrototypeNames]).
    - Code that can throw returns an [outcome]. *)

From Stdlib Require Import Ascii QArith Qround Lqa.
From stdpp Require Import gmap strings list fin_maps pretty.

(** ** Outcomes of code that may throw *)

Inductive exception :=
  | TypeError
  | RangeError
  | IOError
  | Rejection (reason : string).

Inductive outcome (A : Type) :=
  | Returned (a : A)
  | Thrown (e : exception).
Arguments Returned {A} a.
Arguments Thrown {A} e.

Definition obind {A B} (m : outcome A) (k : A → outcome B) : outcome B :=
  match m with
  | Returned a => k a
  | Thrown e => Thrown e
  end.

Notation "'try!' x ← m ; k" := (obind m (λ x, k))
  (at level 100, x pattern, m at level 60, k at level 100, right associativity, only parsing).

(** ** Characters and strings *)

Definition LF : ascii := "010"%char.
Definition CR : ascii := "013"%char.
Definition nl : string := String LF "".

Definition code (c : ascii) : N := N_of_ascii c.

Definition isWhiteSpace (c : ascii) : bool :=
  bool_decide (code c ∈ [9; 10; 11; 12; 13; 32; 160]%N).

Definition isLineTerminator (c : ascii) : bool :=
  Ascii.eqb c LF || Ascii.eqb c CR.

Definition isDigit (c : ascii) : bool :=
  (48 <=? code c)%N && (code c <=? 57)%N.

(** [\d.] of the metric patterns. *)
Definition isDigitOrDot (c : ascii) : bool :=
  isDigit c || Ascii.eqb c "."%char.

Fixpoint trimStart (s : string) : string :=
  match s with
  | "" => ""
  | String c s' => if isWhiteSpace c then trimStart s' else s
  end.

Definition trimEnd (s : string) : string :=
  String.rev (trimStart (String.rev s)).

(** [s.trim()] *)
Definition trim (s : string) : string := trimEnd (trimStart s).

(** [stripPrefix p s] is what follows [p] when [s] starts with [p]. *)
Fixpoint stripPrefix (p s : string) : option string :=
  match p with
  | "" => Some s
  | String a p' =>
      match s with
      | "" => None
      | String b s' => if Ascii.eqb a b then stripPrefix p' s' else None
      end
  end.

Definition startsWith (s p : string) : bool := bool_decide (is_Some (stripPrefix p s)).

(** [s.includes(sub)] *)
Fixpoint includes (s sub : string) : bool :=
  match s with
  | "" => startsWith "" sub
  | String _ s' => startsWith s sub || includes s' sub
  end.

(** [s.split(sep)] for a non-empty separator.  [skip] counts the characters
    of a separator just recognised that are still to be passed over; the head
    of the result is the piece under construction. *)
Fixpoint split_go (sep : string) (skip : nat) (s : string) : list string :=
  match s with
  | "" => [""]
  | String c s' =>
      match skip with
      | S k => split_go sep k s'
      | O =>
          if startsWith s sep
          then "" :: split_go sep (String.length sep - 1) s'
          else match split_go sep 0 s' with
               | piece :: pieces => String c piece :: pieces
               | [] => [String c ""]
               end
      end
  end.

Definition split (s sep : string) : list string := split_go sep 0 s.

(** [l.join(sep)] on strings *)
Fixpoint join (sep : string) (l : list string) : string :=
  match l with
  | [] => ""
  | x :: l' =>
      match l' with
      | [] => x
      | _ :: _ => x +:+ sep +:+ join sep l'
      end
  end.

(** [s.replace(pat, rep)] with a string pattern: the first occurrence only. *)
Fixpoint replace (s pat rep : string) : string :=
  match stripPrefix pat s with
  | Some rest => rep +:+ rest
  | None =>
      match s with
      | "" => ""
      | String c s' => String c (replace s' pat rep)
      end
  end.

(** The longest prefix of characters satisfying [p], and the rest. *)
Fixpoint span (p : ascii → bool) (s : string) : string * string :=
  match s with
  | "" => ("", "")
  | String c s' =>
      if p c then let '(a, b) := span p s' in (String c a, b) else ("", s)
  end.

(** ** Numbers *)

Inductive number :=
  | NaN
  | Infinity (negative : bool)
  | Finite (q : Q).

Inductive value :=
  | VUndef
  | VStr (s : string)
  | VNum (n : number).

Definition isNaN (n : number) : bool :=
  match n with NaN => true | _ => false end.

Definition pow10 (e : Z) : Q :=
  if (0 <=? e)%Z then inject_Z (10 ^ e) else Qinv (inject_Z (10 ^ (- e))).

(** The value of a digit in a given radix, when it is one. *)
Definition digitIn (radix : Z) (c : ascii) : option Z :=
  let n := Z.of_N (code c) in
  let d := if (48 <=? n)%Z && (n <=? 57)%Z then (n - 48)%Z
           else if (97 <=? n)%Z && (n <=? 102)%Z then (n - 87)%Z
           else if (65 <=? n)%Z && (n <=? 70)%Z then (n - 55)%Z
           else radix in
  if (d <? radix)%Z then Some d else None.

Fixpoint digitsValue (radix : Z) (acc : Z) (ds : string) : Z :=
  match ds with
  | "" => acc
  | String c r => digitsValue radix (acc * radix + default 0 (digitIn radix c))%Z r
  end.

Definition optSign (s : string) : bool * string :=
  match s with
  | String "-" r => (true, r)
  | String "+" r => (false, r)
  | _ => (false, s)
  end.

(** ExponentPart: [e] or [E], an optional sign, at least one digit.  The
    result is the exponent and what follows; an incomplete exponent is not
    consumed. *)
Definition exponentPart (s : string) : Z * string :=
  match s with
  | String c r =>
      if Ascii.eqb c "e" || Ascii.eqb c "E" then
        let '(neg, r1) := optSign r in
        let '(ds, r2) := span isDigit r1 in
        match ds with
        | "" => (0%Z, s)
        | _ => ((if neg then - digitsValue 10 0 ds else digitsValue 10 0 ds)%Z, r2)
        end
      else (0%Z, s)
  | "" => (0%Z, s)
  end.

(** The longest prefix of [s] that is a StrUnsignedDecimalLiteral, with its
    mathematical value, and the rest of [s]. *)
Definition strUnsignedDecimalLiteral (s : string) : option (number * string) :=
  match stripPrefix "Infinity" s with
  | Some rest => Some (Infinity false, rest)
  | None =>
      let '(ip, r1) := span isDigit s in
      let mantissa : option (string * string * string) :=
        match r1 with
        | String "." r =>
            let '(fp, r2) := span isDigit r in
            match ip, fp with
            | "", "" => None
            | _, _ => Some (ip, fp, r2)
            end
        | _ => match ip with "" => None | _ => Some (ip, "", r1) end
        end in
      match mantissa with
      | None => None
      | Some (ip, fp, r2) =>
          let '(e, r3) := exponentPart r2 in
          let m := digitsValue 10 0 (ip +:+ fp) in
          Some (Finite (Qred (inject_Z m * pow10 (e - Z.of_nat (String.length fp)))), r3)
      end
  end.

Definition negate (n : number) : number :=
  match n with
  | NaN => NaN
  | Infinity b => Infinity (negb b)
  | Finite q => Finite (Qred (- q))
  end.

(** StrDecimalLiteral: an optional sign and an unsigned literal. *)
Definition strDecimalLiteral (s : string) : option (number * string) :=
  let '(neg, r) := optSign s in
  match strUnsignedDecimalLiteral r with
  | Some (n, rest) => Some (if neg then negate n else n, rest)
  | None => None
  end.

(** NonDecimalIntegerLiteral: [0x], [0o] or [0b] (either case) and at least
    one digit of that radix, up to the end of the string. *)
Definition nonDecimalIntegerLiteral (s : string) : option number :=
  match s with
  | String "0" (String p ds) =>
      let radix : option Z :=
        if Ascii.eqb p "x" || Ascii.eqb p "X" then Some 16%Z
        else if Ascii.eqb p "o" || Ascii.eqb p "O" then Some 8%Z
        else if Ascii.eqb p "b" || Ascii.eqb p "B" then Some 2%Z
        else None in
      match radix, ds with
      | Some r, String _ _ =>
          match span (λ c, bool_decide (is_Some (digitIn r c))) ds with
          | (_, "") => Some (Finite (inject_Z (digitsValue r 0 ds)))
          | _ => None
          end
      | _, _ => None
      end
  | _ => None
  end.

(** StrNumericLiteral: the whole of [s] is a numeric literal. *)
Definition strNumericLiteral (s : string) : option number :=
  match nonDecimalIntegerLiteral s with
  | Some n => Some n
  | None =>
      match strDecimalLiteral s with
      | Some (n, "") => Some n
      | _ => None
      end
  end.

(** StringToNumber: white space is trimmed; the empty string is 0; anything
    that is not a StrNumericLiteral is NaN. *)
Definition StringToNumber (s : string) : number :=
  match trim s with
  | "" => Finite 0
  | t => default NaN (strNumericLiteral t)
  end.

(** [Number(v)] *)
Definition Number (v : value) : number :=
  match v with
  | VUndef => NaN
  | VStr s => StringToNumber s
  | VNum n => n
  end.

(** [Number.parseFloat(s)]: leading white space is skipped and the longest
    prefix that is a StrDecimalLiteral is read. *)
Definition parseFloat (s : string) : number :=
  match strDecimalLiteral (trimStart s) with
  | Some (n, _) => n
  | None => NaN
  end.

(** [Number.parseInt(s)] on a string of decimal digits, which is what the
    feature pattern captures. *)
Definition parseInt (digits : string) : Z := digitsValue 10 0 digits.

(** Truthiness, as [||], [if] and [?:] test it. *)
Definition truthy (v : value) : bool :=
  match v with
  | VUndef => false
  | VStr "" => false
  | VStr _ => true
  | VNum NaN => false
  | VNum (Infinity _) => true
  | VNum (Finite q) => negb (Qeq_bool q 0)
  end.

(** ** Objects *)

(** The names an object inherits from [Object.prototype]: eleven methods and
    the accessor [__proto__]. *)
Definition objectPrototypeNames : list string :=
  ["constructor"; "__defineGetter__"; "__defineSetter__"; "hasOwnProperty";
   "__lookupGetter__"; "__lookupSetter__"; "isPrototypeOf"; "propertyIsEnumerable";
   "toString"; "valueOf"; "__proto__"; "toLocaleString"].

(** [obj[key] = v] on an object written [{}].  Under [__proto__] the
    inherited setter runs: it ignores a number, a string or [undefined], and
    makes an array the prototype; in either case no own property appears.
    Under any other name the own property is created or updated. *)
Definition setProperty {V} (key : string) (v : V) (obj : gmap string V) : gmap string V :=
  if bool_decide (key = "__proto__") then obj else <[key := v]> obj.

(** ** The CSV parser *)

(** [row[header] = isNaN(Number(value)) ? value : Number(value)] *)
Definition coerce (v : value) : value :=
  if isNaN (Number v) then v else VNum (Number v).

(** [values[index]] *)
Definition at_index (values : list string) (index : nat) : value :=
  from_option VStr VUndef (values !! index).

(** The callback of [lines.slice(1).map]. *)
Definition parseRow (headers : list string) (line : string) : gmap string value :=
  let values := split line "," in
  foldl (λ row '(index, header), setProperty header (coerce (at_index values index)) row)
        ∅ (imap pair headers).

(** [parseCSV], the same in the route and in the client library.  Reading
    [lines[0]] of an empty array would throw a TypeError. *)
Definition parseCSV (csvData : string) : outcome (list (gmap string value)) :=
  let lines := split (trim csvData) nl in
  match lines !! 0%nat with
  | None => Thrown TypeError
  | Some line0 =>
      let headers := split line0 "," in
      Returned (parseRow headers <$> drop 1 lines)
  end.

(** ** The metrics extractor *)

Record ModelMetrics := {
  r2Scores : gmap string number;
  rmseScores : gmap string number;
  mseScores : gmap string number;
  bestModels : gmap string string;
  bestFeatures : gmap string (list string);
}.

Definition emptyMetrics : ModelMetrics :=
  {| r2Scores := ∅; rmseScores := ∅; mseScores := ∅; bestModels := ∅; bestFeatures := ∅ |}.

(** An unanchored pattern is tried at every position from the left:
    [search f s] is the result of [f] at the first suffix of [s] where it
    succeeds. *)
Fixpoint search {A} (f : string → option A) (s : string) : option A :=
  match s with
  | "" => f ""
  | String _ s' =>
      match f s with
      | Some a => Some a
      | None => search f s'
      end
  end.

(** What precedes the first occurrence of [pat] in [s]; all of [s] when there
    is none. *)
Fixpoint before (pat s : string) : string :=
  match s with
  | "" => ""
  | String c s' => if startsWith s pat then "" else String c (before pat s')
  end.

Definition summaryMarker : string := "=== Final Summary ===".
Definition summaryEnd : string := nl +:+ nl +:+ "Generating predictions".
Definition targetSeparator : string := nl +:+ "Target:".

(** [output.match(/=== Final Summary ===([\s\S]*?)(?=\n\nGenerating predictions|$)/)],
    group 1. *)
Definition finalSummaryMatch (output : string) : option string :=
  search (λ t, before summaryEnd <$> stripPrefix summaryMarker t) output.

(** [(.*?)\n] at the start of [s], group 1: the characters before the first
    line terminator, which has to be a line feed. *)
Fixpoint lineBeforeLF (s : string) : option string :=
  match s with
  | "" => None
  | String c s' =>
      if Ascii.eqb c LF then Some ""
      else if isLineTerminator c then None
      else String c <$> lineBeforeLF s'
  end.

(** [(.*?)(?:\n|$)] at the start of [s], group 1. *)
Fixpoint lineBeforeLFOrEnd (s : string) : option string :=
  match s with
  | "" => Some ""
  | String c s' =>
      if Ascii.eqb c LF then Some ""
      else if isLineTerminator c then None
      else String c <$> lineBeforeLFOrEnd s'
  end.

(** [block.match(/^(.*?)\n/)], group 1 *)
Definition targetMatch (block : string) : option string := lineBeforeLF block.

(** [block.match(/Best model: (.*?)(?:\n|$)/)], group 1 *)
Definition modelMatch (block : string) : option string :=
  search (λ t, stripPrefix "Best model: " t ≫= lineBeforeLFOrEnd) block.

(** [([\d.]+)] at the start of [s] *)
Definition digitsAndDots (s : string) : option string :=
  match span isDigitOrDot s with
  | ("", _) => None
  | (d, _) => Some d
  end.

(** [block.match(/R2: ([\d.]+)/)], group 1 *)
Definition r2Match (block : string) : option string :=
  search (λ t, stripPrefix "R2: " t ≫= digitsAndDots) block.

(** [block.match(/RMSE: ([\d.]+)/)], group 1 *)
Definition rmseMatch (block : string) : option string :=
  search (λ t, stripPrefix "RMSE: " t ≫= digitsAndDots) block.

(** [Math.pow(x, 2)], as the exact square: the code has it rounded. *)
Definition Math_pow_2 (x : number) : number :=
  match x with
  | NaN => NaN
  | Infinity _ => Infinity false
  | Finite q => Finite (Qred (q * q))
  end.

(** The body of [targetBlocks.slice(1).forEach]. *)
Definition processBlock (metrics : ModelMetrics) (block : string) : ModelMetrics :=
  match targetMatch block with
  | None => metrics
  | Some line =>
      let target := trim line in
      let bm :=
        match modelMatch block with
        | Some m => setProperty target (trim (replace m "Regressor" "")) (bestModels metrics)
        | None => bestModels metrics
        end in
      let r2 :=
        match r2Match block with
        | Some m => setProperty target (parseFloat m) (r2Scores metrics)
        | None => r2Scores metrics
        end in
      let rmse :=
        match rmseMatch block with
        | Some m => setProperty target (parseFloat m) (rmseScores metrics)
        | None => rmseScores metrics
        end in
      let mse :=
        match rmse !! target with
        | Some x =>
            if truthy (VNum x) then setProperty target (Math_pow_2 x) (mseScores metrics)
            else mseScores metrics
        | None =>
            (* what [rmseScores] inherits under [target], if anything, is a
               function or an object: truthy, and NaN once squared *)
            if bool_decide (target ∈ objectPrototypeNames)
            then setProperty target NaN (mseScores metrics)
            else mseScores metrics
        end in
      {| r2Scores := r2; rmseScores := rmse; mseScores := mse;
         bestModels := bm; bestFeatures := bestFeatures metrics |}
  end.

(** [/Selected (\d+) features for (.*?)\n/] at the start of [s]: groups 1 and
    2 and the length of the match. *)
Definition featureMatchAt (s : string) : option (string * string * nat) :=
  r ← stripPrefix "Selected " s;
  let '(ds, r1) := span isDigit r in
  match ds with
  | "" => None
  | _ =>
      r2 ← stripPrefix " features for " r1;
      name ← lineBeforeLF r2;
      Some (ds, name,
            (String.length "Selected " + String.length ds
             + String.length " features for " + String.length name + 1)%nat)
  end.

(** [output.matchAll(/Selected (\d+) features for (.*?)\n/g)]: the matches
    from the left, each search resuming where the previous match ended. *)
Fixpoint featureSelectionMatches_go (skip : nat) (s : string) : list (string * string) :=
  match s with
  | "" => []
  | String _ s' =>
      match skip with
      | S k => featureSelectionMatches_go k s'
      | O =>
          match featureMatchAt s with
          | Some (ds, name, len) => (ds, name) :: featureSelectionMatches_go (len - 1) s'
          | None => featureSelectionMatches_go 0 s'
          end
      end
  end.

Definition featureSelectionMatches (output : string) : list (string * string) :=
  featureSelectionMatches_go 0 output.

Definition maxArrayLength : Z := 4294967295.

(** The length from which the engine does not store the elements of an
    array: [Array(n)] leaves [n] holes, [fill] has to store [n] elements,
    and V8 throws a RangeError (invalid array length) rather than allocate
    a backing store for 2^27 = 134217728 elements.  A run that exhausts the
    memory of the process before that is not represented. *)
Definition fillLimit : Z := 134217728.

(** [Array(n).fill(0).map((_, i) => `Feature ${i + 1}`)]: [Array(n)] throws a
    RangeError unless [n] is an array length, that is at most 2^32 - 1, and
    [fill] throws one from [fillLimit] on. *)
Definition placeholderFeatures (n : Z) : outcome (list string) :=
  if (n <=? maxArrayLength)%Z
  then if (n <? fillLimit)%Z
       then Returned ((λ i : nat, "Feature " +:+ pretty (i + 1)%nat) <$> seq 0 (Z.to_nat n))
       else Thrown RangeError
  else Thrown RangeError.

(** The body of the [for ... of] loop over the feature matches. *)
Definition processFeatureMatch (metrics : ModelMetrics) (m : string * string)
  : outcome ModelMetrics :=
  let target := trim m.2 in
  try! names ← placeholderFeatures (parseInt m.1);
  Returned {| r2Scores := r2Scores metrics; rmseScores := rmseScores metrics;
              mseScores := mseScores metrics; bestModels := bestModels metrics;
              bestFeatures := setProperty target names (bestFeatures metrics) |}.

Fixpoint foldOutcome {A B} (f : A → B → outcome A) (a : A) (l : list B) : outcome A :=
  match l with
  | [] => Returned a
  | b :: l' => try! a' ← f a b; foldOutcome f a' l'
  end.

Definition summaryBlocks (output : string) : list string :=
  match finalSummaryMatch output with
  | Some summaryText => drop 1 (split summaryText targetSeparator)
  | None => []
  end.

Definition extractModelMetrics (output : string) : outcome ModelMetrics :=
  let metrics := foldl processBlock emptyMetrics (summaryBlocks output) in
  foldOutcome processFeatureMatch metrics (featureSelectionMatches output).

(** ** The external process and the upload route *)

(** What the child process emits, in order: chunks on its two pipes, [close]
    with the exit code ([None] when a signal ended it), [error]. *)
Inductive ProcessEvent :=
  | StdoutData (data : string)
  | StderrData (data : string)
  | CloseEvent (exitCode : option Z)
  | ErrorEvent (message : string).

Inductive settlement :=
  | Resolved (result : string)
  | Rejected (reason : string).

Record ProcessState := {
  outputData : string;
  errorData : string;
  promise : option settlement;
}.

(** A promise keeps its first settlement. *)
Definition settle (s : settlement) (st : ProcessState) : ProcessState :=
  match promise st with
  | Some _ => st
  | None => {| outputData := outputData st; errorData := errorData st; promise := Some s |}
  end.

(** [`${code}`] *)
Definition showExitCode (exitCode : option Z) : string :=
  match exitCode with
  | Some n => pretty n
  | None => "null"
  end.

(** The four listeners of [runPythonModel]. *)
Definition onEvent (st : ProcessState) (ev : ProcessEvent) : ProcessState :=
  match ev with
  | StdoutData data =>
      {| outputData := outputData st +:+ data; errorData := errorData st; promise := promise st |}
  | StderrData data =>
      {| outputData := outputData st; errorData := errorData st +:+ data; promise := promise st |}
  | CloseEvent exitCode =>
      match exitCode with
      | Some 0%Z => settle (Resolved (outputData st)) st
      | _ =>
          settle (Rejected ("Python process failed with code " +:+ showExitCode exitCode
                            +:+ ": " +:+ errorData st)) st
      end
  | ErrorEvent message =>
      settle (Rejected ("Failed to start Python process: " +:+ message)) st
  end.

Definition initialProcessState : ProcessState :=
  {| outputData := ""; errorData := ""; promise := None |}.

(** The promise [runPythonModel] returns, after the process has emitted
    [events]: [None] while it is pending. *)
Definition runPythonModel (events : list ProcessEvent) : option settlement :=
  promise (foldl onEvent initialProcessState events).

(** The [file] entry of the multipart form. *)
Inductive FormEntry :=
  | NoEntry
  | TextEntry (text : string)
  | FileEntry (content : string).

(** What the request and the world around the route hold for one call. *)
Record World := {
  uploadDirReady : bool;           (* the directory exists or [mkdir] succeeds *)
  outputDirReady : bool;
  formData : option FormEntry;     (* [None]: [request.formData()] rejects *)
  writeFileOk : bool;
  processEvents : list ProcessEvent;
  predictionsFile : option string; (* [None]: [readFile] rejects *)
}.

Inductive ResponseBody :=
  | ErrorBody (error : string) (modelOutput : option string)
  | SuccessBody (predictions : list (gmap string value)) (metrics : ModelMetrics)
                (modelOutput : string).

Record Response := {
  body : ResponseBody;
  status : Z;
}.

(** The inner [try]: reading and parsing the predictions file; the [catch]
    receives a failure of either as [None]. *)
Definition readPredictions (w : World) : option (list (gmap string value)) :=
  data ← predictionsFile w;
  match parseCSV data with
  | Returned predictions => Some predictions
  | Thrown _ => None
  end.

(** The statements of the outer [try], once the process promise is settled. *)
Definition POST_try (w : World) (settled : settlement) : outcome Response :=
  match settled with
  | Rejected reason => Thrown (Rejection reason)
  | Resolved modelOutput =>
      match readPredictions w with
      | None =>
          Returned {| body := ErrorBody "Failed to read model predictions" (Some modelOutput);
                      status := 500 |}
      | Some predictions =>
          try! metrics ← extractModelMetrics modelOutput;
          Returned {| body := SuccessBody predictions metrics modelOutput; status := 200 |}
      end
  end.

(** The outer [try] up to the spawn of the process: [None] when the route
    goes on to await the process. *)
Definition POST_before (w : World) : option (outcome Response) :=
  if negb (uploadDirReady w) then Some (Thrown IOError)
  else if negb (outputDirReady w) then Some (Thrown IOError)
  else match formData w with
       | None => Some (Thrown TypeError)
       | Some NoEntry | Some (TextEntry "") =>
           Some (Returned {| body := ErrorBody "No file provided" None; status := 400 |})
       | Some (TextEntry _) => Some (Thrown TypeError)
       | Some (FileEntry _) =>
           if writeFileOk w then None else Some (Thrown IOError)
       end.

Definition internalServerError : Response :=
  {| body := ErrorBody "Internal server error" None; status := 500 |}.

(** The outer [catch]. *)
Definition catchAll (o : outcome Response) : Response :=
  match o with
  | Returned r => r
  | Thrown _ => internalServerError
  end.

(** The response of the route; [None] when the process promise never
    settles, so that the route never answers. *)
Definition POST (w : World) : option Response :=
  match POST_before w with
  | Some o => Some (catchAll o)
  | None => catchAll ∘ POST_try w <$> runPythonModel (processEvents w)
  end.

(** ** The client-side simulation *)

(** Computations that call [Math.random()]: the sequence of values it returns
    and the number of calls made so far are threaded through. *)
Definition Rand (A : Type) : Type := (nat → Q) → nat → A * nat.

Definition ret {A} (a : A) : Rand A := λ _ i, (a, i).

Definition bind {A B} (m : Rand A) (k : A → Rand B) : Rand B :=
  λ draws i, let '(a, j) := m draws i in k a draws j.

Definition Math_random : Rand Q := λ draws i, (draws i, S i).

Notation "'do!' x ← m ; k" := (bind m (λ x, k))
  (at level 100, x pattern, m at level 60, k at level 100, right associativity, only parsing).

(** [l.map((x, index) => f(x, index))] when [f] draws random numbers. *)
Fixpoint mapRand {A B} (f : nat → A → Rand B) (index : nat) (l : list A) : Rand (list B) :=
  match l with
  | [] => ret []
  | x :: l' => do! y ← f index x; do! ys ← mapRand f (S index) l'; ret (y :: ys)
  end.

(** [row[key]] *)
Definition get (row : gmap string value) (key : string) : value :=
  default VUndef (row !! key).

(** The callback computing [soilIds]. *)
Definition soilIdOf (row : gmap string value) : Rand value :=
  do! soilId ←
    (if truthy (get row "Soil_ID") then ret (get row "Soil_ID")
     else if truthy (get row "Records") then ret (get row "Records")
     else do! r ← Math_random; ret (VStr ("Sample_" +:+ pretty (Qfloor (r * 1000)%Q))));
  ret match soilId with
      | VStr s => if includes s "-" then at_index (split s "-") 0 else soilId
      | _ => soilId
      end.

Definition hasMoistureLevels (data : list (gmap string value)) : bool :=
  existsb (λ row, truthy (get row "Moisture_Level")
                  || match get row "Soil_ID" with
                     | VStr s => includes s "_"
                     | _ => false
                     end) data.

Definition levels : list string := ["0ml"; "25ml"; "50ml"].

Definition moistureLevelOf (row : gmap string value) (index : nat) (soilId : value) : value :=
  let otherwise :=
    if truthy (get row "Moisture_Level") then get row "Moisture_Level"
    else at_index levels (index mod length levels) in
  match soilId with
  | VStr s =>
      if includes s "_" then
        let parts := split s "_" in
        if bool_decide (1 < length parts)%nat then at_index parts 1 else VStr "0ml"
      else otherwise
  | _ => otherwise
  end.

Definition targetParams : list string :=
  ["Ph"; "Moist"; "EC (u/10 gram)"; "Nitro (mg/10 g)"; "Posh Nitro (mg/10 g)";
   "Pota Nitro (mg/10 g)"].

Definition isString (v : value) (s : string) : bool :=
  match v with
  | VStr t => bool_decide (t = s)
  | _ => false
  end.

(** The [switch] that generates a value for an absent parameter; no case, no
    assignment.  The sums are exact: the code has them rounded. *)
Definition synthesize (param : string) (moistureLevel : value) : Rand (option Q) :=
  if bool_decide (param = "Ph") then
    do! r ← Math_random; ret (Some (6.5 + (r * 1.5 - 0.75))%Q)
  else if bool_decide (param = "Moist") then
    let baseValue : Q :=
      if isString moistureLevel "0ml" then 15%Q
      else if isString moistureLevel "25ml" then 35%Q else 55%Q in
    do! r ← Math_random; ret (Some (baseValue + (r * 10 - 5))%Q)
  else if bool_decide (param = "EC (u/10 gram)") then
    do! r ← Math_random; ret (Some (800 + (r * 400 - 200))%Q)
  else if bool_decide (param = "Nitro (mg/10 g)") then
    do! r ← Math_random; ret (Some (18 + (r * 10 - 5))%Q)
  else if bool_decide (param = "Posh Nitro (mg/10 g)") then
    do! r ← Math_random; ret (Some (12 + (r * 8 - 4))%Q)
  else if bool_decide (param = "Pota Nitro (mg/10 g)") then
    do! r ← Math_random; ret (Some (25 + (r * 15 - 7.5))%Q)
  else ret None.

(** The body of [targetParams.forEach]. *)
Definition fillParam (row : gmap string value) (moistureLevel : value)
    (prediction : gmap string value) (param : string) : Rand (gmap string value) :=
  match get row param with
  | VUndef =>
      do! generated ← synthesize param moistureLevel;
      ret match generated with
          | Some q => <[param := VNum (Finite q)]> prediction
          | None => prediction
          end
  | v => ret (<[param := v]> prediction)
  end.

Fixpoint foldRand {A B} (f : A → B → Rand A) (a : A) (l : list B) : Rand A :=
  match l with
  | [] => ret a
  | b :: l' => do! a' ← f a b; foldRand f a' l'
  end.

(** The callback computing [predictions]. *)
Definition predictionOf (soilIds : list value) (index : nat) (row : gmap string value)
  : Rand (gmap string value) :=
  let soilId := default VUndef (soilIds !! index) in
  let moistureLevel := moistureLevelOf row index soilId in
  let prediction : gmap string value :=
    <["Moisture_Level" := moistureLevel]> (<["Soil_ID" := soilId]> ∅) in
  foldRand (fillParam row moistureLevel) prediction targetParams.

(** The [predictions] of [simulateModelAnalysis]; the metrics it returns with
    them are constants and the output text is generated from both. *)
Definition simulateModelAnalysis (data : list (gmap string value))
  : Rand (list (gmap string value)) :=
  do! soilIds ← mapRand (λ _ row, soilIdOf row) 0 data;
  mapRand (predictionOf soilIds) 0 data.

Record SinglePrediction := {
  Soil_ID : string;
  Ph : Q;
  Moist : Q;
  EC : Q;          (* "EC (u/10 gram)" *)
  Nitro : Q;       (* "Nitro (mg/10 g)" *)
  Posh_Nitro : Q;  (* "Posh Nitro (mg/10 g)" *)
  Pota_Nitro : Q;  (* "Pota Nitro (mg/10 g)" *)
}.

(** [Object.keys(spectralData).filter((key) => !isNaN(Number(key)))] *)
Definition wavelengths (spectralData : gmap string value) : list string :=
  filter (λ key, isNaN (StringToNumber key) = false) (map_to_list spectralData).*1.

Definition qualityScore (spectralData : gmap string value) : Q :=
  (inject_Z (Z.of_nat (length (wavelengths spectralData))) / 18)%Q.

Definition simulateSinglePrediction (spectralData : gmap string value) : Rand SinglePrediction :=
  let qualityScore := qualityScore spectralData in
  do! r1 ← Math_random;
  do! r2 ← Math_random;
  do! r3 ← Math_random;
  do! r4 ← Math_random;
  do! r5 ← Math_random;
  do! r6 ← Math_random;
  ret {| Soil_ID := "Sample_1";
         Ph := (6.5 + qualityScore * 0.5 + (r1 * 0.5 - 0.25))%Q;
         Moist := (35 + qualityScore * 10 + (r2 * 10 - 5))%Q;
         EC := (800 + qualityScore * 200 + (r3 * 200 - 100))%Q;
         Nitro := (18 + qualityScore * 5 + (r4 * 5 - 2.5))%Q;
         Posh_Nitro := (12 + qualityScore * 4 + (r5 * 4 - 2))%Q;
         Pota_Nitro := (25 + qualityScore * 7.5 + (r6 * 7.5 - 3.75))%Q |}.

(** ** Writing rows back as text *)

Fixpoint zeros (n : nat) : string :=
  match n with
  | O => ""
  | S n' => String "0" (zeros n')
  end.

Fixpoint takeStr (n : nat) (s : string) : string :=
  match n, s with
  | S n', String c s' => String c (takeStr n' s')
  | _, _ => ""
  end.

Fixpoint dropStr (n : nat) (s : string) : string :=
  match n, s with
  | S n', String _ s' => dropStr n' s'
  | _, _ => s
  end.

(** The least [f] with [num * 10^f / den] an integer, looked for up to
    [fuel]; a number's value always has one. *)
Fixpoint fractionDigits (fuel : nat) (num den : Z) : nat :=
  match fuel with
  | O => O
  | S fuel' =>
      if (num mod den =? 0)%Z then O
      else S (fractionDigits fuel' (num * 10) den)
  end.

Fixpoint trailingZeros (fuel : nat) (m : Z) : nat :=
  match fuel with
  | O => O
  | S fuel' =>
      if (m mod 10 =? 0)%Z then S (trailingZeros fuel' (m / 10)) else O
  end.

(** Number::toString on a positive value [num / den]: with [digits] the [k]
    significant digits and [n] the position of the decimal point, the four
    layouts of the standard. *)
Definition positiveToString (num den : Z) : string :=
  let f := fractionDigits 1100 num den in
  let m := (num * 10 ^ Z.of_nat f / den)%Z in
  let z := trailingZeros (String.length (pretty m)) m in
  let digits := pretty (m / 10 ^ Z.of_nat z)%Z in
  let k := Z.of_nat (String.length digits) in
  let n := (k + Z.of_nat z - Z.of_nat f)%Z in
  if (k <=? n)%Z && (n <=? 21)%Z then digits +:+ zeros (Z.to_nat (n - k))
  else if (0 <? n)%Z && (n <=? 21)%Z then
    takeStr (Z.to_nat n) digits +:+ "." +:+ dropStr (Z.to_nat n) digits
  else if (-6 <? n)%Z && (n <=? 0)%Z then "0." +:+ zeros (Z.to_nat (- n)) +:+ digits
  else
    let e := (n - 1)%Z in
    let exponent := (if (0 <=? e)%Z then "+" else "-") +:+ pretty (Z.abs e) in
    match digits with
    | "" => ""
    | String d "" => String d ("e" +:+ exponent)
    | String d rest => String d ("." +:+ rest +:+ "e" +:+ exponent)
    end.

(** [String(x)] for a number. *)
Definition Number_toString (x : number) : string :=
  match x with
  | NaN => "NaN"
  | Infinity false => "Infinity"
  | Infinity true => "-Infinity"
  | Finite q =>
      if Qeq_bool q 0 then "0"
      else (if (Qnum q <? 0)%Z then "-" else "")
           +:+ positiveToString (Z.abs (Qnum q)) (Zpos (Qden q))
  end.

(** A cell as [Array.prototype.join] writes it: a string as it is, a number
    through [String], [undefined] as nothing. *)
Definition cellText (v : value) : string :=
  match v with
  | VUndef => ""
  | VStr s => s
  | VNum n => Number_toString n
  end.

(** The serializer of the round-trip property, after its words: the header
    line, then one comma-joined line per row, the columns in the order of
    [headers]. *)
Definition spec_serializeCSV (headers : list string) (rows : list (gmap string value)) : string :=
  join nl (join "," headers :: ((λ row, join "," ((λ h, cellText (get row h)) <$> headers)) <$> rows)).

(** The header names of a CSV text, as [parseCSV] reads them. *)
Definition headersOf (csvData : string) : list string :=
  split (default "" (split (trim csvData) nl !! 0%nat)) ",".

(** ** Reading a run of the process *)

Definition isData (ev : ProcessEvent) : Prop :=
  match ev with
  | StdoutData _ | StderrData _ => True
  | _ => False
  end.

(** What the process wrote on its standard output, chunk after chunk. *)
Fixpoint stdoutOf (events : list ProcessEvent) : string :=
  match events with
  | [] => ""
  | StdoutData data :: events' => data +:+ stdoutOf events'
  | _ :: events' => stdoutOf events'
  end.

(** What the process wrote on its standard error. *)
Fixpoint stderrOf (events : list ProcessEvent) : string :=
  match events with
  | [] => ""
  | StderrData data :: events' => data +:+ stderrOf events'
  | _ :: events' => stderrOf events'
  end.

(** The request carries a file and the route has saved it: the route goes
    on to run the process. *)
Definition uploadSaved (w : World) : Prop :=
  uploadDirReady w = true ∧ outputDirReady w = true ∧
  (∃ content, formData w = Some (FileEntry content)) ∧ writeFileOk w = true.

(** Two runs of the route used as instances. *)

Definition failedRun : World :=
  {| uploadDirReady := true; outputDirReady := true;
     formData := Some (FileEntry ("Soil_ID,410" +:+ nl +:+ "S1,0.5"));
     writeFileOk := true;
     processEvents := [StdoutData "Data loaded"; StderrData "Traceback: disk full";
                       CloseEvent (Some 1%Z)];
     predictionsFile := None |}.

Definition missingResultRun : World :=
  {| uploadDirReady := true; outputDirReady := true;
     formData := Some (FileEntry ("Soil_ID,410" +:+ nl +:+ "S1,0.5"));
     writeFileOk := true;
     processEvents := [StdoutData "Data loaded"; StderrData "warning";
                       StdoutData " successfully"; CloseEvent (Some 0%Z)];
     predictionsFile := None |}.

(** A log whose summary reports an RMSE of zero for its one target. *)
Definition zeroRmseLog : string :=
  join nl ["=== Final Summary ==="; ""; "Target: Ph"; "Best model: Random Forest Regressor";
           "R2: 1.000"; "RMSE: 0.000"].

(** What a prediction holds under a target parameter, given the row it was
    made from: the value of the row when the row has one, a generated finite
    number otherwise. *)
Definition targetFilled (row : gmap string value) (param : string)
    (entry : option value) : Prop :=
  match get row param with
  | VUndef => ∃ q : Q, entry = Some (VNum (Finite q))
  | v => entry = Some v
  end.

(** Two rows as [parseCSV] gives them: one with a pH and no moisture, one
    with neither. *)
Definition sampleRows : list (gmap string value) :=
  [ <["Ph" := VNum (Finite 6.1)]> (<["Soil_ID" := VStr "S1_25ml"]> ∅);
    <["Soil_ID" := VStr "S2"]> ∅ ].

(** The target a summary block is about: [targetMatch[1].trim()]. *)
Definition blockTarget (block : string) : option string := trim <$> targetMatch block.

(** Some block of the list is about [target] and has a match for the
    pattern [field]. *)
Definition someBlockHas {A} (field : string → option A) (blocks : list string)
    (target : string) : Prop :=
  ∃ block, block ∈ blocks ∧ blockTarget block = Some target ∧ is_Some (field block).

(** A log whose summary block for [Ph] has no [R2: ] line. *)
Definition missingR2Log : string :=
  join nl ["Selected 5 features for Ph"; "=== Final Summary ==="; ""; "Target: Ph";
           "Best model: SVR"; "RMSE: 0.420"].

(** A log announcing more features than an array can hold. *)
Definition hugeFeatureCountLog : string :=
  "Selected 4294967296 features for Ph" +:+ nl.

(** A log whose summary block for [Ph] has no line that begins with [R2:]:
    the characters [R2: 1] stand at the end of the name of its model. *)
Definition midLineR2Log : string :=
  join nl ["=== Final Summary ==="; ""; "Target: Ph"; "Best model: SVR2: 1"; "RMSE: 0.420"].

(** Parsing a text and writing the rows back under its own header names. *)
Definition reserialize (csvData : string) : outcome string :=
  try! rows ← parseCSV csvData;
  Returned (spec_serializeCSV (headersOf csvData) rows).

(** A cell that parsing and writing back leave as it is: a text that is not
    numeric, or the very text [String] gives for its number. *)
Definition stableCell (cell : string) : Prop :=
  cellText (coerce (VStr cell)) = cell.

(** ** Texts around the example block *)

(** The four lines of the example, each after a line feed. *)
Definition phLines : string :=
  nl +:+ "Target: Ph" +:+ nl +:+ "Best model: Random Forest Regressor" +:+ nl
  +:+ "R2: 0.870" +:+ nl +:+ "RMSE: 0.420".

(** What follows the target separator in [phLines]. *)
Definition phBlock : string :=
  " Ph" +:+ nl +:+ "Best model: Random Forest Regressor" +:+ nl
  +:+ "R2: 0.870" +:+ nl +:+ "RMSE: 0.420".

(** A text with the four lines after a summary header: [pre] comes before
    the header, [mid] between the header and the lines, [post] after them. *)
Definition logAround (pre mid post : string) : string :=
  pre +:+ summaryMarker +:+ mid +:+ phLines +:+ post.

(** No occurrence of [pat] in [x +:+ y] starts inside [x]. *)
Fixpoint noneStarts (pat x y : string) : bool :=
  match x with
  | "" => true
  | String _ x' => negb (startsWith (x +:+ y) pat) && noneStarts pat x' y
  end.

(** No proper suffix of [pat], other than the empty one, starts [u]: an
    occurrence of [pat] cannot begin before [u] and end inside it. *)
Definition overlapFree (pat u : string) : bool :=
  forallb (λ k, negb (startsWith u (dropStr k pat))) (seq 1 (String.length pat - 1)).

(** The first [k] characters are there and none is a line feed. *)
Fixpoint noLFPrefix (k : nat) (x : string) : Prop :=
  match k with
  | O => True
  | S k' =>
      match x with
      | "" => False
      | String c x' => c ≠ LF ∧ noLFPrefix k' x'
      end
  end.

(** The example block followed by a later block about the same target, and
    the example block after a feature line with too large a count. *)
Definition laterPhBlockLog : string :=
  logAround "" nl (nl +:+ nl +:+ "Target: Ph" +:+ nl +:+ "Best model: SVR" +:+ nl
                   +:+ "R2: 0.500" +:+ nl +:+ "RMSE: 0.300").

Definition phAfterHugeCountLog : string :=
  logAround hugeFeatureCountLog nl "".

(** The example block in a log of the shape the Python script prints. *)
Definition phExampleLog : string :=
  logAround (join nl ["Data loaded successfully"; ""; "=== Processing target: Ph ===";
                      "Selected 5 features for Ph"; ""; ""])
            nl
            (join nl [""; "MAE: 0.336"; ""; "Target: Moist"; "Best model: Gradient Boosting";
                      "R2: 0.920"; "RMSE: 3.210"; ""; "Generating predictions for all samples...";
                      "Success!"]).

(** The relation the extractor keeps between its RMSE and MSE mappings:
    [__proto__] is no key of the first, and a target whose RMSE is truthy has
    the square of that RMSE as its MSE. *)
Definition mseFromRmse (metrics : ModelMetrics) : Prop :=
  rmseScores metrics !! "__proto__" = None ∧
  ∀ (target : string) (x : number),
    rmseScores metrics !! target = Some x → truthy (VNum x) = true →
    mseScores metrics !! target = Some (Math_pow_2 x).

(** ** Instances for the route and its parsers *)

(** A run that reports a failed start and then closes. *)
Definition failedStartRun : list ProcessEvent :=
  [StdoutData "Data"; ErrorEvent "spawn python ENOENT"; StderrData "late";
   CloseEvent (Some 0%Z)].


(** [`Feature ${i + 1}`] for [i] from 0 to [n - 1]. *)
Definition featureNames (n : Z) : list string :=
  (λ i : nat, "Feature " +:+ pretty (i + 1)%nat) <$> seq 0 (Z.to_nat n).

(** A run that succeeds and leaves a predictions file. *)
Definition successfulRun : World :=
  {| uploadDirReady := true; outputDirReady := true;
     formData := Some (FileEntry ("Soil_ID,410" +:+ nl +:+ "S1,0.5"));
     writeFileOk := true;
     processEvents := [StdoutData missingR2Log; CloseEvent (Some 0%Z)];
     predictionsFile := Some ("Soil_ID,Ph" +:+ nl +:+ "S1,6.5") |}.

(** A request without a file, and a process that is still running. *)
Definition noFileRequest : World :=
  {| uploadDirReady := true; outputDirReady := true; formData := Some NoEntry;
     writeFileOk := true; processEvents := []; predictionsFile := None |}.

Definition runningProcess : World :=
  {| uploadDirReady := true; outputDirReady := true;
     formData := Some (FileEntry "Soil_ID");
     writeFileOk := true;
     processEvents := [StdoutData "Data loaded"; StderrData "warning"];
     predictionsFile := None |}.

(** ** Texts with CR LF line ends *)

(** Every line feed of [s] comes right after a carriage return, [prev] being
    the character before [s]. *)
Fixpoint lfAfterCR (prev : ascii) (s : string) : bool :=
  match s with
  | "" => true
  | String c s' => (negb (Ascii.eqb c LF) || Ascii.eqb prev CR) && lfAfterCR c s'
  end.

(** A text all of whose line feeds end a CR LF pair. *)
Definition crlfOnly (s : string) : bool := lfAfterCR " " s.

(** The last character of [s], or [d] for the empty string. *)
Fixpoint lastOr (d : ascii) (s : string) : ascii :=
  match s with
  | "" => d
  | String c s' => lastOr c s'
  end.

(** The log of the example block as a process writes it where lines end in
    CR LF. *)
Definition crlfLog : string :=
  join (String CR nl)
    ["Selected 5 features for Ph"; "=== Final Summary ==="; ""; "Target: Ph";
     "Best model: Random Forest Regressor"; "R2: 0.870"; "RMSE: 0.420"; "";
     "Generating predictions for all samples..."].

(** ** The result of the simulated analysis *)

(** [x.toFixed(f)] for a finite [x]: the digits of the integer nearest to
    [x * 10^f] (the larger one at a tie), padded with zeros to more than [f]
    digits, the point before the last [f] of them; from 10^21 on, [String(x)]. *)
Definition toFixed (x : Q) (f : nat) : string :=
  let s := if Qle_bool 0 x then "" else "-" in
  let x := if Qle_bool 0 x then x else (- x)%Q in
  if Qle_bool (inject_Z (10 ^ 21)) x then s +:+ Number_toString (Finite x)
  else
    let n := Qfloor (x * inject_Z (10 ^ Z.of_nat f) + (1 # 2))%Q in
    let m := pretty n in
    s +:+ match f with
          | O => m
          | S _ =>
              let m := if (String.length m <=? f)%nat
                       then zeros (f + 1 - String.length m) +:+ m else m in
              let k := String.length m in
              takeStr (k - f) m +:+ "." +:+ dropStr (k - f) m
          end.

(** The entries of one target in a metrics object all of whose five mappings
    have that target as a key. *)
Record TargetMetrics := {
  r2Score : Q;
  rmseScore : Q;
  mseScore : Q;
  bestModel : string;
  selectedFeatures : list string;
}.

(** A metrics object whose five mappings have the same keys, none of them an
    array index: its targets in the order of [Object.keys], each with its
    entries. *)
Definition TargetTable : Type := list (string * TargetMetrics).

(** The first [targets.forEach] of [generateModelOutputText]. *)
Definition processingLines (output : string) (entry : string * TargetMetrics) : string :=
  let '(target, m) := entry in
  output
  +:+ (nl +:+ nl +:+ "=== Processing target: " +:+ target +:+ " ===")
  +:+ (nl +:+ "Selecting features...")
  +:+ (nl +:+ "Selected " +:+ pretty (length (selectedFeatures m)) +:+ " features for " +:+ target)
  +:+ (nl +:+ "Starting model training...")
  +:+ (nl +:+ nl +:+ "Training " +:+ bestModel m +:+ "...")
  +:+ (nl +:+ "Fold 1 completed - R2: " +:+ toFixed (r2Score m) 3)
  +:+ (nl +:+ "Fold 2 completed - R2: " +:+ toFixed (r2Score m - 0.02) 3)
  +:+ (nl +:+ "Fold 3 completed - R2: " +:+ toFixed (r2Score m + 0.01) 3)
  +:+ (nl +:+ "Fold 4 completed - R2: " +:+ toFixed (r2Score m - 0.01) 3)
  +:+ (nl +:+ "Fold 5 completed - R2: " +:+ toFixed (r2Score m + 0.02) 3)
  +:+ (nl +:+ nl +:+ "Model Performance for " +:+ target +:+ ":")
  +:+ (nl +:+ "R2: " +:+ toFixed (r2Score m) 3)
  +:+ (nl +:+ "RMSE: " +:+ toFixed (rmseScore m) 3)
  +:+ (nl +:+ "MAE: " +:+ toFixed (rmseScore m * 0.8) 3).

(** The second [targets.forEach]. *)
Definition summaryLines (output : string) (entry : string * TargetMetrics) : string :=
  let '(target, m) := entry in
  output
  +:+ (nl +:+ nl +:+ "Target: " +:+ target)
  +:+ (nl +:+ "Best model: " +:+ bestModel m)
  +:+ (nl +:+ "R2: " +:+ toFixed (r2Score m) 3)
  +:+ (nl +:+ "RMSE: " +:+ toFixed (rmseScore m) 3)
  +:+ (nl +:+ "MAE: " +:+ toFixed (rmseScore m * 0.8) 3)
  +:+ (nl +:+ "Number of features used: " +:+ pretty (length (selectedFeatures m))).

(** [generateModelOutputText]; the predictions are a parameter it does not
    read. *)
Definition generateModelOutputText (metrics : TargetTable)
    (predictions : list (gmap string value)) : string :=
  let targets := metrics.*1 in
  let output := "Data loaded successfully" +:+ nl +:+ nl in
  let output := output +:+ "Available columns: Soil_ID, Moisture_Level, " in
  let output := output +:+ join ", " targets in
  let output := output +:+ (nl +:+ nl +:+ "Predicting targets: ") +:+ join ", " targets in
  let output := foldl processingLines output metrics in
  let output := output +:+ (nl +:+ nl +:+ "=== Final Summary ===") in
  let output := foldl summaryLines output metrics in
  let output := output +:+ (nl +:+ nl +:+ "Generating predictions for all samples...") in
  output +:+ (nl +:+ "Success! Predictions saved to soil_analysis_output/soil_predictions.csv").

(** The [metrics] of [simulateModelAnalysis]. *)
Definition simulatedMetrics : TargetTable :=
  [("Ph",
    {| r2Score := 0.87; rmseScore := 0.42; mseScore := 0.18; bestModel := "Random Forest";
       selectedFeatures := ["760"; "810"; "PCA_1"; "535"; "d680"] |});
   ("Moist",
    {| r2Score := 0.92; rmseScore := 3.21; mseScore := 10.3; bestModel := "Gradient Boosting";
       selectedFeatures := ["NDI"; "SIR"; "PCA_2"; "d730"; "d810"] |});
   ("EC (u/10 gram)",
    {| r2Score := 0.85; rmseScore := 0.56; mseScore := 0.31; bestModel := "Random Forest";
       selectedFeatures := ["510"; "535"; "d560"; "PCA_1"; "VIS_avg"] |});
   ("Nitro (mg/10 g)",
    {| r2Score := 0.79; rmseScore := 2.34; mseScore := 5.48; bestModel := "Gradient Boosting";
       selectedFeatures := ["NIR_avg"; "860"; "900"; "d810"; "d860"] |});
   ("Posh Nitro (mg/10 g)",
    {| r2Score := 0.81; rmseScore := 1.87; mseScore := 3.5; bestModel := "Random Forest";
       selectedFeatures := ["PCA_3"; "d645"; "d680"; "730"; "760"] |});
   ("Pota Nitro (mg/10 g)",
    {| r2Score := 0.83; rmseScore := 2.12; mseScore := 4.49; bestModel := "SVR";
       selectedFeatures := ["PCA_2"; "d535"; "d560"; "610"; "645"] |})].

Record AnalysisResult := {
  predictions : list (gmap string value);
  metrics : TargetTable;
  modelOutput : string;
}.

(** What [simulateModelAnalysis] returns. *)
Definition simulateModelAnalysisResult (data : list (gmap string value)) : Rand AnalysisResult :=
  do! predictions ← simulateModelAnalysis data;
  ret {| predictions := predictions; metrics := simulatedMetrics;
         modelOutput := generateModelOutputText simulatedMetrics predictions |}.

(** [uploadSoilData], once its timer has fired; [fileContent] is what
    [file.text()] resolves with, [None] when it rejects.  Whatever is thrown
    inside is replaced by one error. *)
Definition uploadSoilData (fileContent : option string) : Rand (outcome AnalysisResult) :=
  let failure :=
    Thrown (Rejection "Failed to analyze soil data. Please check your CSV format and try again.") in
  match fileContent with
  | None => ret failure
  | Some content =>
      match parseCSV content with
      | Thrown _ => ret failure
      | Returned parsedData =>
          do! result ← simulateModelAnalysisResult parsedData; ret (Returned result)
      end
  end.

(** A number equal to a given rational. *)
Definition isNumber (n : option number) (q : Q) : Prop :=
  match n with
  | Some (Finite q') => (q' == q)%Q
  | _ => False
  end.

(** What follows the first occurrence of [pat] in [s]; nothing when there is
    none. *)
Fixpoint after (pat s : string) : string :=
  match stripPrefix pat s with
  | Some rest => rest
  | None =>
      match s with
      | "" => ""
      | String _ s' => after pat s'
      end
  end.

(** Every character of [s] satisfies [p]. *)
Fixpoint allChars (p : ascii → bool) (s : string) : bool :=
  match s with
  | "" => true
  | String c s' => p c && allChars p s'
  end.

(** The interval in which [simulateModelAnalysis] generates a parameter that
    the row lacks, given the moisture level of the prediction.  The
    intervals are closed: the exact sum stays below the upper end, which the
    rounded sum of the code reaches for a draw next to 1. *)
Definition inGeneratedRange (param : string) (moistureLevel : value) (q : Q) : Prop :=
  (param = "Ph" → 5.75 <= q <= 7.25)%Q ∧
  (param = "Moist" →
     if isString moistureLevel "0ml" then (10 <= q <= 20)%Q
     else if isString moistureLevel "25ml" then (30 <= q <= 40)%Q
     else (50 <= q <= 60)%Q) ∧
  (param = "EC (u/10 gram)" → 600 <= q <= 1000)%Q ∧
  (param = "Nitro (mg/10 g)" → 13 <= q <= 23)%Q ∧
  (param = "Posh Nitro (mg/10 g)" → 8 <= q <= 16)%Q ∧
  (param = "Pota Nitro (mg/10 g)" → 17.5 <= q <= 32.5)%Q.

(** Rows for the instances: an id with a hyphen and an underscore and a
    moisture column, and a row with no id at all. *)
Definition taggedRow : gmap string value :=
  <["Moisture_Level" := VStr "50ml"]> (<["Soil_ID" := VStr "F3_25ml_a-rep2"]> ∅).

Definition anonymousRow : gmap string value :=
  <["Moisture_Level" := VStr "25ml"]> (<["410" := VNum (Finite 0.5)]> ∅).

(** The test that decides [isNumber]. *)
Definition numberIs (n : option number) (q : Q) : bool :=
  match n with
  | Some (Finite q') => Qeq_bool q' q
  | _ => false
  end.

(** What the extractor gave agrees with the entries of one target in the
    R2, the RMSE and the best model; the MSE is the square of the RMSE of the
    entries and not their MSE; the features are placeholders, as many as the
    features of the entries and different from them. *)
Definition readsBack (extracted : outcome ModelMetrics) (entry : string * TargetMetrics) : bool :=
  match extracted with
  | Thrown _ => false
  | Returned e =>
      let '(target, m) := entry in
      numberIs (r2Scores e !! target) (r2Score m)
      && numberIs (rmseScores e !! target) (rmseScore m)
      && bool_decide (bestModels e !! target = Some (bestModel m))
      && numberIs (mseScores e !! target) (rmseScore m * rmseScore m)
      && negb (numberIs (mseScores e !! target) (mseScore m))
      && bool_decide (bestFeatures e !! target
                      = Some (featureNames (Z.of_nat (length (selectedFeatures m)))))
      && negb (bool_decide (bestFeatures e !! target = Some (selectedFeatures m)))
  end.

(** ** The views of a single prediction *)

(** [Math.max], [Math.min] and [Math.abs] on finite numbers, and [<]. *)
Definition Math_max (a b : Q) : Q := if Qle_bool a b then b else a.
Definition Math_min (a b : Q) : Q := if Qle_bool a b then a else b.
Definition Math_abs (a : Q) : Q := if Qle_bool 0 a then a else (- a)%Q.
Definition Qlt_bool (a b : Q) : bool := negb (Qle_bool b a).

Module SoilHealthGauge.

Definition calculateHealthScore (prediction : SinglePrediction) : Q :=
  let moisture := Moist prediction in
  let ph := Ph prediction in
  let nitro := Nitro prediction in
  let ec := EC prediction in
  let moistureScore := Math_min (Math_max ((moisture - 10) / 50) 0) 1 in
  let phScore := (1 - Math_abs (ph - 6.5) / 3.5)%Q in
  let nitroScore := Math_min (nitro / 50) 1 in
  let ecScore := (1 - Math_min (Math_max (Math_abs (ec - 800) / 800) 0) 1)%Q in
  ((moistureScore * 0.3 + phScore * 0.3 + nitroScore * 0.2 + ecScore * 0.2) * 100)%Q.

(** [d3.scaleThreshold().domain([40, 70]).range(["#ef4444", "#f97316", "#22c55e"])]:
    the first colour below 40, the second from 40 to below 70, the third from
    70 on. *)
Definition colorScale (x : Q) : string :=
  if Qlt_bool x 40 then "#ef4444" else if Qlt_bool x 70 then "#f97316" else "#22c55e".

End SoilHealthGauge.

Module SoilRecommendations.

Record NPK := { N : Q; P : Q; K : Q }.

Definition generateNPKRecommendation (prediction : SinglePrediction) : NPK :=
  let n := (Math_max 0 (25 - Nitro prediction) / 25 * 100)%Q in
  let p := (Math_max 0 (15 - Posh_Nitro prediction) / 15 * 100)%Q in
  let k := (Math_max 0 (30 - Pota_Nitro prediction) / 30 * 100)%Q in
  {| N := Math_max n 10; P := Math_max p 10; K := Math_max k 10 |}.

(** The titles of the four alerts of the recommended actions. *)
Definition moistureAlert (prediction : SinglePrediction) : string :=
  if Qlt_bool (Moist prediction) 20 then "Irrigation Needed"
  else if Qlt_bool 60 (Moist prediction) then "Reduce Irrigation"
  else "Moisture Optimal".

Definition phAlert (prediction : SinglePrediction) : string :=
  if Qlt_bool (Ph prediction) 6 then "Increase pH"
  else if Qlt_bool 7 (Ph prediction) then "Lower pH"
  else "pH Optimal".

Definition nitrogenAlert (prediction : SinglePrediction) : string :=
  if Qlt_bool (Nitro prediction) 20 then "Nitrogen Deficient"
  else if Qlt_bool 50 (Nitro prediction) then "Excess Nitrogen"
  else "Nitrogen Adequate".

Definition ecAlert (prediction : SinglePrediction) : string :=
  if Qlt_bool (EC prediction) 100 then "Low Salinity"
  else if Qlt_bool 1500 (EC prediction) then "High Salinity"
  else "EC Normal".

(** The label under each of the three percentages of the blend. *)
Definition priority (x : Q) : string :=
  if Qlt_bool 50 x then "High priority"
  else if Qlt_bool 25 x then "Medium priority"
  else "Low priority".

(** The rate of the application recommendation, in kg per 1000 m². *)
Definition applicationRate (npkRec : NPK) : string :=
  if Qlt_bool 50 (N npkRec) then " 5-7 "
  else if Qlt_bool 25 (N npkRec) then " 3-5 "
  else " 2-3 ".

End SoilRecommendations.

Module SpectralDataForm.

Definition wavelengths : list string :=
  ["410"; "435"; "460"; "485"; "510"; "535"; "560"; "585"; "610"; "645"; "680"; "705";
   "730"; "760"; "810"; "860"; "900"; "940"].

(** [setFormData((prev) => ({ ...prev, [name]: value }))] *)
Definition handleChange (formData : gmap string string) (name value : string)
  : gmap string string :=
  <[name := value]> formData.

(** The data [handleSubmit] passes to [onSubmit]: the entries of the form
    whose text is not empty, each read by [parseFloat]. *)
Definition handleSubmit (formData : gmap string string) : gmap string value :=
  map_fold (λ key value numericData,
              if bool_decide (value = "") then numericData
              else setProperty key (VNum (parseFloat value)) numericData)
           ∅ formData.

(** The form after a sequence of changes of its inputs, from the empty one. *)
Definition formAfter (changes : list (string * string)) : gmap string string :=
  foldl (λ formData '(name, value), handleChange formData name value) ∅ changes.

End SpectralDataForm.

(** A prediction lies in the ranges that at most 18 numeric keys give.  The
    intervals are closed: with 18 keys and a draw next to 1 the rounded sum
    of the code is the upper end itself. *)
Definition inSingleRanges (prediction : SinglePrediction) : Prop :=
  (6.25 <= Ph prediction <= 7.25)%Q ∧
  (30 <= Moist prediction <= 50)%Q ∧
  (700 <= EC prediction <= 1100)%Q ∧
  (15.5 <= Nitro prediction <= 25.5)%Q ∧
  (10 <= Posh_Nitro prediction <= 18)%Q ∧
  (21.25 <= Pota_Nitro prediction <= 36.25)%Q.

(** Instances: a form with two fields filled, one of them with a text that
    is no number, and one field emptied again. *)
Definition sampleChanges : list (string * string) :=
  [("410", "0.5"); ("435", "0.7"); ("410", ""); ("860", "abc")].

Definition samplePrediction : SinglePrediction :=
  {| Soil_ID := "Sample_1"; Ph := 6.8; Moist := 41.5; EC := 950; Nitro := 19;
     Posh_Nitro := 12.5; Pota_Nitro := 31 |}.

(** ** The table of samples *)

(** An object with its own properties in the order of [Object.keys]; none of
    the keys is an array index, so that this is the order of creation. *)
Definition JsObject : Type := list (string * value).

Definition Object_keys (obj : JsObject) : list string := obj.*1.

(** [obj[key]] for a key that [Object.prototype] does not have. *)
Fixpoint prop (obj : JsObject) (key : string) : value :=
  match obj with
  | [] => VUndef
  | (k, v) :: obj' => if bool_decide (k = key) then v else prop obj' key
  end.

(** The keys of a prediction in the order in which [simulateModelAnalysis]
    writes them, and a prediction as the object with these keys. *)
Definition predictionKeys : list string := "Soil_ID" :: "Moisture_Level" :: targetParams.

Definition predictionObject (prediction : gmap string value) : JsObject :=
  (λ key, (key, get prediction key)) <$> predictionKeys.

(** [l.filter(f)] when [f] can throw. *)
Fixpoint filterOutcome {A} (f : A → outcome bool) (l : list A) : outcome (list A) :=
  match l with
  | [] => Returned []
  | x :: l' =>
      try! keep ← f x;
      try! rest ← filterOutcome f l';
      Returned (if keep then x :: rest else rest)
  end.

(** [l.slice(start, end)] for indices that are not negative. *)
Definition slice {A} (l : list A) (start finish : nat) : list A :=
  take (finish - start) (drop start l).

(** [c.toLowerCase()] on a code unit below 256: the capital letters A to Z,
    À to Ö and Ø to Þ have their small letter 32 further. *)
Definition lowerChar (c : ascii) : ascii :=
  let n := code c in
  if ((65 <=? n) && (n <=? 90) || (192 <=? n) && (n <=? 214)
      || (216 <=? n) && (n <=? 222))%N
  then ascii_of_N (n + 32) else c.

Fixpoint toLowerCase (s : string) : string :=
  match s with
  | "" => ""
  | String c s' => String (lowerChar c) (toLowerCase s')
  end.

Module SoilSampleTable.

Definition itemsPerPage : nat := 10.

Definition columns (samples : list JsObject) : list string :=
  match samples with
  | [] => []
  | sample :: _ => filter (λ col, col ≠ "Moisture_Value") (Object_keys sample)
  end.

(** The callback of the filter: [toLowerCase] is no method of a number and
    cannot be read from [undefined]. *)
Definition matchesSearch (searchTerm : string) (sample : JsObject) : outcome bool :=
  match prop sample "Soil_ID" with
  | VStr id => Returned (includes (toLowerCase id) (toLowerCase searchTerm))
  | _ => Thrown TypeError
  end.

Definition filteredSamples (samples : list JsObject) (searchTerm : string)
  : outcome (list JsObject) :=
  filterOutcome (matchesSearch searchTerm) samples.

(** [Math.ceil(filteredSamples.length / itemsPerPage)] *)
Definition totalPages (filtered : list JsObject) : nat :=
  Z.to_nat (Qceiling (inject_Z (Z.of_nat (length filtered))
                      / inject_Z (Z.of_nat itemsPerPage))).

Definition paginatedSamples (filtered : list JsObject) (currentPage : nat) : list JsObject :=
  slice filtered ((currentPage - 1) * itemsPerPage) (currentPage * itemsPerPage).

(** The two numbers of [Showing ... to ...]. *)
Definition showingFrom (currentPage : nat) : nat := (currentPage - 1) * itemsPerPage + 1.

Definition showingTo (filtered : list JsObject) (currentPage : nat) : nat :=
  Nat.min (currentPage * itemsPerPage) (length filtered).

(** The updates of the page by the two buttons. *)
Definition previousPage (prev : nat) : nat := Nat.max (prev - 1) 1.

Definition nextPage (filtered : list JsObject) (prev : nat) : nat :=
  Nat.min (prev + 1) (totalPages filtered).

(** The text [exportToCsv] offers for download. *)
Definition exportToCsv (samples : list JsObject) (searchTerm : string) : outcome string :=
  try! filtered ← filteredSamples samples searchTerm;
  let headers := join "," (columns samples) in
  let rows :=
    (λ sample, join "," ((λ col, cellText (prop sample col)) <$> columns samples))
      <$> filtered in
  Returned (join nl (headers :: rows)).

End SoilSampleTable.

(** Instances: a row whose identifier is a number, and two samples. *)
Definition numberedRow : gmap string value :=
  <["Ph" := VNum (Finite 6.5)]> (<["Soil_ID" := VNum (Finite 101)]> ∅).

Definition twoSamples : list JsObject :=
  [ [("Soil_ID", VStr "S1_0ml"); ("Moisture_Level", VStr "0ml"); ("Ph", VNum (Finite 6.5))];
    [("Soil_ID", VStr "B2"); ("Moisture_Level", VStr "25ml"); ("Ph", VNum (Finite 7.25))] ].

(** The test of the search on a sample whose identifier is a text. *)
Definition idMatches (searchTerm : string) (sample : JsObject) : bool :=
  match prop sample "Soil_ID" with
  | VStr id => includes (toLowerCase id) (toLowerCase searchTerm)
  | _ => false
  end.

(** The identifier of the sample is a text. *)
Definition hasTextId (sample : JsObject) : Prop := ∃ id, prop sample "Soil_ID" = VStr id.

(** ** The charts *)

Module SoilCharts.

(** SameValueZero, the equality of the elements of a [Set], and [===]: they
    differ on NaN only. *)
Definition sameValueZero (a b : value) : bool :=
  match a, b with
  | VUndef, VUndef => true
  | VStr s, VStr t => bool_decide (s = t)
  | VNum NaN, VNum NaN => true
  | VNum (Infinity x), VNum (Infinity y) => bool_decide (x = y)
  | VNum (Finite p), VNum (Finite q) => Qeq_bool p q
  | _, _ => false
  end.

Definition strictEquals (a b : value) : bool :=
  match a, b with
  | VNum NaN, VNum NaN => false
  | _, _ => sameValueZero a b
  end.

(** [[...new Set(l)]] after the elements [seen]: the elements of [l] not
    met before, in the order of their first occurrence. *)
Fixpoint distinct (seen l : list value) : list value :=
  match l with
  | [] => []
  | x :: l' =>
      if existsb (sameValueZero x) seen then distinct seen l'
      else x :: distinct (x :: seen) l'
  end.

Definition soilIds (data : list (gmap string value)) : list value :=
  distinct [] ((λ item, get item "Soil_ID") <$> data).

(** [data.find((item) => item.Soil_ID === id)] *)
Definition findSample (data : list (gmap string value)) (id : value)
  : option (gmap string value) :=
  List.find (λ item, strictEquals (get item "Soil_ID") id) data.

(** The data of a dataset: for each label the field of the sample found for
    it, [None] standing for [null]. *)
Definition series (field : string) (data : list (gmap string value)) : list (option value) :=
  (λ id, match findSample data id with
         | Some sample => Some (get sample field)
         | None => None
         end) <$> soilIds data.

End SoilCharts.

(** Two samples of the same soil and one of another. *)
Definition repeatedSamples : list (gmap string value) :=
  [ <["Moist" := VNum (Finite 12)]> (<["Soil_ID" := VStr "A"]> ∅);
    <["Moist" := VNum (Finite 31)]> (<["Soil_ID" := VStr "B"]> ∅);
    <["Moist" := VNum (Finite 54)]> (<["Soil_ID" := VStr "A"]> ∅) ].

(** ** The table of the model metrics *)

(** [l.map(f)] when [f] can throw. *)
Fixpoint mapOutcome {A B} (f : A → outcome B) (l : list A) : outcome (list B) :=
  match l with
  | [] => Returned []
  | x :: l' =>
      try! y ← f x;
      try! ys ← mapOutcome f l';
      Returned (y :: ys)
  end.

(** [n.toFixed(f)] for any number. *)
Definition Number_toFixed (n : number) (f : nat) : string :=
  match n with
  | Finite q => toFixed q f
  | _ => Number_toString n
  end.

Module ModelMetricsView.

(** The cells of one row of the performance summary; the badge is empty
    when [bestModels] has nothing under the target. *)
Record SummaryRow := {
  target : string;
  bestModel : option string;
  r2 : string;
  rmse : string;
  mse : string;
}.

(** The callback of [targets.map] in the body of the table.  [toFixed]
    cannot be read from [undefined], and is no method of what an object
    inherits: an entry that is missing makes the cell throw. *)
Definition summaryRow (metrics : ModelMetrics) (target : string) : outcome SummaryRow :=
  match r2Scores metrics !! target with
  | None => Thrown TypeError
  | Some r2 =>
      match rmseScores metrics !! target with
      | None => Thrown TypeError
      | Some rmse =>
          match mseScores metrics !! target with
          | None => Thrown TypeError
          | Some mse =>
              Returned {| target := target;
                          bestModel := bestModels metrics !! target;
                          r2 := Number_toFixed r2 3;
                          rmse := Number_toFixed rmse 3;
                          mse := Number_toFixed mse 3 |}
          end
      end
  end.

(** The rows of the table, [targets] being [Object.keys(metrics.r2Scores)]. *)
Definition summaryRows (targets : list string) (metrics : ModelMetrics)
  : outcome (list SummaryRow) :=
  mapOutcome (summaryRow metrics) targets.

End ModelMetricsView.

(** * Properties *)

(** Membership in a list written out, one case per element. *)
Ltac elem_cases H :=
  repeat (apply elem_of_cons in H as [->|H]); [..|by apply elem_of_nil in H].

(** Goals between closed terms, or terms closed up to a tail left open. *)
Ltac by_computation := vm_compute; reflexivity.

(** ** Strings *)

Section StringFacts.

Lemma append_cons (c : ascii) (a b : string) : String c a +:+ b = String c (a +:+ b).
Proof. done. Qed.

Lemma append_empty_l (s : string) : "" +:+ s = s.
Proof. done. Qed.

Lemma append_empty_r (s : string) : s +:+ "" = s.
Proof. induction s as [|c s IH]; [done|]. by rewrite append_cons, IH. Qed.

Lemma append_assoc (a b c : string) : (a +:+ b) +:+ c = a +:+ (b +:+ c).
Proof. induction a as [|x a IH]; [done|]. by rewrite !append_cons, IH. Qed.

Lemma split_go_nonempty (sep : string) (k : nat) (s : string) :
  split_go sep k s ≠ [].
Proof.
  revert k. induction s as [|c s IH]; intros k; [done|].
  cbn. destruct k; [|apply IH].
  destruct (startsWith _ _); [done|].
  destruct (split_go sep 0 s); done.
Qed.

Lemma split_lookup_0 (s sep : string) : is_Some (split s sep !! 0%nat).
Proof.
  unfold split. pose proof (split_go_nonempty sep 0 s).
  destruct (split_go sep 0 s); [done|]. by eexists.
Qed.

Lemma startsWith_single (c d : ascii) (s : string) :
  startsWith (String d s) (String c "") = bool_decide (c = d).
Proof.
  unfold startsWith. cbn.
  destruct (Ascii.eqb_spec c d) as [->|Hne].
  - rewrite bool_decide_true; [|by eexists]. by rewrite bool_decide_true.
  - rewrite bool_decide_false; [|by intros [? ?]]. by rewrite bool_decide_false.
Qed.

(** Joining the pieces of a split on a one-character separator gives the
    string back. *)
Lemma join_split_char (c : ascii) (s : string) :
  join (String c "") (split s (String c "")) = s.
Proof.
  unfold split. induction s as [|d s IH]; [done|].
  cbn [split_go]. rewrite startsWith_single. case_bool_decide as Hc.
  - subst d. cbn [String.length Nat.sub]. 
    pose proof (split_go_nonempty (String c "") 0 s) as Hne.
    destruct (split_go (String c "") 0 s) as [|p ps] eqn:E; [done|].
    cbn [join]. cbn [join] in IH. by rewrite IH.
  - pose proof (split_go_nonempty (String c "") 0 s) as Hne.
    destruct (split_go (String c "") 0 s) as [|p ps] eqn:E; [done|].
    cbn [join] in *. destruct ps as [|p' ps].
    + by subst.
    + rewrite append_cons. by rewrite IH.
Qed.

End StringFacts.

(** ** The CSV parser never throws *)

Section ParserTotality.

Lemma parseCSV_returns (csvData : string) :
  ∃ line0, split (trim csvData) nl !! 0%nat = Some line0 ∧
    parseCSV csvData =
      Returned (parseRow (split line0 ",") <$> drop 1 (split (trim csvData) nl)).
Proof.
  destruct (split_lookup_0 (trim csvData) nl) as [line0 Hl].
  exists line0. split; [done|]. unfold parseCSV. by rewrite Hl.
Qed.

(** C10.  [parseCSV] returns a list of rows on every input text: the
    element [lines[0]] it dereferences is always there.  On the empty text,
    and on a text of white space only, the list is empty. *)
Theorem parseCSV_total :
  (∀ csvData : string, ∃ rows, parseCSV csvData = Returned rows) ∧
  parseCSV "" = Returned [] ∧
  parseCSV ("  " +:+ nl +:+ " ") = Returned [].
Proof.
  split; [|split; reflexivity].
  intros csvData. destruct (parseCSV_returns csvData) as (line0 & _ & ->). by eexists.
Qed.

End ParserTotality.

(** ** The external process *)

Section ProcessRuns.

Lemma foldl_onEvent_data (chunks : list ProcessEvent) (st : ProcessState) :
  Forall isData chunks →
  foldl onEvent st chunks =
    {| outputData := outputData st +:+ stdoutOf chunks;
       errorData := errorData st +:+ stderrOf chunks;
       promise := promise st |}.
Proof.
  intros Hdata. revert st. induction Hdata as [|ev chunks Hev _ IH]; intros st.
  - cbn. rewrite !append_empty_r. by destruct st.
  - destruct ev; try done; cbn [foldl onEvent stdoutOf stderrOf];
      rewrite IH; cbn; by rewrite append_assoc.
Qed.

(** The promise after a run that only writes and then closes. *)
Lemma runPythonModel_close (chunks : list ProcessEvent) (exitCode : option Z) :
  Forall isData chunks →
  runPythonModel (chunks ++ [CloseEvent exitCode]) =
    Some (if bool_decide (exitCode = Some 0%Z) then Resolved (stdoutOf chunks)
          else Rejected ("Python process failed with code " +:+ showExitCode exitCode
                         +:+ ": " +:+ stderrOf chunks)).
Proof.
  intros Hdata. unfold runPythonModel.
  rewrite foldl_app, (foldl_onEvent_data _ _ Hdata). cbn.
  destruct exitCode as [[| |]|]; done.
Qed.

(** The promise stays pending while the process only writes. *)
Lemma runPythonModel_pending (chunks : list ProcessEvent) :
  Forall isData chunks → runPythonModel chunks = None.
Proof. intros Hdata. unfold runPythonModel. by rewrite (foldl_onEvent_data _ _ Hdata). Qed.

End ProcessRuns.

(** ** The upload route *)

Section Route.

(** A request whose file has been saved, and a process that writes [chunks]
    and then closes. *)
Context (w : World) (chunks : list ProcessEvent).
Hypothesis Hsaved : uploadSaved w.
Hypothesis Hdata : Forall isData chunks.

Lemma POST_after_upload :
  POST w = catchAll ∘ POST_try w <$> runPythonModel (processEvents w).
Proof.
  destruct Hsaved as (Hu & Ho & [content Hf] & Hw). unfold POST, POST_before.
  by rewrite Hu, Ho, Hf, Hw.
Qed.

(** C1, as the code has it.  When the process exits with a nonzero code
    (or is ended by a signal), the rejection of [runPythonModel] carries the
    code and the captured standard error verbatim; the route catches it and
    answers with the fixed message "Internal server error" and status 500,
    without any process output. *)
Theorem process_failure_answer (exitCode : option Z) :
  processEvents w = chunks ++ [CloseEvent exitCode] →
  exitCode ≠ Some 0%Z →
  runPythonModel (processEvents w) =
    Some (Rejected ("Python process failed with code " +:+ showExitCode exitCode
                    +:+ ": " +:+ stderrOf chunks)) ∧
  POST w = Some {| body := ErrorBody "Internal server error" None; status := 500 |}.
Proof.
  intros Hev Hcode.
  rewrite POST_after_upload, Hev, (runPythonModel_close _ _ Hdata).
  by rewrite bool_decide_false.
Qed.

(** C5.  When the process exits with code zero and the predictions file
    cannot be read, the route answers with status 500, the message "Failed
    to read model predictions" and the captured standard output; this is not
    the answer given to a failed process. *)
Theorem result_missing_answer :
  processEvents w = chunks ++ [CloseEvent (Some 0%Z)] →
  predictionsFile w = None →
  POST w = Some {| body := ErrorBody "Failed to read model predictions"
                                     (Some (stdoutOf chunks));
                   status := 500 |} ∧
  POST w ≠ Some internalServerError.
Proof.
  intros Hev Hfile.
  assert (POST w = Some {| body := ErrorBody "Failed to read model predictions"
                                             (Some (stdoutOf chunks));
                           status := 500 |}) as HP.
  { rewrite POST_after_upload, Hev, (runPythonModel_close _ _ Hdata).
    rewrite bool_decide_true by done. cbn. unfold readPredictions. by rewrite Hfile. }
  split; [done|]. rewrite HP. discriminate.
Qed.

End Route.

(** The claim of C1 fails on a run that writes "Traceback: disk full" on its
    standard error and exits with code 1: the answer of the route is the fixed
    message, and the text is nowhere in it. *)
Lemma process_failure_answer_counterexample :
  POST failedRun = Some {| body := ErrorBody "Internal server error" None; status := 500 |} ∧
  stderrOf (processEvents failedRun) = "Traceback: disk full" ∧
  includes "Internal server error" "Traceback: disk full" = false.
Proof. repeat split; reflexivity. Qed.

Lemma process_failure_answer_witness :
  runPythonModel (processEvents failedRun) =
    Some (Rejected "Python process failed with code 1: Traceback: disk full") ∧
  POST failedRun = Some {| body := ErrorBody "Internal server error" None; status := 500 |}.
Proof.
  refine (process_failure_answer failedRun
            [StdoutData "Data loaded"; StderrData "Traceback: disk full"] _ _
            (Some 1%Z) _ _).
  - repeat split; try reflexivity. eexists; reflexivity.
  - repeat constructor.
  - reflexivity.
  - discriminate.
Defined.

Lemma result_missing_answer_witness :
  POST missingResultRun =
    Some {| body := ErrorBody "Failed to read model predictions"
                              (Some "Data loaded successfully");
            status := 500 |} ∧
  POST missingResultRun ≠ Some internalServerError.
Proof.
  refine (result_missing_answer missingResultRun
            [StdoutData "Data loaded"; StderrData "warning"; StdoutData " successfully"]
            _ _ _ _).
  - repeat split; try reflexivity. eexists; reflexivity.
  - repeat constructor.
  - reflexivity.
  - reflexivity.
Defined.

(** ** The single-sample predictor *)

Section SinglePrediction.

Lemma wavelengths_empty : wavelengths ∅ = [].
Proof. unfold wavelengths. by rewrite map_to_list_empty. Qed.

Lemma qualityScore_empty : (qualityScore ∅ == 0)%Q.
Proof. unfold qualityScore. rewrite wavelengths_empty. reflexivity. Qed.

(** C8.  On the empty mapping the coverage ratio is 0 and, whatever
    [Math.random()] returns in [0, 1), each of the six values is its baseline
    plus the random term alone, hence within the stated interval. *)
Theorem simulateSinglePrediction_empty (draws : nat → Q) (i : nat) :
  (∀ j : nat, (0 <= draws j)%Q ∧ (draws j < 1)%Q) →
  (qualityScore ∅ == 0)%Q ∧
  (Ph (simulateSinglePrediction ∅ draws i).1 == 6.5 + (draws i * 0.5 - 0.25))%Q ∧
  (Moist (simulateSinglePrediction ∅ draws i).1 == 35 + (draws (i + 1)%nat * 10 - 5))%Q ∧
  (EC (simulateSinglePrediction ∅ draws i).1 == 800 + (draws (i + 2)%nat * 200 - 100))%Q ∧
  (Nitro (simulateSinglePrediction ∅ draws i).1 == 18 + (draws (i + 3)%nat * 5 - 2.5))%Q ∧
  (Posh_Nitro (simulateSinglePrediction ∅ draws i).1 == 12 + (draws (i + 4)%nat * 4 - 2))%Q ∧
  (Pota_Nitro (simulateSinglePrediction ∅ draws i).1
     == 25 + (draws (i + 5)%nat * 7.5 - 3.75))%Q ∧
  (6.25 <= Ph (simulateSinglePrediction ∅ draws i).1 <= 6.75)%Q ∧
  (30 <= Moist (simulateSinglePrediction ∅ draws i).1 <= 40)%Q ∧
  (700 <= EC (simulateSinglePrediction ∅ draws i).1 <= 900)%Q ∧
  (15.5 <= Nitro (simulateSinglePrediction ∅ draws i).1 <= 20.5)%Q ∧
  (10 <= Posh_Nitro (simulateSinglePrediction ∅ draws i).1 <= 14)%Q ∧
  (21.25 <= Pota_Nitro (simulateSinglePrediction ∅ draws i).1 <= 28.75)%Q.
Proof.
  intros Hdraws.
  pose proof qualityScore_empty as Hq.
  pose proof (Hdraws i) as [? ?].
  pose proof (Hdraws (S i)) as [? ?].
  pose proof (Hdraws (S (S i))) as [? ?].
  pose proof (Hdraws (S (S (S i)))) as [? ?].
  pose proof (Hdraws (S (S (S (S i))))) as [? ?].
  pose proof (Hdraws (S (S (S (S (S i)))))) as [? ?].
  replace (i + 1)%nat with (S i) by lia.
  replace (i + 2)%nat with (S (S i)) by lia.
  replace (i + 3)%nat with (S (S (S i))) by lia.
  replace (i + 4)%nat with (S (S (S (S i)))) by lia.
  replace (i + 5)%nat with (S (S (S (S (S i))))) by lia.
  cbn [simulateSinglePrediction bind ret Math_random fst Ph Moist EC Nitro Posh_Nitro Pota_Nitro].
  set (q := qualityScore ∅) in *.
  repeat split; lra.
Qed.

Lemma simulateSinglePrediction_empty_witness :
  (qualityScore ∅ == 0)%Q ∧
  (Ph (simulateSinglePrediction ∅ (λ _, 0.5%Q) 0%nat).1 == 6.5 + (0.5 * 0.5 - 0.25))%Q ∧
  (Moist (simulateSinglePrediction ∅ (λ _, 0.5%Q) 0%nat).1 == 35 + (0.5 * 10 - 5))%Q ∧
  (EC (simulateSinglePrediction ∅ (λ _, 0.5%Q) 0%nat).1 == 800 + (0.5 * 200 - 100))%Q ∧
  (Nitro (simulateSinglePrediction ∅ (λ _, 0.5%Q) 0%nat).1 == 18 + (0.5 * 5 - 2.5))%Q ∧
  (Posh_Nitro (simulateSinglePrediction ∅ (λ _, 0.5%Q) 0%nat).1 == 12 + (0.5 * 4 - 2))%Q ∧
  (Pota_Nitro (simulateSinglePrediction ∅ (λ _, 0.5%Q) 0%nat).1 == 25 + (0.5 * 7.5 - 3.75))%Q ∧
  (6.25 <= Ph (simulateSinglePrediction ∅ (λ _, 0.5%Q) 0%nat).1 <= 6.75)%Q ∧
  (30 <= Moist (simulateSinglePrediction ∅ (λ _, 0.5%Q) 0%nat).1 <= 40)%Q ∧
  (700 <= EC (simulateSinglePrediction ∅ (λ _, 0.5%Q) 0%nat).1 <= 900)%Q ∧
  (15.5 <= Nitro (simulateSinglePrediction ∅ (λ _, 0.5%Q) 0%nat).1 <= 20.5)%Q ∧
  (10 <= Posh_Nitro (simulateSinglePrediction ∅ (λ _, 0.5%Q) 0%nat).1 <= 14)%Q ∧
  (21.25 <= Pota_Nitro (simulateSinglePrediction ∅ (λ _, 0.5%Q) 0%nat).1 <= 28.75)%Q.
Proof.
  apply (simulateSinglePrediction_empty (λ _, 0.5%Q) 0%nat).
  intros j. split; [discriminate | reflexivity].
Defined.

End SinglePrediction.

(** ** Assignments under a computed name *)

Section Objects.

Lemma lookup_setProperty_eq {V} (key : string) (v : V) (obj : gmap string V) :
  key ≠ "__proto__" → setProperty key v obj !! key = Some v.
Proof. intros Hk. unfold setProperty. rewrite bool_decide_false by done. apply lookup_insert_eq. Qed.

Lemma lookup_setProperty_ne {V} (key k : string) (v : V) (obj : gmap string V) :
  key ≠ k → setProperty key v obj !! k = obj !! k.
Proof. intros Hk. unfold setProperty. case_bool_decide; [done|]. by apply lookup_insert_ne. Qed.

Lemma is_Some_setProperty {V} (key k : string) (v : V) (obj : gmap string V) :
  is_Some (setProperty key v obj !! k) ↔
  is_Some (obj !! k) ∨ (key = k ∧ k ≠ "__proto__").
Proof.
  destruct (decide (key = k)) as [->|Hne].
  - destruct (decide (k = "__proto__")) as [->|Hk].
    + unfold setProperty. rewrite bool_decide_true by done.
      split; [auto|]. by intros [?|[_ ?]].
    + rewrite lookup_setProperty_eq by done. split; [auto|]. by eexists.
  - rewrite lookup_setProperty_ne by done. split; [auto|]. by intros [?|[? _]].
Qed.

End Objects.

(** ** Cells of the CSV parser *)

Section Cells.

Lemma strUnsignedDecimalLiteral_not_NaN (s rest : string) (n : number) :
  strUnsignedDecimalLiteral s = Some (n, rest) → n ≠ NaN.
Proof.
  unfold strUnsignedDecimalLiteral.
  destruct (stripPrefix "Infinity" s); [by intros [= <- _]|].
  destruct (span isDigit s) as [ip r1].
  match goal with |- match ?m with _ => _ end = _ → _ => destruct m as [[[? ?] ?]|] end;
    [|done].
  destruct (exponentPart _). by intros [= <- _].
Qed.

Lemma strNumericLiteral_not_NaN (s : string) (n : number) :
  strNumericLiteral s = Some n → n ≠ NaN.
Proof.
  unfold strNumericLiteral.
  destruct (nonDecimalIntegerLiteral s) as [m|] eqn:Hnd.
  - intros [= <-]. unfold nonDecimalIntegerLiteral in Hnd.
    repeat (match type of Hnd with
            | match ?x with _ => _ end = _ => destruct x; try done
            | (if ?x then _ else _) = _ => destruct x; try done
            | (let '(_, _) := ?x in _) = _ => destruct x; try done
            end); by injection Hnd as <-.
  - unfold strDecimalLiteral. destruct (optSign s) as [neg r].
    destruct (strUnsignedDecimalLiteral r) as [[m rest]|] eqn:Hu; [|done].
    apply strUnsignedDecimalLiteral_not_NaN in Hu.
    destruct rest; [|done]. intros [= <-]. destruct neg, m; done.
Qed.

(** What the parser stores for a cell that is present, by its text. *)
Lemma coerce_text (cell : string) :
  if bool_decide (trim cell = "") || bool_decide (is_Some (strNumericLiteral (trim cell)))
  then coerce (VStr cell) = VNum (StringToNumber cell) ∧ StringToNumber cell ≠ NaN
  else coerce (VStr cell) = VStr cell.
Proof.
  unfold coerce, Number, StringToNumber.
  destruct (trim cell) as [|c t] eqn:Ht; [done|].
  rewrite bool_decide_false by done. cbn [orb].
  destruct (strNumericLiteral (String c t)) as [n|] eqn:Hn.
  - rewrite bool_decide_true by (by eexists). cbn [default].
    pose proof (strNumericLiteral_not_NaN _ _ Hn). by destruct n.
  - rewrite bool_decide_false by (by intros [? ?]). done.
Qed.

(** In a row, a header naming several columns keeps the last of them. *)
Lemma parseRow_lookup (headers : list string) (line : string) (index : nat)
    (header : string) :
  header ≠ "__proto__" →
  headers !! index = Some header →
  (∀ j, index < j → headers !! j ≠ Some header) →
  parseRow headers line !! header = Some (coerce (at_index (split line ",") index)).
Proof.
  unfold parseRow. generalize (split line ",") as values. intros values.
  intros Hproto.
  revert index. induction headers as [|h headers IH] using rev_ind; intros index Hi Hlast.
  { done. }
  rewrite imap_app, foldl_app. cbn [imap foldl].
  rewrite Nat.add_0_r.
  destruct (decide (index = length headers)) as [->|Hne].
  - rewrite lookup_app_r, Nat.sub_diag in Hi by lia. injection Hi as ->.
    by rewrite lookup_setProperty_eq.
  - assert (index < length headers).
    { apply lookup_lt_Some in Hi. rewrite length_app in Hi. cbn in Hi. lia. }
    rewrite lookup_app_l in Hi by done.
    assert (h ≠ header) as Hh.
    { intros ->. apply (Hlast (length headers)); [lia|].
      by rewrite lookup_app_r, Nat.sub_diag by lia. }
    rewrite lookup_setProperty_ne by done.
    apply IH; [done|]. intros j Hj Hlook.
    apply (Hlast j Hj). by apply lookup_app_l_Some.
Qed.

(** C2, as the code has it.  In the row parsed from a data line, the value
    under a header (the last column of that name, the name not being
    [__proto__]) is, for a cell whose trimmed text is not empty, a number
    exactly when that text is a numeric literal in full, and then [Number] of
    the cell, and the text of the cell unchanged otherwise; it is [undefined]
    when the line has no field at that column. *)
Theorem cell_coercion (csvData line header : string) (r index : nat) :
  drop 1 (split (trim csvData) nl) !! r = Some line →
  headersOf csvData !! index = Some header →
  (∀ j, index < j → headersOf csvData !! j ≠ Some header) →
  header ≠ "__proto__" →
  ∃ rows row,
    parseCSV csvData = Returned rows ∧ rows !! r = Some row ∧
    match split line "," !! index with
    | None => row !! header = Some VUndef
    | Some cell =>
        trim cell ≠ "" →
        if bool_decide (is_Some (strNumericLiteral (trim cell)))
        then row !! header = Some (VNum (StringToNumber cell)) ∧ StringToNumber cell ≠ NaN
        else row !! header = Some (VStr cell)
    end.
Proof.
  intros Hline Hheader Hlast Hproto.
  destruct (parseCSV_returns csvData) as (line0 & Hl0 & Hparse).
  unfold headersOf in *. rewrite Hl0 in *. cbn [default] in *.
  eexists _, (parseRow (split line0 ",") line). split; [exact Hparse|].
  split; [by rewrite list_lookup_fmap, Hline|].
  rewrite (parseRow_lookup _ _ _ _ Hproto Hheader Hlast). unfold at_index.
  destruct (split line "," !! index) as [cell|]; [|done]. cbn [from_option].
  intros Hblank. pose proof (coerce_text cell) as Hc.
  rewrite bool_decide_false in Hc by done. cbn [orb] in Hc.
  destruct (bool_decide _); [destruct Hc as [-> ?]|rewrite Hc]; done.
Qed.

End Cells.

Lemma cell_coercion_witness :
  ∃ rows row,
    parseCSV ("ID,Moist,Label" +:+ nl +:+ "A1,3.5,dry") = Returned rows ∧
    rows !! 0%nat = Some row ∧
    match split "A1,3.5,dry" "," !! 1%nat with
    | None => row !! "Moist" = Some VUndef
    | Some cell =>
        trim cell ≠ "" →
        if bool_decide (is_Some (strNumericLiteral (trim cell)))
        then row !! "Moist" = Some (VNum (StringToNumber cell)) ∧ StringToNumber cell ≠ NaN
        else row !! "Moist" = Some (VStr cell)
    end.
Proof.
  apply (cell_coercion ("ID,Moist,Label" +:+ nl +:+ "A1,3.5,dry") "A1,3.5,dry" "Moist" 0 1).
  - reflexivity.
  - reflexivity.
  - intros [|[|[|j]]] Hj; try lia; vm_compute; discriminate.
  - discriminate.
Defined.

(** The claim of C2 fails on an empty cell: in the text with header [a,b]
    and data line [x,] the second cell is the empty string, which is no
    numeric literal, and the parser stores the number 0 for it instead of the
    empty string.  With the data line [x] the second cell is absent, and what
    is stored is [undefined], not a string. *)
Lemma cell_coercion_counterexample :
  parseCSV ("a,b" +:+ nl +:+ "x,")
    = Returned [<["b" := VNum (Finite 0)]> (<["a" := VStr "x"]> ∅)] ∧
  split "x," "," !! 1%nat = Some "" ∧
  strNumericLiteral (trim "") = None ∧
  parseCSV ("a,b" +:+ nl +:+ "x")
    = Returned [<["b" := VUndef]> (<["a" := VStr "x"]> ∅)].
Proof. repeat split; by_computation. Qed.

(** A column named [__proto__] leaves nothing in the row, and a column whose
    name comes again later is overwritten by the later one. *)
Example parseCSV_lost_columns :
  parseCSV ("__proto__,a" +:+ nl +:+ "5,x") = Returned [<["a" := VStr "x"]> ∅] ∧
  parseCSV ("a,a" +:+ nl +:+ "x,5") = Returned [<["a" := VNum (Finite 5)]> ∅].
Proof. split; by_computation. Qed.

(** ** The metrics extractor: MSE from RMSE *)

Section MseFromRmse.

Lemma setProperty_proto_None {V} (key : string) (v : V) (obj : gmap string V) :
  obj !! "__proto__" = None → setProperty key v obj !! "__proto__" = None.
Proof.
  intros Hnone. unfold setProperty. case_bool_decide as Hk; [done|].
  by rewrite lookup_insert_ne.
Qed.

Lemma processBlock_mseFromRmse (metrics : ModelMetrics) (block : string) :
  mseFromRmse metrics → mseFromRmse (processBlock metrics block).
Proof.
  intros [Hproto Hinv]. unfold processBlock.
  destruct (targetMatch block) as [line|]; [|by split].
  set (target := trim line).
  set (rmse := match rmseMatch block with
               | Some m => setProperty target (parseFloat m) (rmseScores metrics)
               | None => rmseScores metrics
               end).
  assert (rmse !! "__proto__" = None) as Hproto'.
  { subst rmse. destruct (rmseMatch block); [by apply setProperty_proto_None|done]. }
  assert (∀ t, t ≠ target → rmse !! t = rmseScores metrics !! t) as Hother.
  { intros t Ht. subst rmse. destruct (rmseMatch block); [|done].
    by rewrite lookup_setProperty_ne. }
  split; [exact Hproto'|]. cbn [rmseScores mseScores].
  intros t x Hx Htruthy.
  destruct (decide (t = target)) as [->|Hne].
  - assert (target ≠ "__proto__") as Hk by (intros Heq; rewrite Heq in Hx; congruence).
    rewrite Hx, Htruthy. by apply lookup_setProperty_eq.
  - rewrite (Hother t Hne) in Hx. specialize (Hinv t x Hx Htruthy).
    destruct (rmse !! target) as [y|].
    + destruct (truthy (VNum y)); [|done]. by rewrite lookup_setProperty_ne.
    + case_bool_decide; [|done]. by rewrite lookup_setProperty_ne.
Qed.

(** Whenever the extractor returns, a target whose stored RMSE is truthy
    (neither 0 nor NaN) has the square of that RMSE as its MSE. *)
Lemma extractModelMetrics_mseFromRmse (output : string) (metrics : ModelMetrics) :
  extractModelMetrics output = Returned metrics → mseFromRmse metrics.
Proof.
  unfold extractModelMetrics.
  assert (mseFromRmse (foldl processBlock emptyMetrics (summaryBlocks output))) as Hfold.
  { generalize (summaryBlocks output) as blocks. intros blocks.
    induction blocks as [|b blocks IH] using rev_ind; [by split|].
    rewrite foldl_app. by apply processBlock_mseFromRmse. }
  revert Hfold.
  generalize (foldl processBlock emptyMetrics (summaryBlocks output)) as metrics0.
  induction (featureSelectionMatches output) as [|m matches IH]; intros metrics0 Hinv.
  { by intros [= <-]. }
  cbn [foldOutcome]. unfold processFeatureMatch at 1.
  destruct (placeholderFeatures (parseInt m.1)) as [names|e]; [|done].
  cbn [obind]. apply IH. exact Hinv.
Qed.

End MseFromRmse.

(** ** The metrics extractor on a zero RMSE *)

(** C3 at its failing input.  The summary block of [Ph] reports [RMSE: 0.000]:
    the pattern matches, [rmseScores] receives 0 for [Ph], and [mseScores] has
    no entry for [Ph], because the guard of the MSE assignment tests the
    stored value for truthiness. *)
Theorem zero_rmse_has_no_mse :
  ∃ metrics, extractModelMetrics zeroRmseLog = Returned metrics ∧
    rmseMatch (default "" (summaryBlocks zeroRmseLog !! 0%nat)) = Some "0.000" ∧
    rmseScores metrics !! "Ph" = Some (Finite 0) ∧
    mseScores metrics !! "Ph" = None.
Proof. eexists. split; [reflexivity|]. repeat split; vm_compute; reflexivity. Qed.

(** ** The simulated analysis *)

Section SimulatedAnalysis.

(** The values [Math.random()] returns, in the order of the calls. *)
Context (draws : nat → Q).

Lemma bind_run {A B} (m : Rand A) (k : A → Rand B) (i : nat) :
  bind m k draws i = k (m draws i).1 draws (m draws i).2.
Proof. unfold bind. by destruct (m draws i). Qed.

Lemma mapRand_length {A B} (f : nat → A → Rand B) (l : list A) (index i : nat) :
  length (mapRand f index l draws i).1 = length l.
Proof.
  revert index i. induction l as [|x l IH]; intros index i; [done|].
  cbn [mapRand]. rewrite !bind_run. cbn. by rewrite IH.
Qed.

(** Each element of the result is the callback at that element and index,
    run from some count of earlier draws. *)
Lemma mapRand_lookup {A B} (f : nat → A → Rand B) (l : list A) (index i k : nat) (x : A) :
  l !! k = Some x →
  ∃ j, (mapRand f index l draws i).1 !! k = Some (f (index + k)%nat x draws j).1.
Proof.
  revert index i k. induction l as [|x0 l IH]; intros index i k Hk; [done|].
  cbn [mapRand]. rewrite !bind_run. cbn [ret fst].
  destruct k as [|k].
  - injection Hk as <-. exists i. cbn. by rewrite Nat.add_0_r.
  - cbn in Hk. destruct (IH (S index) (f index x0 draws i).2 k Hk) as [j0 Hj0].
    exists j0. cbn.
    by replace (index + S k)%nat with (S (index + k)) by lia.
Qed.

(** The row a prediction is made from and the moisture level found for it. *)
Context (row : gmap string value) (moistureLevel : value).

Lemma synthesize_target (param : string) (i : nat) :
  param ∈ targetParams → is_Some (synthesize param moistureLevel draws i).1.
Proof. unfold targetParams. intros Hin. elem_cases Hin; by eexists. Qed.

(** One step of the loop over the target parameters sets that parameter and
    nothing else. *)
Lemma fillParam_insert (prediction : gmap string value) (param : string) (i : nat) :
  param ∈ targetParams →
  ∃ v, (fillParam row moistureLevel prediction param draws i).1 = <[param := v]> prediction ∧
       targetFilled row param (Some v).
Proof.
  intros Hin. unfold fillParam, targetFilled.
  destruct (get row param) as [|s|n] eqn:Hget; [|by eexists..].
  rewrite bind_run.
  pose proof (synthesize_target param i Hin) as [q Hq].
  rewrite Hq. cbn. eauto.
Qed.

Lemma foldRand_fillParam (params : list string) :
  NoDup params →
  (∀ p, p ∈ params → p ∈ targetParams) →
  ∀ (prediction : gmap string value) (i : nat) (param : string),
    (param ∈ params →
       targetFilled row param
         ((foldRand (fillParam row moistureLevel) prediction params draws i).1 !! param)) ∧
    (param ∉ params →
       (foldRand (fillParam row moistureLevel) prediction params draws i).1 !! param
         = prediction !! param).
Proof.
  induction 1 as [|p params Hp Hnd IH]; intros Hsub prediction i param.
  { split; [by intros ?%elem_of_nil | done]. }
  cbn [foldRand]. rewrite !bind_run.
  destruct (fillParam_insert prediction p i) as (v & Hv & Hfilled).
  { apply Hsub. left. }
  rewrite Hv. set (j := (fillParam row moistureLevel prediction p draws i).2).
  assert (∀ q, q ∈ params → q ∈ targetParams) as Hsub' by (intros q Hq; apply Hsub; by right).
  destruct (IH Hsub' (<[p := v]> prediction) j param) as [IHin IHout].
  split.
  - intros [->|Hin]%elem_of_cons.
    + rewrite (proj2 (IH Hsub' (<[p := v]> prediction) j p) Hp).
      by rewrite lookup_insert_eq.
    + by apply IHin.
  - intros Hout. apply not_elem_of_cons in Hout as [Hne Hout].
    rewrite (IHout Hout). by rewrite lookup_insert_ne.
Qed.

End SimulatedAnalysis.

Section Predictions.

Lemma targetParams_NoDup : NoDup targetParams.
Proof. unfold targetParams. apply NoDup_ListNoDup. repeat constructor; cbn; intuition discriminate. Qed.

(** C7.  [simulateModelAnalysis] produces one prediction per input row, and
    each prediction has an entry under every one of the six target
    parameters: the value of the row when the row has one (other than
    [undefined]), a generated finite number otherwise. *)
Theorem predictions_carry_targets (data : list (gmap string value)) (draws : nat → Q)
    (i k : nat) (row prediction : gmap string value) (param : string) :
  data !! k = Some row →
  (simulateModelAnalysis data draws i).1 !! k = Some prediction →
  param ∈ targetParams →
  length (simulateModelAnalysis data draws i).1 = length data ∧
  is_Some (prediction !! param) ∧
  prediction !! param ≠ Some VUndef ∧
  targetFilled row param (prediction !! param).
Proof.
  intros Hrow Hpred Hparam. unfold simulateModelAnalysis in *. rewrite bind_run in *.
  set (soilIds := (mapRand (λ _ row0, soilIdOf row0) 0 data draws i).1) in *.
  set (j := (mapRand (λ _ row0, soilIdOf row0) 0 data draws i).2) in *.
  split; [apply mapRand_length|].
  destruct (mapRand_lookup draws (predictionOf soilIds) data 0 j k row Hrow) as [j0 Hj0].
  rewrite Hj0 in Hpred. injection Hpred as <-. cbn [Nat.add].
  unfold predictionOf. cbv zeta.
  match goal with
  | |- context [foldRand (fillParam row ?ml) ?p targetParams draws j0] =>
      pose proof (proj1 (foldRand_fillParam draws row ml targetParams targetParams_NoDup
                           (λ _ H, H) p j0 param) Hparam) as Hfilled
  end.
  split_and!; [| |exact Hfilled]; unfold targetFilled in Hfilled;
    destruct (get row param) eqn:Hget.
  - destruct Hfilled as [q ->]. by eexists.
  - by eexists.
  - by eexists.
  - destruct Hfilled as [q ->]. done.
  - by rewrite Hfilled.
  - by rewrite Hfilled.
Qed.

End Predictions.

Lemma predictions_carry_targets_witness :
  length (simulateModelAnalysis sampleRows (λ _, 0.5%Q) 0).1 = length sampleRows ∧
  is_Some (default ∅ ((simulateModelAnalysis sampleRows (λ _, 0.5%Q) 0).1 !! 0%nat) !! "Moist") ∧
  default ∅ ((simulateModelAnalysis sampleRows (λ _, 0.5%Q) 0).1 !! 0%nat) !! "Moist"
    ≠ Some VUndef ∧
  targetFilled (<["Ph" := VNum (Finite 6.1)]> (<["Soil_ID" := VStr "S1_25ml"]> ∅)) "Moist"
    (default ∅ ((simulateModelAnalysis sampleRows (λ _, 0.5%Q) 0).1 !! 0%nat) !! "Moist").
Proof.
  apply (predictions_carry_targets sampleRows (λ _, 0.5%Q) 0 0).
  - reflexivity.
  - reflexivity.
  - right. left.
Defined.

(** ** The metrics extractor: which keys the mappings receive *)

Section MetricKeys.

Lemma search_absent {A} (pat : string) (g : string → option A) (s : string) :
  includes s pat = false → search (λ t, stripPrefix pat t ≫= g) s = None.
Proof.
  assert (∀ t, startsWith t pat = false → stripPrefix pat t ≫= g = None) as Hf.
  { intros t Ht. unfold startsWith in Ht. apply bool_decide_eq_false in Ht.
    destruct (stripPrefix pat t); [|done]. destruct Ht. by eexists. }
  induction s as [|c s IH]; cbn [includes search]; intros Hinc.
  - by apply Hf.
  - apply orb_false_iff in Hinc as [H1 H2]. rewrite (Hf _ H1). by apply IH.
Qed.

Lemma processBlock_r2 (metrics : ModelMetrics) (block target : string) :
  is_Some (r2Scores (processBlock metrics block) !! target) ↔
  is_Some (r2Scores metrics !! target) ∨
  (blockTarget block = Some target ∧ is_Some (r2Match block) ∧ target ≠ "__proto__").
Proof.
  unfold processBlock, blockTarget.
  destruct (targetMatch block) as [line|]; cbn.
  2: { split; [auto|]. by intros [?|[[=] _]]. }
  destruct (r2Match block) as [m|]; cbn.
  - rewrite is_Some_setProperty. split.
    + intros [?|[Ht ?]]; [by left|]. right. rewrite Ht. split_and!; [done|by eexists|done].
    + intros [?|([= Ht] & _ & ?)]; [by left|by right].
  - split; [auto|]. intros [?|(_ & [? [=]] & _)]. done.
Qed.

Lemma processBlock_rmse (metrics : ModelMetrics) (block target : string) :
  is_Some (rmseScores (processBlock metrics block) !! target) ↔
  is_Some (rmseScores metrics !! target) ∨
  (blockTarget block = Some target ∧ is_Some (rmseMatch block) ∧ target ≠ "__proto__").
Proof.
  unfold processBlock, blockTarget.
  destruct (targetMatch block) as [line|]; cbn.
  2: { split; [auto|]. by intros [?|[[=] _]]. }
  destruct (rmseMatch block) as [m|]; cbn.
  - rewrite is_Some_setProperty. split.
    + intros [?|[Ht ?]]; [by left|]. right. rewrite Ht. split_and!; [done|by eexists|done].
    + intros [?|([= Ht] & _ & ?)]; [by left|by right].
  - split; [auto|]. intros [?|(_ & [? [=]] & _)]. done.
Qed.

Lemma processBlock_model (metrics : ModelMetrics) (block target : string) :
  is_Some (bestModels (processBlock metrics block) !! target) ↔
  is_Some (bestModels metrics !! target) ∨
  (blockTarget block = Some target ∧ is_Some (modelMatch block) ∧ target ≠ "__proto__").
Proof.
  unfold processBlock, blockTarget.
  destruct (targetMatch block) as [line|]; cbn.
  2: { split; [auto|]. by intros [?|[[=] _]]. }
  destruct (modelMatch block) as [m|]; cbn.
  - rewrite is_Some_setProperty. split.
    + intros [?|[Ht ?]]; [by left|]. right. rewrite Ht. split_and!; [done|by eexists|done].
    + intros [?|([= Ht] & _ & ?)]; [by left|by right].
  - split; [auto|]. intros [?|(_ & [? [=]] & _)]. done.
Qed.

(** After the loop over the blocks, a mapping has a key, other than
    [__proto__], exactly when it had it before or some block about that
    target matched the field's pattern. *)
Lemma foldl_processBlock_keys {A B} (proj : ModelMetrics → gmap string A)
    (field : string → option B) :
  (∀ metrics block target,
     is_Some (proj (processBlock metrics block) !! target) ↔
     is_Some (proj metrics !! target) ∨
     (blockTarget block = Some target ∧ is_Some (field block) ∧ target ≠ "__proto__")) →
  ∀ (blocks : list string) (metrics : ModelMetrics) (target : string),
    target ≠ "__proto__" →
    (is_Some (proj (foldl processBlock metrics blocks) !! target) ↔
     is_Some (proj metrics !! target) ∨ someBlockHas field blocks target).
Proof.
  intros Hstep blocks metrics target Hproto. unfold someBlockHas.
  induction blocks as [|b blocks IH] using rev_ind.
  - cbn. split; [auto|]. intros [?|(? & ?%elem_of_nil & _)]; done.
  - rewrite foldl_app. cbn [foldl]. rewrite Hstep, IH. split.
    + intros [[?|(b' & Hin & ?)]|(? & ? & _)]; [by left| |].
      * right. exists b'. split; [|done]. apply elem_of_app. by left.
      * right. exists b. split; [|done]. apply elem_of_app. right. by left.
    + intros [?|(b' & [Hin|Hin%list_elem_of_singleton]%elem_of_app & ? & ?)].
      * by left; left.
      * left. right. by exists b'.
      * subst b'. by right.
Qed.

(** The loop over the feature matches runs to its end when the array of
    placeholders can be built for every count, and leaves the four score
    mappings as they are. *)
Lemma foldOutcome_features (matches : list (string * string)) (metrics : ModelMetrics) :
  (∀ m, m ∈ matches → ∃ names, placeholderFeatures (parseInt m.1) = Returned names) →
  ∃ metrics', foldOutcome processFeatureMatch metrics matches = Returned metrics' ∧
    r2Scores metrics' = r2Scores metrics ∧ rmseScores metrics' = rmseScores metrics ∧
    mseScores metrics' = mseScores metrics ∧ bestModels metrics' = bestModels metrics.
Proof.
  revert metrics. induction matches as [|m matches IH]; intros metrics Hok.
  { by exists metrics. }
  cbn [foldOutcome]. unfold processFeatureMatch at 1.
  destruct (Hok m) as [names ->]; [by left|]. cbn [obind].
  match goal with
  | |- ∃ _, foldOutcome _ ?metrics1 _ = _ ∧ _ =>
      destruct (IH metrics1) as (metrics' & Hrun & ? & ? & ? & ?)
  end.
  { intros m' Hin. apply Hok. by right. }
  exists metrics'. by rewrite Hrun.
Qed.

(** C4, as the code has it.  When the array of placeholders can be built for
    every feature count in the text ([Array(n).fill(0).map(...)] does not
    throw), [extractModelMetrics] returns a metrics record, in which a target
    (a name other than [__proto__]) is a key of [r2Scores], of [rmseScores]
    and of [bestModels] exactly when some summary block about that target
    matches the corresponding pattern.  So a target whose blocks contain no
    [R2: ] is not a key of [r2Scores], and is a key of [bestModels] whenever
    a block about it has a match for [Best model: ].  The patterns are
    searched anywhere in the block, not line by line. *)
Theorem missing_fields_are_omitted (output : string) :
  (∀ m, m ∈ featureSelectionMatches output →
     ∃ names, placeholderFeatures (parseInt m.1) = Returned names) →
  ∃ metrics, extractModelMetrics output = Returned metrics ∧
    ∀ target : string,
      target ≠ "__proto__" →
      (is_Some (r2Scores metrics !! target) ↔
         someBlockHas r2Match (summaryBlocks output) target) ∧
      (is_Some (rmseScores metrics !! target) ↔
         someBlockHas rmseMatch (summaryBlocks output) target) ∧
      (is_Some (bestModels metrics !! target) ↔
         someBlockHas modelMatch (summaryBlocks output) target) ∧
      ((∀ block, block ∈ summaryBlocks output → blockTarget block = Some target →
          includes block "R2: " = false) →
       r2Scores metrics !! target = None).
Proof.
  intros Hok. unfold extractModelMetrics.
  destruct (foldOutcome_features _ (foldl processBlock emptyMetrics (summaryBlocks output)) Hok)
    as (metrics & Hrun & Hr2 & Hrmse & _ & Hbm).
  exists metrics. split; [exact Hrun|]. intros target Hproto.
  rewrite Hr2, Hrmse, Hbm.
  pose proof (foldl_processBlock_keys r2Scores r2Match processBlock_r2
                (summaryBlocks output) emptyMetrics target Hproto) as K1.
  pose proof (foldl_processBlock_keys rmseScores rmseMatch processBlock_rmse
                (summaryBlocks output) emptyMetrics target Hproto) as K2.
  pose proof (foldl_processBlock_keys bestModels modelMatch processBlock_model
                (summaryBlocks output) emptyMetrics target Hproto) as K3.
  cbn [emptyMetrics r2Scores rmseScores bestModels] in K1, K2, K3.
  rewrite lookup_empty in K1. rewrite lookup_empty in K2. rewrite lookup_empty in K3.
  assert (∀ P : Prop, is_Some (@None number) ∨ P ↔ P) as Hn1
    by (intros P; split; [intros [[? [=]]|?]; done | auto]).
  assert (∀ P : Prop, is_Some (@None string) ∨ P ↔ P) as Hn2
    by (intros P; split; [intros [[? [=]]|?]; done | auto]).
  rewrite Hn1 in K1, K2. rewrite Hn2 in K3.
  split_and!; [done..|].
  intros Hno. apply eq_None_not_Some. rewrite K1.
  intros (block & Hin & Htarget & Hmatch).
  unfold r2Match in Hmatch. rewrite (search_absent _ _ _ (Hno block Hin Htarget)) in Hmatch.
  by destruct Hmatch.
Qed.

End MetricKeys.

Lemma missing_fields_are_omitted_witness :
  ∃ metrics, extractModelMetrics missingR2Log = Returned metrics ∧
    ∀ target : string,
      target ≠ "__proto__" →
      (is_Some (r2Scores metrics !! target) ↔
         someBlockHas r2Match (summaryBlocks missingR2Log) target) ∧
      (is_Some (rmseScores metrics !! target) ↔
         someBlockHas rmseMatch (summaryBlocks missingR2Log) target) ∧
      (is_Some (bestModels metrics !! target) ↔
         someBlockHas modelMatch (summaryBlocks missingR2Log) target) ∧
      ((∀ block, block ∈ summaryBlocks missingR2Log → blockTarget block = Some target →
          includes block "R2: " = false) →
       r2Scores metrics !! target = None).
Proof.
  apply (missing_fields_are_omitted missingR2Log).
  intros m Hm. vm_compute in Hm.
  apply list_elem_of_singleton in Hm. rewrite Hm. eexists. vm_compute. reflexivity.
Defined.

(** The claim of C4 fails on a text that announces 4294967296 features:
    [Array(4294967296)] throws a RangeError, and [extractModelMetrics] with
    it.  It also fails on a text whose block for [Ph] has no line that
    begins with [R2:]: the pattern finds [R2: 1] inside the line of the
    model, and [Ph] is a key of [r2Scores]. *)
Lemma missing_fields_are_omitted_counterexample :
  featureSelectionMatches hugeFeatureCountLog = [("4294967296", "Ph")] ∧
  extractModelMetrics hugeFeatureCountLog = Thrown RangeError ∧
  forallb (λ line, negb (startsWith line "R2:")) (split midLineR2Log nl) = true ∧
  match extractModelMetrics midLineR2Log with
  | Returned metrics =>
      r2Scores metrics !! "Ph" = Some (Finite 1) ∧
      bestModels metrics !! "Ph" = Some "SVR2: 1"
  | Thrown _ => False
  end.
Proof. repeat split; by_computation. Qed.

(** ** Parsing a CSV text and writing it back *)

Section RoundTrip.

Lemma join_cons_lookup (sep : string) (lines : list string) (line0 : string) :
  lines !! 0%nat = Some line0 → join sep (line0 :: drop 1 lines) = join sep lines.
Proof. destruct lines as [|l lines]; [done|]. cbn. by intros [= ->]. Qed.

(** A data line with as many fields as there are headers, all stable, is
    written back as it was read. *)
Lemma row_roundtrip (headers : list string) (line : string) :
  NoDup headers →
  "__proto__" ∉ headers →
  length (split line ",") = length headers →
  (∀ cell, cell ∈ split line "," → stableCell cell) →
  join "," ((λ h, cellText (get (parseRow headers line) h)) <$> headers) = line.
Proof.
  intros Hnd Hproto Hlen Hstable.
  transitivity (join "," (split line ",")); [|apply (join_split_char ","%char)].
  f_equal. apply list_eq. intros i. rewrite list_lookup_fmap.
  destruct (headers !! i) as [h|] eqn:Hh; cbn.
  - assert (i < length (split line ","))%nat as Hi
      by (rewrite Hlen; by eapply lookup_lt_Some).
    apply lookup_lt_is_Some in Hi as [cell Hcell].
    change (split line (String ","%char "")) with (split line ",").
    rewrite Hcell. f_equal. unfold get.
    rewrite (parseRow_lookup headers line i h); [|
      by intros ->; apply Hproto; eapply list_elem_of_lookup_2 | done |].
    + unfold at_index. rewrite Hcell. cbn. apply Hstable.
      by eapply list_elem_of_lookup_2.
    + intros j Hj Hlook. pose proof (NoDup_lookup _ _ _ _ Hnd Hh Hlook). lia.
  - symmetry. apply lookup_ge_None. change (String ","%char "") with ",".
    rewrite Hlen. by apply lookup_ge_None.
Qed.

(** Text that is not numeric is stable; a numeral is stable in the form
    [String] gives it, and the empty cell, read as 0, is not. *)
Lemma stableCell_text (cell : string) : StringToNumber cell = NaN → stableCell cell.
Proof. intros Hnan. unfold stableCell, coerce, Number. by rewrite Hnan. Qed.

Example stableCell_examples :
  stableCell "dry" ∧ stableCell "3.5" ∧ stableCell "-12" ∧
  ¬ stableCell "1.0" ∧ ¬ stableCell "007" ∧ ¬ stableCell "".
Proof. unfold stableCell. split_and!; try by_computation; vm_compute; discriminate. Qed.

(** C9, as the code has it.  A CSV text is reproduced by parsing it and
    writing the rows back under its header names when it has no white space at
    either end, its header names are pairwise distinct and none is
    [__proto__], every data line has as many fields as the header line, and
    every cell is stable (its text is not numeric, or is the text [String]
    gives for its number). *)
Theorem csv_roundtrip (csvData : string) :
  trim csvData = csvData →
  NoDup (headersOf csvData) →
  "__proto__" ∉ headersOf csvData →
  (∀ line, line ∈ drop 1 (split csvData nl) →
     length (split line ",") = length (headersOf csvData) ∧
     ∀ cell, cell ∈ split line "," → stableCell cell) →
  reserialize csvData = Returned csvData.
Proof.
  intros Htrim Hnd Hproto Hlines. unfold reserialize.
  destruct (parseCSV_returns csvData) as (line0 & Hl0 & ->). cbn [obind].
  unfold headersOf in *. rewrite Htrim in *. rewrite Hl0 in *. cbn [default] in *.
  f_equal. unfold spec_serializeCSV.
  change (join "," (split line0 ",")) with (join (String ","%char "") (split line0 (String ","%char ""))).
  rewrite join_split_char.
  rewrite <- list_fmap_compose.
  rewrite (list_fmap_ext _ id (drop 1 (split csvData nl))).
  - rewrite list_fmap_id, (join_cons_lookup _ _ _ Hl0). apply join_split_char.
  - intros i line Hline%list_elem_of_lookup_2. cbn.
    destruct (Hlines line Hline) as [Hlen Hstable]. by apply row_roundtrip.
Qed.

End RoundTrip.

Lemma csv_roundtrip_witness :
  reserialize ("ID,Moist,Label" +:+ nl +:+ "A1,3.5,dry" +:+ nl +:+ "B 2,n/a,wet soil")
    = Returned ("ID,Moist,Label" +:+ nl +:+ "A1,3.5,dry" +:+ nl +:+ "B 2,n/a,wet soil").
Proof.
  apply (csv_roundtrip ("ID,Moist,Label" +:+ nl +:+ "A1,3.5,dry" +:+ nl +:+ "B 2,n/a,wet soil")).
  - reflexivity.
  - vm_compute. apply NoDup_ListNoDup. repeat constructor; cbn; intuition discriminate.
  - vm_compute. intros Hin.
    repeat (apply elem_of_cons in Hin as [Hin|Hin]; [discriminate|]).
    by apply elem_of_nil in Hin.
  - intros line Hline. vm_compute in Hline.
    elem_cases Hline; (split; [reflexivity|]); intros cell Hcell; vm_compute in Hcell;
      elem_cases Hcell; reflexivity.
Defined.

(** The claim of C9 fails on comma-safe texts in four ways: a numeric cell
    comes back in the form [String] gives its number ([1.0] as [1]); white
    space at the ends of the text, such as a final line feed, is lost; of two
    columns with one name the first takes the values of the last; the fields
    of a data line beyond the header are dropped. *)
Lemma csv_roundtrip_counterexample :
  reserialize ("a" +:+ nl +:+ "1.0") = Returned ("a" +:+ nl +:+ "1") ∧
  reserialize ("a" +:+ nl +:+ "1.0") ≠ Returned ("a" +:+ nl +:+ "1.0") ∧
  reserialize ("a" +:+ nl +:+ "x" +:+ nl) = Returned ("a" +:+ nl +:+ "x") ∧
  reserialize ("a,a" +:+ nl +:+ "x,y") = Returned ("a,a" +:+ nl +:+ "y,y") ∧
  reserialize ("a" +:+ nl +:+ "x,y") = Returned ("a" +:+ nl +:+ "x").
Proof. repeat split; try (vm_compute; reflexivity). vm_compute. discriminate. Qed.

(** ** Occurrences of a pattern in a concatenation *)

Section Occurrences.

Lemma startsWith_nil (s : string) : startsWith s "" = true.
Proof. done. Qed.

Lemma startsWith_cons (c a : ascii) (s p : string) :
  startsWith (String c s) (String a p) = Ascii.eqb a c && startsWith s p.
Proof.
  unfold startsWith. cbn [stripPrefix]. by destruct (Ascii.eqb a c).
Qed.

Lemma startsWith_empty_cons (a : ascii) (p : string) : startsWith "" (String a p) = false.
Proof. done. Qed.

Lemma stripPrefix_app (p s : string) : stripPrefix p (p +:+ s) = Some s.
Proof.
  induction p as [|a p IH]; [done|].
  rewrite append_cons. cbn [stripPrefix]. by rewrite Ascii.eqb_refl.
Qed.

Lemma startsWith_app_r (s z p : string) :
  startsWith s p = true → startsWith (s +:+ z) p = true.
Proof.
  revert s. induction p as [|a p IH]; intros s; [by rewrite !startsWith_nil|].
  destruct s as [|c s]; [by rewrite startsWith_empty_cons|].
  rewrite append_cons, !startsWith_cons.
  intros [-> Hs]%andb_true_iff. by rewrite (IH _ Hs).
Qed.

Lemma startsWith_take (p s : string) (n : nat) :
  startsWith s p = true → String.length p ≤ n → startsWith (takeStr n s) p = true.
Proof.
  revert s n. induction p as [|a p IH]; intros s n; [by rewrite !startsWith_nil|].
  destruct s as [|c s]; [by rewrite startsWith_empty_cons|].
  rewrite startsWith_cons. intros [Ha Hs]%andb_true_iff Hn.
  destruct n as [|n]; [cbn in Hn; lia|].
  cbn [takeStr]. rewrite startsWith_cons, Ha. cbn in Hn. apply IH; [done|lia].
Qed.

Lemma takeStr_app (t b : string) (k : nat) :
  takeStr (String.length t + k) (t +:+ b) = t +:+ takeStr k b.
Proof.
  induction t as [|c t IH]; [done|].
  rewrite !append_cons. cbn [String.length Nat.add takeStr]. by rewrite IH.
Qed.

Lemma takeStr_app_le (p rest : string) (k : nat) :
  k ≤ String.length p → takeStr k (p +:+ rest) = takeStr k p.
Proof.
  revert k. induction p as [|a p IH]; intros k Hk.
  - cbn in Hk. by replace k with 0 by lia.
  - rewrite append_cons. destruct k as [|k]; [done|].
    cbn [takeStr]. rewrite IH; [done|]. cbn in Hk. lia.
Qed.

(** An occurrence at the start of [t +:+ u] lies within [t], or [t] is
    shorter than the pattern and the rest of the pattern starts [u]. *)
Lemma startsWith_overlap (t u p : string) :
  startsWith (t +:+ u) p = true →
  startsWith t p = true ∨
  (String.length t < String.length p ∧ startsWith u (dropStr (String.length t) p) = true).
Proof.
  revert p. induction t as [|c t IH]; intros p Hp.
  - destruct p as [|a p]; [left; apply startsWith_nil|].
    right. split; [cbn; lia | exact Hp].
  - destruct p as [|a p]; [left; apply startsWith_nil|].
    rewrite append_cons, startsWith_cons in Hp. apply andb_true_iff in Hp as [Ha Hp].
    rewrite startsWith_cons, Ha. cbn [andb String.length dropStr].
    destruct (IH p Hp) as [?|[? ?]]; [by left|].
    right. split; [lia|done].
Qed.

Lemma search_app_free {A} (f : string → option A) (pat x y : string) :
  (∀ t, startsWith t pat = false → f t = None) →
  noneStarts pat x y = true →
  search f (x +:+ y) = search f y.
Proof.
  intros Hf. induction x as [|c x IH]; [done|].
  cbn [noneStarts]. intros [Hc Hx]%andb_true_iff. apply negb_true_iff in Hc.
  rewrite append_cons in *. cbn [search]. rewrite (Hf _ Hc). by apply IH.
Qed.

Lemma before_app_free (pat x y : string) :
  noneStarts pat x y = true → before pat (x +:+ y) = x +:+ before pat y.
Proof.
  induction x as [|c x IH]; [done|].
  cbn [noneStarts]. intros [Hc Hx]%andb_true_iff. apply negb_true_iff in Hc.
  rewrite append_cons in *. cbn [before]. rewrite Hc, append_cons. by rewrite IH.
Qed.

Lemma split_go_app_free (sep x y : string) :
  noneStarts sep x y = true →
  split_go sep 0 (x +:+ y) =
    match split_go sep 0 y with
    | piece :: pieces => (x +:+ piece) :: pieces
    | [] => []
    end.
Proof.
  pose proof (split_go_nonempty sep 0 y) as Hne.
  induction x as [|c x IH].
  - intros _. rewrite append_empty_l. by destruct (split_go sep 0 y).
  - cbn [noneStarts]. intros [Hc Hx]%andb_true_iff. apply negb_true_iff in Hc.
    rewrite append_cons in *. cbn [split_go]. rewrite Hc, (IH Hx).
    by destruct (split_go sep 0 y).
Qed.

Lemma noneStarts_app (pat a b y : string) :
  noneStarts pat a (b +:+ y) = true → noneStarts pat b y = true →
  noneStarts pat (a +:+ b) y = true.
Proof.
  intros Ha Hb. induction a as [|c a IH]; [done|].
  cbn [noneStarts] in Ha. apply andb_true_iff in Ha as [Hc Ha].
  rewrite append_cons. cbn [noneStarts].
  rewrite append_cons in *. rewrite append_assoc, Hc. by apply IH.
Qed.

(** When [pat] does not occur in [x] and cannot straddle the start of [u],
    no occurrence in [x +:+ u] starts inside [x]. *)
Lemma noneStarts_of_includes (pat x u : string) :
  includes x pat = false → overlapFree pat u = true → noneStarts pat x u = true.
Proof.
  intros Hinc Hfree. induction x as [|c x IH]; [done|].
  cbn [includes] in Hinc. apply orb_false_iff in Hinc as [Hc Hinc].
  cbn [noneStarts]. rewrite (IH Hinc), andb_true_r. apply negb_true_iff.
  destruct (startsWith (String c x +:+ u) pat) eqn:Hs; [|done].
  apply startsWith_overlap in Hs as [Hs|[Hlen Hs]]; [congruence|].
  unfold overlapFree in Hfree. rewrite forallb_forall in Hfree.
  specialize (Hfree (String.length (String c x))). rewrite Hs in Hfree.
  assert (negb true = true) as Habs; [|done].
  apply Hfree, in_seq. cbn [String.length] in *. lia.
Qed.

(** When [pat] does not occur in [pre] followed by all of [pat] but its last
    character, the occurrence of [pat] after [pre] is the first one. *)
Lemma noneStarts_before_first (pat pre rest : string) :
  includes (pre +:+ takeStr (String.length pat - 1) pat) pat = false →
  noneStarts pat pre (pat +:+ rest) = true.
Proof.
  induction pre as [|c pre IH]; [done|].
  rewrite append_cons. cbn [includes]. intros [Hc Hinc]%orb_false_iff.
  cbn [noneStarts]. rewrite (IH Hinc), andb_true_r. apply negb_true_iff.
  destruct (startsWith (String c pre +:+ pat +:+ rest) pat) eqn:Hs; [|done].
  apply (startsWith_take _ _ (String.length (String c pre) + (String.length pat - 1))) in Hs.
  - rewrite takeStr_app, takeStr_app_le in Hs by lia.
    rewrite append_cons in Hs. congruence.
  - cbn [String.length]. lia.
Qed.

End Occurrences.

(** ** Splitting a summary at a target separator *)

Section SplitAtTarget.

Lemma startsWith_before_LF (p x z : string) :
  noLFPrefix (String.length p) p →
  startsWith (x +:+ String LF z) p = true →
  noLFPrefix (String.length p) x ∧ startsWith x p = true.
Proof.
  revert x. induction p as [|a p IH]; intros x Hp Hs; [done|].
  cbn [String.length noLFPrefix] in Hp. destruct Hp as [Ha Hp].
  destruct x as [|c x].
  - rewrite append_empty_l, startsWith_cons in Hs.
    apply andb_true_iff in Hs as [Heq _]. by apply Ascii.eqb_eq in Heq.
  - rewrite append_cons, startsWith_cons in Hs. apply andb_true_iff in Hs as [Heq Hs].
    destruct (IH x Hp Hs) as [Hx Hsx].
    rewrite startsWith_cons, Heq, Hsx. apply Ascii.eqb_eq in Heq as <-.
    cbn [String.length noLFPrefix]. done.
Qed.

(** A target separator after [x] is recognised as one: the pieces of
    [x +:+ targetSeparator +:+ y] are those of [x] followed by those of [y]. *)
Lemma split_go_app_target (x y : string) (k : nat) :
  noLFPrefix k x →
  split_go targetSeparator k (x +:+ targetSeparator +:+ y)
    = split_go targetSeparator k x ++ split_go targetSeparator 0 y.
Proof.
  change targetSeparator with (String LF "Target:").
  revert k. induction x as [|c x IH]; intros k Hk.
  - destruct k; [reflexivity|done].
  - rewrite append_cons. destruct k as [|k].
    + cbn [split_go].
      rewrite (startsWith_cons c LF x), (startsWith_cons c LF).
      destruct (Ascii.eqb LF c) eqn:Hc; cbn [andb].
      * destruct (startsWith (x +:+ String LF "Target:" +:+ y) "Target:") eqn:Hs.
        -- rewrite append_cons in Hs.
           apply startsWith_before_LF in Hs as [Hx Hsx]; [|by repeat split].
           rewrite Hsx. cbn [String.length Nat.sub] in *.
           by rewrite (IH _ Hx).
        -- destruct (startsWith x "Target:") eqn:Hsx.
           { by rewrite (startsWith_app_r _ _ _ Hsx) in Hs. }
           rewrite (IH 0%nat I).
           pose proof (split_go_nonempty (String LF "Target:") 0 x).
           by destruct (split_go (String LF "Target:") 0 x).
      * rewrite (IH 0%nat I).
        pose proof (split_go_nonempty (String LF "Target:") 0 x).
        by destruct (split_go (String LF "Target:") 0 x).
    + cbn [noLFPrefix] in Hk. destruct Hk as [_ Hk]. cbn [split_go]. by apply IH.
Qed.

(** The first piece of a text that is empty or starts with a line feed is
    empty or starts with a line feed. *)
Lemma split_head_LF (sep s : string) :
  s = "" ∨ (∃ rest, s = String LF rest) →
  ∃ piece pieces, split_go sep 0 s = piece :: pieces ∧
    (piece = "" ∨ ∃ rest, piece = String LF rest).
Proof.
  intros [->|[rest ->]]; [by exists "", []; split; [|left]|].
  cbn [split_go]. destruct (startsWith _ _).
  - eexists _, _. split; [done|by left].
  - pose proof (split_go_nonempty sep 0 rest).
    destruct (split_go sep 0 rest) as [|p ps]; [done|].
    eexists _, _. split; [done|]. right. by eexists.
Qed.

Lemma before_LF (pat s : string) :
  s = "" ∨ (∃ rest, s = String LF rest) →
  before pat s = "" ∨ ∃ rest, before pat s = String LF rest.
Proof.
  intros [->|[rest ->]]; [by left|].
  cbn [before]. destruct (startsWith _ _); [by left|]. right. by eexists.
Qed.

End SplitAtTarget.

(** ** The example block of the metrics extractor *)

Section ExampleBlock.

Lemma search_at_head {A} (f : string → option A) (s : string) (a : A) :
  f s = Some a → search f s = Some a.
Proof. intros Hf. destruct s; cbn [search]; by rewrite Hf. Qed.

(** The summary text of a log around the example lines. *)
Lemma finalSummaryMatch_logAround (pre mid post : string) :
  includes (pre +:+ "=== Final Summary ==") summaryMarker = false →
  includes mid summaryEnd = false →
  finalSummaryMatch (logAround pre mid post)
    = Some (mid +:+ phLines +:+ before summaryEnd post).
Proof.
  intros Hpre Hmid. unfold finalSummaryMatch, logAround.
  rewrite (search_app_free _ summaryMarker).
  - erewrite search_at_head; [reflexivity|].
    rewrite stripPrefix_app. cbn [fmap option_fmap option_map]. f_equal.
    rewrite <- append_assoc, before_app_free, append_assoc; [done|].
    apply noneStarts_app.
    + apply noneStarts_of_includes; [done|]. vm_compute. reflexivity.
    + vm_compute. reflexivity.
  - intros t Ht. unfold startsWith in Ht. apply bool_decide_eq_false in Ht.
    destruct (stripPrefix summaryMarker t); [|done]. destruct Ht. by eexists.
  - by apply noneStarts_before_first.
Qed.

(** The blocks of such a log: those of [mid], the example block up to the
    next separator, the blocks after it. *)
Lemma summaryBlocks_logAround (pre mid post : string) :
  includes (pre +:+ "=== Final Summary ==") summaryMarker = false →
  includes mid summaryEnd = false →
  (post = "" ∨ ∃ rest, post = nl +:+ rest) →
  ∃ tail : string,
    (tail = "" ∨ ∃ rest, tail = String LF rest) ∧
    summaryBlocks (logAround pre mid post)
      = drop 1 (split mid targetSeparator)
        ++ (phBlock +:+ tail) :: drop 1 (split (before summaryEnd post) targetSeparator).
Proof.
  intros Hpre Hmid Hpost. unfold summaryBlocks.
  rewrite (finalSummaryMatch_logAround _ _ _ Hpre Hmid). unfold split.
  change phLines with (targetSeparator +:+ phBlock).
  rewrite (append_assoc targetSeparator), (split_go_app_target mid _ 0 I).
  rewrite split_go_app_free by (vm_compute; reflexivity).
  destruct (split_head_LF targetSeparator (before summaryEnd post))
    as (tail & pieces & Hsplit & Htail).
  { by apply before_LF. }
  rewrite Hsplit. exists tail. split; [done|].
  pose proof (split_go_nonempty targetSeparator 0 mid).
  by destruct (split_go targetSeparator 0 mid).
Qed.

(** What the four patterns capture in the example block. *)
Lemma phBlock_matches (tail : string) :
  tail = "" ∨ (∃ rest, tail = String LF rest) →
  targetMatch (phBlock +:+ tail) = Some " Ph" ∧
  modelMatch (phBlock +:+ tail) = Some "Random Forest Regressor" ∧
  r2Match (phBlock +:+ tail) = Some "0.870" ∧
  rmseMatch (phBlock +:+ tail) = Some "0.420".
Proof. intros [->|[rest ->]]; repeat split; vm_compute; reflexivity. Qed.

(** A block in which the four patterns match, the RMSE being truthy, sets
    the four entries of its target. *)
Lemma processBlock_sets (metrics : ModelMetrics) (block line model r2 rmse : string) :
  targetMatch block = Some line → modelMatch block = Some model →
  r2Match block = Some r2 → rmseMatch block = Some rmse →
  truthy (VNum (parseFloat rmse)) = true →
  trim line ≠ "__proto__" →
  bestModels (processBlock metrics block) !! trim line
    = Some (trim (replace model "Regressor" "")) ∧
  r2Scores (processBlock metrics block) !! trim line = Some (parseFloat r2) ∧
  rmseScores (processBlock metrics block) !! trim line = Some (parseFloat rmse) ∧
  mseScores (processBlock metrics block) !! trim line = Some (Math_pow_2 (parseFloat rmse)).
Proof.
  intros Ht Hm Hr2 Hrmse Htruthy Hproto. unfold processBlock.
  rewrite Ht, Hm, Hr2, Hrmse. cbn [bestModels r2Scores rmseScores mseScores].
  rewrite !lookup_setProperty_eq, Htruthy by done. by rewrite !lookup_setProperty_eq.
Qed.

(** A block about another target leaves the entries of a target alone. *)
Lemma processBlock_other (metrics : ModelMetrics) (block target : string) :
  blockTarget block ≠ Some target →
  bestModels (processBlock metrics block) !! target = bestModels metrics !! target ∧
  r2Scores (processBlock metrics block) !! target = r2Scores metrics !! target ∧
  rmseScores (processBlock metrics block) !! target = rmseScores metrics !! target ∧
  mseScores (processBlock metrics block) !! target = mseScores metrics !! target.
Proof.
  unfold blockTarget, processBlock. destruct (targetMatch block) as [line|]; [|done].
  cbn. intros Hne. assert (trim line ≠ target) as Hne' by congruence.
  destruct (modelMatch block), (r2Match block), (rmseMatch block);
    cbn [bestModels r2Scores rmseScores mseScores];
    repeat (match goal with
            | |- context [match ?x with _ => _ end] => destruct x
            end);
    by rewrite ?lookup_setProperty_ne.
Qed.

Lemma foldl_processBlock_other (blocks : list string) (metrics : ModelMetrics)
    (target : string) :
  (∀ block, block ∈ blocks → blockTarget block ≠ Some target) →
  bestModels (foldl processBlock metrics blocks) !! target = bestModels metrics !! target ∧
  r2Scores (foldl processBlock metrics blocks) !! target = r2Scores metrics !! target ∧
  rmseScores (foldl processBlock metrics blocks) !! target = rmseScores metrics !! target ∧
  mseScores (foldl processBlock metrics blocks) !! target = mseScores metrics !! target.
Proof.
  revert metrics. induction blocks as [|b blocks IH]; intros metrics Hall; [done|].
  cbn [foldl].
  destruct (IH (processBlock metrics b)) as (-> & -> & -> & ->).
  { intros block Hin. apply Hall. by right. }
  apply processBlock_other, Hall. left.
Qed.

(** C6, as the code has it.  Take a text in which the four lines follow a
    [=== Final Summary ===] header that is the first of the text, with no end
    of summary between that header and the lines, the RMSE line ending the
    text or being followed by a line feed.  When no later block of the summary
    is about [Ph] and the array of placeholders can be built for every
    feature count in the text, [extractModelMetrics] returns metrics with
    [bestModels.Ph] "Random Forest", [r2Scores.Ph] 0.87, [rmseScores.Ph] 0.42
    and [mseScores.Ph] within 10^-9 of 0.1764: the square is stated with a
    tolerance, the product of the code being rounded. *)
Theorem example_block_metrics (pre mid post : string) :
  includes (pre +:+ "=== Final Summary ==") summaryMarker = false →
  includes mid summaryEnd = false →
  (post = "" ∨ ∃ rest, post = nl +:+ rest) →
  (∀ block, block ∈ drop 1 (split (before summaryEnd post) targetSeparator) →
     blockTarget block ≠ Some "Ph") →
  (∀ m, m ∈ featureSelectionMatches (logAround pre mid post) →
     ∃ names, placeholderFeatures (parseInt m.1) = Returned names) →
  ∃ (metrics : ModelMetrics) (r2 rmse mse : Q),
    extractModelMetrics (logAround pre mid post) = Returned metrics ∧
    bestModels metrics !! "Ph" = Some "Random Forest" ∧
    r2Scores metrics !! "Ph" = Some (Finite r2) ∧ (r2 == 0.87)%Q ∧
    rmseScores metrics !! "Ph" = Some (Finite rmse) ∧ (rmse == 0.42)%Q ∧
    mseScores metrics !! "Ph" = Some (Finite mse) ∧
    (0.176399999 <= mse <= 0.176400001)%Q.
Proof.
  intros Hpre Hmid Hpost Hlater Hcounts. unfold extractModelMetrics.
  destruct (foldOutcome_features _
              (foldl processBlock emptyMetrics (summaryBlocks (logAround pre mid post)))
              Hcounts) as (metrics & Hrun & Hr2 & Hrmse & Hmse & Hbm).
  destruct (summaryBlocks_logAround pre mid post Hpre Hmid Hpost) as (tail & Htail & Hblocks).
  rewrite Hblocks in Hr2, Hrmse, Hmse, Hbm.
  rewrite foldl_app in Hr2, Hrmse, Hmse, Hbm. cbn [foldl] in Hr2, Hrmse, Hmse, Hbm.
  destruct (phBlock_matches tail Htail) as (Mt & Mm & Mr2 & Mrmse).
  match type of Hr2 with
  | _ = r2Scores (foldl processBlock (processBlock ?m0 ?b) ?later) =>
      destruct (foldl_processBlock_other later (processBlock m0 b) "Ph" Hlater)
        as (Lbm & Lr2 & Lrmse & Lmse);
      destruct (processBlock_sets m0 b _ _ _ _ Mt Mm Mr2 Mrmse eq_refl)
        as (Sbm & Sr2 & Srmse & Smse); [by vm_compute|]
  end.
  change (trim " Ph") with "Ph" in Sbm, Sr2, Srmse, Smse.
  exists metrics, (87 # 100)%Q, (21 # 50)%Q, (441 # 2500)%Q.
  rewrite Hrun, Hbm, Hr2, Hrmse, Hmse, Lbm, Lr2, Lrmse, Lmse, Sbm, Sr2, Srmse, Smse.
  repeat split; by vm_compute.
Qed.

End ExampleBlock.

Lemma example_block_metrics_witness :
  ∃ (metrics : ModelMetrics) (r2 rmse mse : Q),
    extractModelMetrics phExampleLog = Returned metrics ∧
    bestModels metrics !! "Ph" = Some "Random Forest" ∧
    r2Scores metrics !! "Ph" = Some (Finite r2) ∧ (r2 == 0.87)%Q ∧
    rmseScores metrics !! "Ph" = Some (Finite rmse) ∧ (rmse == 0.42)%Q ∧
    mseScores metrics !! "Ph" = Some (Finite mse) ∧
    (0.176399999 <= mse <= 0.176400001)%Q.
Proof.
  unfold phExampleLog. apply example_block_metrics.
  - vm_compute. reflexivity.
  - vm_compute. reflexivity.
  - right. eexists. reflexivity.
  - intros block Hin. vm_compute in Hin.
    apply list_elem_of_singleton in Hin. rewrite Hin. vm_compute. discriminate.
  - intros m Hin. vm_compute in Hin.
    apply list_elem_of_singleton in Hin. rewrite Hin. eexists. vm_compute. reflexivity.
Defined.

(** The claim of C6 fails on texts that contain the four lines in the
    summary: when a later block of the summary is about [Ph] again, its values
    replace those of the lines; when a feature line announces 4294967296
    features, the extractor throws. *)
Lemma example_block_metrics_counterexample :
  includes laterPhBlockLog phLines = true ∧
  match extractModelMetrics laterPhBlockLog with
  | Returned metrics =>
      bestModels metrics !! "Ph" = Some "SVR" ∧
      r2Scores metrics !! "Ph" = Some (Finite (1 # 2)) ∧
      rmseScores metrics !! "Ph" = Some (Finite (3 # 10))
  | Thrown _ => False
  end ∧
  includes phAfterHugeCountLog phLines = true ∧
  extractModelMetrics phAfterHugeCountLog = Thrown RangeError.
Proof. repeat split; by_computation. Qed.

(** ** Rows of the parser *)

Section ParsedRows.

Lemma parseRow_keys (headers : list string) (line header : string) :
  is_Some (parseRow headers line !! header) ↔ header ∈ headers ∧ header ≠ "__proto__".
Proof.
  unfold parseRow. generalize (split line ",") as values. intros values.
  induction headers as [|h headers IH] using rev_ind.
  - cbn. rewrite lookup_empty. split; [by intros [? ?]|].
    intros [H _]. by apply elem_of_nil in H.
  - rewrite imap_app, foldl_app. cbn [imap foldl].
    rewrite is_Some_setProperty, IH, elem_of_app, list_elem_of_singleton.
    split.
    + intros [[? ?]|[-> ?]]; auto.
    + intros [[?| ->] ?]; auto.
Qed.

Lemma parseRow_values (headers : list string) (line header : string) (v : value) :
  parseRow headers line !! header = Some v →
  ∃ index, headers !! index = Some header ∧ v = coerce (at_index (split line ",") index).
Proof.
  unfold parseRow. generalize (split line ",") as values. intros values.
  induction headers as [|h headers IH] using rev_ind.
  { cbn. by rewrite lookup_empty. }
  rewrite imap_app, foldl_app. cbn [imap foldl]. rewrite Nat.add_0_r.
  unfold setProperty at 1. case_bool_decide as Hproto.
  - intros Hv. destruct (IH Hv) as (index & Hi & ->).
    exists index. split; [|done]. by apply lookup_app_l_Some.
  - destruct (decide (h = header)) as [->|Hne].
    + rewrite lookup_insert_eq. intros [= <-]. exists (length headers).
      split; [|done]. by rewrite lookup_app_r, Nat.sub_diag by lia.
    + rewrite lookup_insert_ne by done. intros Hv. destruct (IH Hv) as (index & Hi & ->).
      exists index. split; [|done]. by apply lookup_app_l_Some.
Qed.

(** X1.  The parser returns one row for each line after the first of the trimmed
    text, and all the rows have the same keys: the header names other than
    [__proto__], however many fields their line has. *)
Theorem parseCSV_rows_share_keys (csvData : string) :
  ∃ rows, parseCSV csvData = Returned rows ∧
    length rows = (length (split (trim csvData) nl) - 1)%nat ∧
    ∀ row header, row ∈ rows →
      (is_Some (row !! header) ↔ header ∈ headersOf csvData ∧ header ≠ "__proto__").
Proof.
  destruct (parseCSV_returns csvData) as (line0 & Hl0 & Hparse).
  eexists. split; [exact Hparse|]. split.
  { by rewrite length_fmap, length_drop. }
  intros row header Hin. apply list_elem_of_fmap in Hin as (line & -> & _).
  unfold headersOf. rewrite Hl0. apply parseRow_keys.
Qed.

(** X2.  What a row holds is never the number NaN, and never a text that [Number]
    reads as a number: such a text has been replaced by its number. *)
Theorem parseCSV_stores_no_NaN (csvData : string) (rows : list (gmap string value))
    (row : gmap string value) (header : string) (v : value) :
  parseCSV csvData = Returned rows → row ∈ rows → row !! header = Some v →
  match v with
  | VUndef => True
  | VStr text => StringToNumber text = NaN
  | VNum n => n ≠ NaN
  end.
Proof.
  intros Hparse Hin Hv.
  destruct (parseCSV_returns csvData) as (line0 & _ & Hparse').
  rewrite Hparse' in Hparse. injection Hparse as <-.
  apply list_elem_of_fmap in Hin as (line & -> & _).
  apply parseRow_values in Hv as (index & _ & ->).
  unfold at_index. destruct (split line "," !! index) as [cell|]; [|done].
  cbn [from_option]. unfold coerce. cbn [Number].
  destruct (StringToNumber cell) eqn:Hn; done.
Qed.

End ParsedRows.

Lemma parseCSV_stores_no_NaN_witness :
  match VNum (Finite (7 # 2)) with
  | VUndef => True
  | VStr text => StringToNumber text = NaN
  | VNum n => n ≠ NaN
  end.
Proof.
  apply (parseCSV_stores_no_NaN ("ID,Moist" +:+ nl +:+ "A1,3.5")
           [<["Moist" := VNum (Finite (7 # 2))]> (<["ID" := VStr "A1"]> ∅)]
           (<["Moist" := VNum (Finite (7 # 2))]> (<["ID" := VStr "A1"]> ∅)) "Moist").
  - vm_compute. reflexivity.
  - apply list_elem_of_singleton. reflexivity.
  - vm_compute. reflexivity.
Defined.

(** ** Failure and defaults of the metrics extractor *)

Section ExtractorEdges.

Lemma digitIn_nonneg (radix : Z) (c : ascii) : (0 <= default 0 (digitIn radix c))%Z.
Proof.
  unfold digitIn.
  repeat (match goal with
          | |- context [if ?b then _ else _] => destruct b eqn:?
          end);
    cbn [default from_option]; unfold id;
    rewrite ?andb_true_iff, ?Z.leb_le, ?Z.ltb_lt in *; lia.
Qed.

Lemma digitsValue_nonneg (radix : Z) (ds : string) (acc : Z) :
  (0 <= radix)%Z → (0 <= acc)%Z → (0 <= digitsValue radix acc ds)%Z.
Proof.
  intros Hr. revert acc. induction ds as [|c ds IH]; intros acc Hacc; [done|].
  cbn [digitsValue]. apply IH. pose proof (digitIn_nonneg radix c). nia.
Qed.

(** The placeholders are built below [fillLimit], which is itself an array
    length; from there on the attempt ends in a RangeError. *)
Lemma placeholderFeatures_run (n : Z) :
  placeholderFeatures n =
    if (n <? fillLimit)%Z then Returned (featureNames n) else Thrown RangeError.
Proof.
  unfold placeholderFeatures, featureNames.
  destruct (n <? fillLimit)%Z eqn:Hfill; [|by destruct (n <=? maxArrayLength)%Z].
  apply Z.ltb_lt in Hfill.
  assert ((n <=? maxArrayLength)%Z = true) as ->
    by (apply Z.leb_le; unfold maxArrayLength, fillLimit in *; lia).
  done.
Qed.


Lemma processFeatureMatch_run (metrics : ModelMetrics) (m : string * string) :
  processFeatureMatch metrics m =
    if (parseInt m.1 <? fillLimit)%Z
    then Returned {| r2Scores := r2Scores metrics; rmseScores := rmseScores metrics;
                     mseScores := mseScores metrics; bestModels := bestModels metrics;
                     bestFeatures := setProperty (trim m.2) (featureNames (parseInt m.1))
                                       (bestFeatures metrics) |}
    else Thrown RangeError.
Proof.
  unfold processFeatureMatch. rewrite placeholderFeatures_run.
  by destruct (parseInt m.1 <? fillLimit)%Z.
Qed.


(** What the loop over the feature matches leaves when it runs to its end:
    the score mappings untouched, and under a target either what was there or
    the placeholder names of a match about that target. *)
Lemma foldOutcome_features_result (matches : list (string * string))
    (metrics metrics' : ModelMetrics) :
  foldOutcome processFeatureMatch metrics matches = Returned metrics' →
  (r2Scores metrics' = r2Scores metrics ∧ rmseScores metrics' = rmseScores metrics ∧
   mseScores metrics' = mseScores metrics ∧ bestModels metrics' = bestModels metrics) ∧
  ∀ target : string,
    (is_Some (bestFeatures metrics' !! target) ↔
     is_Some (bestFeatures metrics !! target) ∨
     (target ≠ "__proto__" ∧ ∃ m, m ∈ matches ∧ trim m.2 = target)) ∧
    (∀ names, bestFeatures metrics' !! target = Some names →
       bestFeatures metrics !! target = Some names ∨
       ∃ m, m ∈ matches ∧ trim m.2 = target ∧ names = featureNames (parseInt m.1)).
Proof.
  revert metrics. induction matches as [|m matches IH]; intros metrics.
  { cbn. intros [= <-]. split; [done|]. intros target. split; [|by left].
    split; [by left|]. intros [?|(_ & m & Hin & _)]; [done|]. by apply elem_of_nil in Hin. }
  cbn [foldOutcome]. rewrite processFeatureMatch_run.
  destruct (parseInt m.1 <? fillLimit)%Z; cbn [obind]; [|done].
  intros Hrun. apply IH in Hrun as [(-> & -> & -> & ->) Hfeat].
  cbn [r2Scores rmseScores mseScores bestModels bestFeatures] in *.
  split; [done|]. intros target. destruct (Hfeat target) as [Hkeys Hnames]. split.
  - rewrite Hkeys, is_Some_setProperty. split.
    + intros [[?|[Heq ?]]|(? & m' & Hin & ?)].
      * by left.
      * right. split; [done|]. exists m. split; [by left|done].
      * right. split; [done|]. exists m'. split; [by right|done].
    + intros [?|(? & m' & Hin & ?)]; [by left; left|].
      apply elem_of_cons in Hin as [->|Hin].
      * left. right. done.
      * right. split; [done|]. by exists m'.
  - intros names Hlook. destruct (Hnames names Hlook) as [Hset|(m' & Hin & ? & ?)].
    + unfold setProperty in Hset. case_bool_decide; [by left|].
      destruct (decide (trim m.2 = target)) as [Heq|Hne].
      * rewrite Heq, lookup_insert_eq in Hset. injection Hset as <-.
        right. exists m. split; [by left|done].
      * rewrite lookup_insert_ne in Hset by done. by left.
    + right. exists m'. split; [by right|done].
Qed.

Lemma foldl_processBlock_bestFeatures (blocks : list string) (metrics : ModelMetrics) :
  bestFeatures (foldl processBlock metrics blocks) = bestFeatures metrics.
Proof.
  revert metrics. induction blocks as [|block blocks IH]; intros metrics; [done|].
  cbn [foldl]. rewrite IH. unfold processBlock. by destruct (targetMatch block).
Qed.


(** X4.  The feature lists of the result are placeholders: a target is a key of
    [bestFeatures] exactly when some [Selected <n> features for <target>]
    line names it (and it is not [__proto__]), and its list is then
    [Feature 1] to [Feature n] for the count [n] of such a line: no name of
    the list comes from the text. *)
Theorem bestFeatures_are_placeholders (output : string) (metrics : ModelMetrics)
    (target : string) :
  extractModelMetrics output = Returned metrics →
  (is_Some (bestFeatures metrics !! target) ↔
   target ≠ "__proto__" ∧ ∃ m, m ∈ featureSelectionMatches output ∧ trim m.2 = target) ∧
  (∀ names, bestFeatures metrics !! target = Some names →
     ∃ m, m ∈ featureSelectionMatches output ∧ trim m.2 = target ∧
          names = featureNames (parseInt m.1) ∧
          Z.of_nat (length names) = parseInt m.1).
Proof.
  unfold extractModelMetrics. intros Hrun.
  apply foldOutcome_features_result in Hrun as [_ Hfeat].
  destruct (Hfeat target) as [Hkeys Hnames].
  rewrite foldl_processBlock_bestFeatures in Hkeys, Hnames.
  cbn [emptyMetrics bestFeatures] in Hkeys, Hnames. rewrite lookup_empty in Hkeys, Hnames.
  split.
  - rewrite Hkeys. split; [|by right]. by intros [[? ?]|?].
  - intros names Hlook. destruct (Hnames names Hlook) as [?|(m & Hin & Ht & ->)]; [done|].
    exists m. split_and!; [done..|].
    unfold featureNames. rewrite length_fmap, length_seq.
    unfold parseInt. apply Z2Nat.id, digitsValue_nonneg; lia.
Qed.

End ExtractorEdges.

Lemma bestFeatures_are_placeholders_witness :
  ∃ metrics, extractModelMetrics missingR2Log = Returned metrics ∧
    (is_Some (bestFeatures metrics !! "Ph") ↔
     "Ph" ≠ "__proto__" ∧ ∃ m, m ∈ featureSelectionMatches missingR2Log ∧ trim m.2 = "Ph") ∧
    (∀ names, bestFeatures metrics !! "Ph" = Some names →
       ∃ m, m ∈ featureSelectionMatches missingR2Log ∧ trim m.2 = "Ph" ∧
            names = featureNames (parseInt m.1) ∧
            Z.of_nat (length names) = parseInt m.1).
Proof.
  eexists. split; [vm_compute; reflexivity|].
  apply (bestFeatures_are_placeholders missingR2Log). vm_compute. reflexivity.
Defined.

(** ** Texts without a summary or without feature lines *)

Section AbsentPatterns.

Lemma includes_tail (c : ascii) (s pat : string) :
  includes (String c s) pat = false → includes s pat = false.
Proof. cbn [includes]. by intros [_ ?]%orb_false_iff. Qed.

Lemma includes_head (s pat : string) : includes s pat = false → startsWith s pat = false.
Proof. destruct s; cbn [includes]; [done|]. by intros [? _]%orb_false_iff. Qed.

Lemma search_none {A} (f : string → option A) (pat s : string) :
  (∀ t, startsWith t pat = false → f t = None) →
  includes s pat = false → search f s = None.
Proof.
  intros Hf. induction s as [|c s IH]; intros Hinc.
  - cbn. by apply Hf, includes_head.
  - cbn [search]. rewrite (Hf _ (includes_head _ _ Hinc)).
    by apply IH, (includes_tail c).
Qed.

Lemma stripPrefix_None (pat t : string) : startsWith t pat = false → stripPrefix pat t = None.
Proof.
  unfold startsWith. intros H%bool_decide_eq_false.
  destruct (stripPrefix pat t); [|done]. by destruct H.
Qed.

Lemma search_suffix {A} (f : string → option A) (P : string → Prop) (s : string) (a : A) :
  (∀ c t, P (String c t) → P t) → P s → search f s = Some a → ∃ t, P t ∧ f t = Some a.
Proof.
  intros Htail. induction s as [|c s IH]; intros HP.
  - cbn. intros ?. by exists "".
  - cbn [search]. destruct (f (String c s)) eqn:Hf.
    + intros [= ->]. by exists (String c s).
    + apply IH. by apply (Htail c).
Qed.

Lemma stripPrefix_includes (p t r pat : string) :
  stripPrefix p t = Some r → includes t pat = false → includes r pat = false.
Proof.
  revert t. induction p as [|a p IH]; intros t; cbn [stripPrefix].
  { by intros [= ->]. }
  destruct t as [|b t]; [done|]. destruct (Ascii.eqb a b); [|done].
  intros Hs Hinc. apply (IH t); [done|]. by apply (includes_tail b).
Qed.

Lemma before_prefix (pat s : string) : ∃ rest, s = before pat s +:+ rest.
Proof.
  induction s as [|c s [rest IH]]; [by exists ""|].
  cbn [before]. destruct (startsWith (String c s) pat).
  - by exists (String c s).
  - exists rest. by rewrite append_cons, <- IH.
Qed.

Lemma includes_prefix (x y pat : string) :
  includes (x +:+ y) pat = false → includes x pat = false.
Proof.
  induction x as [|c x IH].
  - intros Hinc. apply includes_head in Hinc. cbn [includes].
    destruct (startsWith "" pat) eqn:Hs; [|done].
    by rewrite (startsWith_app_r "" y pat Hs) in Hinc.
  - rewrite append_cons. cbn [includes]. intros [Hs Hinc]%orb_false_iff.
    rewrite (IH Hinc), orb_false_r.
    destruct (startsWith (String c x) pat) eqn:Hsx; [|done].
    apply (startsWith_app_r _ y) in Hsx. rewrite append_cons in Hsx. congruence.
Qed.

Lemma includes_before (q s pat : string) :
  includes s pat = false → includes (before q s) pat = false.
Proof.
  destruct (before_prefix q s) as [rest Hs]. intros Hinc.
  rewrite Hs in Hinc. by apply includes_prefix in Hinc.
Qed.

Lemma split_absent (sep s : string) : includes s sep = false → split_go sep 0 s = [s].
Proof.
  induction s as [|c s IH]; [done|]. intros Hinc.
  cbn [split_go]. rewrite (includes_head _ _ Hinc).
  by rewrite (IH (includes_tail _ _ _ Hinc)).
Qed.

Lemma summaryBlocks_absent (output : string) :
  includes output summaryMarker = false ∨ includes output targetSeparator = false →
  summaryBlocks output = [].
Proof.
  unfold summaryBlocks, finalSummaryMatch. intros [Hm|Ht].
  - rewrite (search_none _ summaryMarker); [done| |done].
    intros t Hs. by rewrite (stripPrefix_None _ _ Hs).
  - match goal with |- match ?m with _ => _ end = _ => destruct m as [text|] eqn:Hsearch end;
      [|done].
    apply (search_suffix _ (λ t, includes t targetSeparator = false)) in Hsearch
      as (t & Hinc & Hf); [|intros c t; apply includes_tail|done].
    destruct (stripPrefix summaryMarker t) as [r|] eqn:Hr; [|done].
    injection Hf as <-. unfold split.
    rewrite split_absent; [done|].
    apply includes_before. by apply (stripPrefix_includes _ _ _ _ Hr).
Qed.

Lemma featureSelectionMatches_go_absent (skip : nat) (s : string) :
  includes s "Selected " = false → featureSelectionMatches_go skip s = [].
Proof.
  revert skip. induction s as [|c s IH]; intros skip Hinc; [done|].
  cbn [featureSelectionMatches_go].
  pose proof (IH 0%nat (includes_tail _ _ _ Hinc)).
  destruct skip as [|k]; [|by apply IH, (includes_tail c)].
  unfold featureMatchAt. by rewrite (stripPrefix_None _ _ (includes_head _ _ Hinc)).
Qed.

(** X5.  From a text without the header [=== Final Summary ===], or in which no
    line starts with [Target:], the extractor reads no score and no model:
    the four mappings are empty whenever it returns.  On a text that never
    says [Selected ] it cannot fail, and the result has no feature list. *)
Theorem text_without_markers (output : string) :
  (includes output summaryMarker = false ∨ includes output targetSeparator = false →
   ∀ metrics, extractModelMetrics output = Returned metrics →
     r2Scores metrics = ∅ ∧ rmseScores metrics = ∅ ∧ mseScores metrics = ∅ ∧
     bestModels metrics = ∅) ∧
  (includes output "Selected " = false →
   ∃ metrics, extractModelMetrics output = Returned metrics ∧ bestFeatures metrics = ∅).
Proof.
  unfold extractModelMetrics. split.
  - intros Habsent metrics. rewrite (summaryBlocks_absent _ Habsent). cbn [foldl].
    by intros [(-> & -> & -> & ->) _]%foldOutcome_features_result.
  - intros Habsent. unfold featureSelectionMatches.
    rewrite (featureSelectionMatches_go_absent _ _ Habsent). cbn [foldOutcome].
    eexists. split; [done|]. by rewrite foldl_processBlock_bestFeatures.
Qed.

End AbsentPatterns.

Lemma text_without_markers_witness :
  ∃ metrics, extractModelMetrics "Data loaded successfully" = Returned metrics ∧
    (r2Scores metrics = ∅ ∧ rmseScores metrics = ∅ ∧ mseScores metrics = ∅ ∧
     bestModels metrics = ∅) ∧
    bestFeatures metrics = ∅.
Proof.
  destruct (text_without_markers "Data loaded successfully") as [Hscores Hfeatures].
  destruct Hfeatures as (metrics & Hrun & Hnone); [vm_compute; reflexivity|].
  exists metrics. split; [exact Hrun|]. split; [|exact Hnone].
  apply Hscores; [left; vm_compute; reflexivity|exact Hrun].
Defined.

(** ** Settlement of the process promise *)

Section Settlement.

Lemma promise_kept (more : list ProcessEvent) (st : ProcessState) (s : settlement) :
  promise st = Some s → promise (foldl onEvent st more) = Some s.
Proof.
  revert st. induction more as [|ev more IH]; intros st Hst; [done|].
  cbn [foldl]. apply IH.
  destruct ev as [data|data|[[| |]|]|message]; cbn [onEvent promise]; try done;
    unfold settle; by rewrite Hst.
Qed.

Lemma promise_after_end (st : ProcessState) (ev : ProcessEvent) :
  ¬ isData ev → is_Some (promise (onEvent st ev)).
Proof.
  destruct ev as [data|data|[[| |]|]|message]; cbn [isData onEvent]; intros Hev;
    try (by destruct Hev); unfold settle; destruct (promise st) eqn:Hp;
    cbn [promise]; rewrite ?Hp; by eexists.
Qed.

Lemma runPythonModel_pending_iff (events : list ProcessEvent) :
  runPythonModel events = None ↔ Forall isData events.
Proof.
  split; [|apply runPythonModel_pending].
  unfold runPythonModel. generalize initialProcessState as st.
  induction events as [|ev events IH]; intros st Hnone; [done|].
  cbn [foldl] in Hnone.
  assert (isData ev ∨ ¬ isData ev) as [Hev|Hev] by (destruct ev; cbn; auto).
  - constructor; [done|]. by apply (IH _ Hnone).
  - destruct (promise_after_end st ev Hev) as [s Hs].
    by rewrite (promise_kept events _ s Hs) in Hnone.
Qed.

(** X7.  The promise is settled by the first [close] or [error] event and by that
    one only: whatever the process emits afterwards, a [close] gives the
    captured output or the failure message with the captured stderr, and an
    [error] gives the message of the failed start. *)
Theorem runPythonModel_first_end (chunks more : list ProcessEvent) :
  Forall isData chunks →
  (∀ exitCode,
     runPythonModel (chunks ++ CloseEvent exitCode :: more) =
       Some (if bool_decide (exitCode = Some 0%Z) then Resolved (stdoutOf chunks)
             else Rejected ("Python process failed with code " +:+ showExitCode exitCode
                            +:+ ": " +:+ stderrOf chunks))) ∧
  (∀ message,
     runPythonModel (chunks ++ ErrorEvent message :: more) =
       Some (Rejected ("Failed to start Python process: " +:+ message))).
Proof.
  intros Hdata. split.
  - intros exitCode. pose proof (runPythonModel_close chunks exitCode Hdata) as Hclose.
    unfold runPythonModel in *.
    rewrite foldl_app in Hclose. rewrite foldl_app. cbn [foldl] in *.
    by apply promise_kept.
  - intros message. unfold runPythonModel.
    rewrite foldl_app, (foldl_onEvent_data _ _ Hdata). cbn [foldl].
    by apply promise_kept.
Qed.

End Settlement.

Lemma runPythonModel_first_end_witness :
  runPythonModel failedStartRun = Some (Rejected "Failed to start Python process: spawn python ENOENT").
Proof.
  apply (runPythonModel_first_end [StdoutData "Data"] [StderrData "late"; CloseEvent (Some 0%Z)]).
  repeat constructor.
Defined.

(** ** Answers of the route *)

Section Answers.

Lemma readPredictions_Some (w : World) (predictions : list (gmap string value)) :
  readPredictions w = Some predictions ↔
  ∃ data, predictionsFile w = Some data ∧ parseCSV data = Returned predictions.
Proof.
  unfold readPredictions. destruct (predictionsFile w) as [data|]; cbn.
  - destruct (parseCSV data) as [rows|e] eqn:Hparse.
    + split; [intros [= <-]; by exists data|].
      by intros (? & [= <-] & Heq); rewrite Hparse in Heq; injection Heq as ->.
    + split; [done|]. by intros (? & [= <-] & Heq); rewrite Hparse in Heq.
  - split; [done|]. by intros (? & ? & _).
Qed.

Lemma readPredictions_None (w : World) :
  readPredictions w = None ↔ predictionsFile w = None.
Proof.
  unfold readPredictions. destruct (predictionsFile w) as [data|]; cbn; [|done].
  destruct (parseCSV_returns data) as (line0 & _ & ->). done.
Qed.

Lemma POST_before_None (w : World) : POST_before w = None ↔ uploadSaved w.
Proof.
  unfold POST_before, uploadSaved.
  destruct (uploadDirReady w), (outputDirReady w); cbn [negb];
    try (split; [done|]; by intros (? & ? & _)).
  destruct (formData w) as [[|text|content]|].
  - split; [done|]. by intros (_ & _ & [? ?] & _).
  - split; [by destruct text|]. by intros (_ & _ & [? ?] & _).
  - destruct (writeFileOk w).
    + split; [|done]. intros _. split_and!; [done..| |done]. by exists content.
    + split; [done|]. by intros (_ & _ & _ & ?).
  - split; [done|]. by intros (_ & _ & [? ?] & _).
Qed.

Lemma POST_before_error (w : World) (o : outcome Response) :
  POST_before w = Some o →
  catchAll o = internalServerError ∨
  catchAll o = {| body := ErrorBody "No file provided" None; status := 400 |}.
Proof.
  unfold POST_before.
  destruct (uploadDirReady w), (outputDirReady w); cbn [negb];
    try (intros [= <-]; by left).
  destruct (formData w) as [[|text|content]|].
  - intros [= <-]. by right.
  - destruct text; intros [= <-]; [by right|by left].
  - destruct (writeFileOk w); [done|]. intros [= <-]. by left.
  - intros [= <-]. by left.
Qed.

(** X8.  The route answers with the predictions, the metrics and the log exactly
    when the upload was saved, the process closed with code 0 first, the
    predictions file could be read and the extractor returned; the status is
    then 200, and the predictions and the metrics are what [parseCSV] and
    [extractModelMetrics] make of the file and of the log. *)
Theorem POST_success_iff (w : World) (predictions : list (gmap string value))
    (metrics : ModelMetrics) (modelOutput : string) (code : Z) :
  POST w = Some {| body := SuccessBody predictions metrics modelOutput; status := code |} ↔
  code = 200%Z ∧ uploadSaved w ∧
  runPythonModel (processEvents w) = Some (Resolved modelOutput) ∧
  (∃ data, predictionsFile w = Some data ∧ parseCSV data = Returned predictions) ∧
  extractModelMetrics modelOutput = Returned metrics.
Proof.
  rewrite <- POST_before_None, <- readPredictions_Some. unfold POST.
  destruct (POST_before w) as [o|] eqn:Hbefore.
  { split; [|by intros (_ & ? & _)].
    intros [= Hanswer]. by destruct (POST_before_error w o Hbefore) as [H|H];
      rewrite H in Hanswer. }
  destruct (runPythonModel (processEvents w)) as [[out|reason]|]; cbn;
    [|split; [done|by intros (_ & _ & ? & _)]..].
  destruct (readPredictions w) as [rows|]; cbn;
    [|split; [done|by intros (_ & _ & _ & ? & _)]].
  destruct (extractModelMetrics out) as [m|e] eqn:Hm; cbn.
  - split.
    + intros [= -> -> -> <-]. by rewrite Hm.
    + intros (-> & _ & [= ->] & [= ->] & Hm'). rewrite Hm in Hm'. by injection Hm' as ->.
  - split; [done|]. intros (_ & _ & [= ->] & _ & Hm'). by rewrite Hm in Hm'.
Qed.

(** X9.  An answer that reports an error is one of three: 400 with
    [No file provided], 500 with [Internal server error], neither carrying
    any process output, or 500 with [Failed to read model predictions] and
    the captured output, given when the process closed with code 0 and the
    predictions file could not be read. *)
Theorem POST_error_answers (w : World) (error : string) (modelOutput : option string)
    (code : Z) :
  POST w = Some {| body := ErrorBody error modelOutput; status := code |} →
  (error = "No file provided" ∧ modelOutput = None ∧ code = 400%Z) ∨
  (error = "Internal server error" ∧ modelOutput = None ∧ code = 500%Z) ∨
  (error = "Failed to read model predictions" ∧ code = 500%Z ∧
   ∃ out, modelOutput = Some out ∧
          runPythonModel (processEvents w) = Some (Resolved out) ∧
          predictionsFile w = None).
Proof.
  unfold POST. destruct (POST_before w) as [o|] eqn:Hbefore.
  { intros [= Hanswer]. destruct (POST_before_error w o Hbefore) as [H|H];
      rewrite H in Hanswer; injection Hanswer as <- <- <-; auto. }
  destruct (runPythonModel (processEvents w)) as [[out|reason]|]; cbn; [| |done].
  - destruct (readPredictions w) as [rows|] eqn:Hread; cbn.
    + destruct (extractModelMetrics out); cbn; [done|].
      intros [= <- <- <-]. auto.
    + apply readPredictions_None in Hread. intros [= <- <- <-].
      right. right. split_and!; [done..|]. by exists out.
  - intros [= <- <- <-]. auto.
Qed.

(** X10.  The route never answers exactly when the upload was saved and the
    process emits neither [close] nor [error]: nothing bounds the wait. *)
Theorem POST_pending_iff (w : World) :
  POST w = None ↔ uploadSaved w ∧ Forall isData (processEvents w).
Proof.
  rewrite <- POST_before_None, <- runPythonModel_pending_iff. unfold POST.
  destruct (POST_before w) as [o|]; [split; [done|by intros [? _]]|].
  destruct (runPythonModel (processEvents w)); cbn; [split; [done|by intros [_ ?]]|done].
Qed.


End Answers.

Lemma POST_success_witness :
  POST successfulRun =
    Some {| body := SuccessBody [<["Ph" := VNum (Finite (13 # 2))]> (<["Soil_ID" := VStr "S1"]> ∅)]
                      {| r2Scores := ∅; rmseScores := <["Ph" := Finite (21 # 50)]> ∅;
                         mseScores := <["Ph" := Finite (441 # 2500)]> ∅;
                         bestModels := <["Ph" := "SVR"]> ∅;
                         bestFeatures := <["Ph" := featureNames 5]> ∅ |}
                      missingR2Log;
            status := 200 |}.
Proof.
  apply POST_success_iff. split; [reflexivity|]. split.
  { split_and!; [reflexivity..| |reflexivity]. eexists. reflexivity. }
  split; [vm_compute; reflexivity|]. split.
  { eexists. split; [reflexivity|]. vm_compute. reflexivity. }
  vm_compute. reflexivity.
Defined.

Lemma POST_error_answers_witness :
  ("No file provided" = "No file provided" ∧ @None string = None ∧ 400%Z = 400%Z) ∨
  ("No file provided" = "Internal server error" ∧ @None string = None ∧ 400%Z = 500%Z) ∨
  ("No file provided" = "Failed to read model predictions" ∧ 400%Z = 500%Z ∧
   ∃ out, None = Some out ∧
          runPythonModel (processEvents noFileRequest) = Some (Resolved out) ∧
          predictionsFile noFileRequest = None).
Proof. apply (POST_error_answers noFileRequest). reflexivity. Defined.

Lemma POST_pending_witness : POST runningProcess = None.
Proof.
  apply POST_pending_iff. split.
  - split_and!; [reflexivity..| |reflexivity]. eexists. reflexivity.
  - repeat constructor.
Defined.


(** ** Logs with CR LF line ends *)

Section CRLF.

Lemma lfAfterCR_tail (prev c : ascii) (s : string) :
  lfAfterCR prev (String c s) = true → lfAfterCR c s = true.
Proof. cbn [lfAfterCR]. by intros [_ ?]%andb_true_iff. Qed.

Lemma lfAfterCR_prefix (prev : ascii) (x y : string) :
  lfAfterCR prev (x +:+ y) = true → lfAfterCR prev x = true.
Proof.
  revert prev. induction x as [|c x IH]; intros prev; [done|].
  rewrite append_cons. cbn [lfAfterCR]. intros [-> ?]%andb_true_iff. by apply IH.
Qed.

Lemma lfAfterCR_stripPrefix (p t r : string) (prev : ascii) :
  stripPrefix p t = Some r → lfAfterCR prev t = true → lfAfterCR (lastOr prev p) r = true.
Proof.
  revert t prev. induction p as [|a p IH]; intros t prev; cbn [stripPrefix lastOr].
  { by intros [= ->]. }
  destruct t as [|b t]; [done|]. destruct (Ascii.eqb_spec a b) as [->|]; [|done].
  intros Hs Ht. apply (IH t); [done|]. by apply lfAfterCR_tail in Ht.
Qed.

Lemma lfAfterCR_span (p : ascii → bool) (s ds r : string) (prev : ascii) :
  span p s = (ds, r) → lfAfterCR prev s = true → lfAfterCR (lastOr prev ds) r = true.
Proof.
  revert ds prev. induction s as [|c s IH]; intros ds prev; cbn [span].
  { by intros [= <- <-]. }
  destruct (p c); [|by intros [= <- <-]].
  destruct (span p s) as [a b] eqn:Hspan. intros [= <- <-] Hs.
  cbn [lastOr]. apply (IH a); [done|]. by apply lfAfterCR_tail in Hs.
Qed.

(** A text that does not follow a carriage return has no first line ended
    by a line feed. *)
Lemma lineBeforeLF_crlf (prev : ascii) (s : string) :
  prev ≠ CR → lfAfterCR prev s = true → lineBeforeLF s = None.
Proof.
  revert prev. induction s as [|c s IH]; intros prev Hprev; [done|].
  cbn [lfAfterCR lineBeforeLF]. intros [Hc Hs]%andb_true_iff.
  destruct (Ascii.eqb_spec c LF) as [->|Hlf].
  { cbn in Hc. by destruct (Ascii.eqb_spec prev CR). }
  unfold isLineTerminator. destruct (Ascii.eqb_spec c LF) as [|_]; [done|].
  destruct (Ascii.eqb_spec c CR) as [->|Hcr]; [done|]. cbn [orb].
  by rewrite (IH c Hcr Hs).
Qed.

Lemma startsWith_cons_inv (c : ascii) (s : string) (a : ascii) (p : string) :
  startsWith (String c s) (String a p) = true → a = c ∧ startsWith s p = true.
Proof.
  rewrite startsWith_cons. intros [Ha ?]%andb_true_iff. split; [|done].
  by destruct (Ascii.eqb_spec a c).
Qed.

(** The pieces that follow a separator whose last character is no carriage
    return do not follow one either.  [suffix] is what remains to be passed
    over of the separator just recognised. *)
Lemma split_go_crlf (sep : string) (s suffix : string) (prev : ascii) :
  sep ≠ "" →
  startsWith s suffix = true →
  lfAfterCR prev s = true →
  match suffix with
  | "" =>
      lfAfterCR prev (default "" (split_go sep 0 s !! 0%nat)) = true ∧
      Forall (λ piece, lfAfterCR (lastOr " " sep) piece = true) (drop 1 (split_go sep 0 s))
  | _ =>
      lastOr " " suffix = lastOr " " sep →
      Forall (λ piece, lfAfterCR (lastOr " " sep) piece = true)
             (split_go sep (String.length suffix) s)
  end.
Proof.
  intros Hsep. revert suffix prev. induction s as [|c s IH]; intros suffix prev Hstarts Hs.
  { destruct suffix; [|done]. cbn. by split. }
  destruct suffix as [|a suffix].
  - cbn [split_go String.length]. destruct (startsWith (String c s) sep) eqn:Hsw.
    + destruct sep as [|b sep]; [done|]. apply startsWith_cons_inv in Hsw as [-> Hsw].
      cbn [String.length]. rewrite Nat.sub_succ, Nat.sub_0_r. cbn [lookup drop].
      split; [done|].
      pose proof (IH sep c Hsw (lfAfterCR_tail _ _ _ Hs)) as Hrec.
      destruct sep as [|b sep].
      * cbn [String.length lastOr]. destruct Hrec as [Hhead Htail].
        destruct (split_go (String c "") 0 s) as [|piece pieces] eqn:Hsplit.
        { by apply split_go_nonempty in Hsplit. }
        constructor; [exact Hhead|exact Htail].
      * by apply Hrec.
    + pose proof (IH "" c (startsWith_nil s) (lfAfterCR_tail _ _ _ Hs)) as [Hhead Htail].
      destruct (split_go sep 0 s) as [|piece pieces] eqn:Hsplit.
      { by apply split_go_nonempty in Hsplit. }
      cbn -[lfAfterCR] in Hhead, Htail |- *. split; [|done].
      cbn [lfAfterCR] in *. apply andb_true_iff in Hs as [-> _]. done.
  - apply startsWith_cons_inv in Hstarts as [-> Hstarts].
    cbn [split_go String.length lastOr]. intros Hlast.
    pose proof (IH suffix c Hstarts (lfAfterCR_tail _ _ _ Hs)) as Hrec.
    destruct suffix as [|b suffix].
    + cbn [String.length lastOr] in *. rewrite <- Hlast. destruct Hrec as [Hhead Htail].
      destruct (split_go sep 0 s) as [|piece pieces] eqn:Hsplit.
      { by apply split_go_nonempty in Hsplit. }
      rewrite <- Hlast in Htail. constructor; [exact Hhead|exact Htail].
    + by apply Hrec.
Qed.

Lemma summaryBlocks_crlf (output : string) :
  crlfOnly output = true →
  Forall (λ block, targetMatch block = None) (summaryBlocks output).
Proof.
  unfold crlfOnly, summaryBlocks, finalSummaryMatch. intros Hcrlf.
  match goal with |- Forall _ (match ?m with _ => _ end) =>
    destruct m as [text|] eqn:Hsearch end; [|done].
  apply (search_suffix _ (λ t, ∃ prev, lfAfterCR prev t = true)) in Hsearch
    as (t & [prev Ht] & Hf).
  - destruct (stripPrefix summaryMarker t) as [r|] eqn:Hr; [|done].
    injection Hf as <-.
    pose proof (lfAfterCR_stripPrefix _ _ _ _ Hr Ht) as Hrest.
    destruct (before_prefix summaryEnd r) as [rest Hbefore].
    rewrite Hbefore in Hrest. apply lfAfterCR_prefix in Hrest.
    assert (targetSeparator ≠ "") as Hsep by (by vm_compute).
    assert (lastOr " " targetSeparator ≠ CR) as Hlast by (by vm_compute).
    pose proof (split_go_crlf targetSeparator _ "" _ Hsep
                  (startsWith_nil _) Hrest) as [_ Hblocks].
    unfold split. eapply Forall_impl; [exact Hblocks|].
    intros block Hblock. by apply (lineBeforeLF_crlf _ _ Hlast Hblock).
  - intros c t' [prev Hp]. exists c. by apply lfAfterCR_tail in Hp.
  - by eexists.
Qed.

Lemma featureMatchAt_crlf (prev : ascii) (s : string) :
  lfAfterCR prev s = true → featureMatchAt s = None.
Proof.
  intros Hs. unfold featureMatchAt.
  destruct (stripPrefix "Selected " s) as [r|] eqn:Hr; [|by cbn].
  cbn [mbind option_bind].
  pose proof (lfAfterCR_stripPrefix _ _ _ _ Hr Hs) as Hrest.
  destruct (span isDigit r) as [ds r1] eqn:Hspan.
  destruct ds as [|d ds]; [done|].
  pose proof (lfAfterCR_span _ _ _ _ _ Hspan Hrest) as Hr1.
  destruct (stripPrefix " features for " r1) as [r2|] eqn:Hr2; [|by cbn].
  cbn [mbind option_bind].
  pose proof (lfAfterCR_stripPrefix _ _ _ _ Hr2 Hr1) as Hname.
  assert (lastOr (lastOr (lastOr prev "Selected ") (String d ds)) " features for " ≠ CR)
    as Hlast by (by vm_compute).
  by rewrite (lineBeforeLF_crlf _ _ Hlast Hname).
Qed.

Lemma featureSelectionMatches_go_crlf (skip : nat) (prev : ascii) (s : string) :
  lfAfterCR prev s = true → featureSelectionMatches_go skip s = [].
Proof.
  revert skip prev. induction s as [|c s IH]; intros skip prev Hs; [done|].
  cbn [featureSelectionMatches_go].
  pose proof (lfAfterCR_tail _ _ _ Hs) as Htail.
  destruct skip as [|k]; [|by apply (IH k c)].
  rewrite (featureMatchAt_crlf prev _ Hs). by apply (IH 0%nat c).
Qed.

(** X6.  From a log whose lines end in CR LF the extractor reads nothing at all:
    the first line of a block and the name after [features for] have to end
    at a line feed, which a carriage return precedes in such a text. *)
Theorem crlf_log_gives_empty_metrics (output : string) :
  crlfOnly output = true → extractModelMetrics output = Returned emptyMetrics.
Proof.
  intros Hcrlf. unfold extractModelMetrics, featureSelectionMatches.
  rewrite (featureSelectionMatches_go_crlf 0 " " output Hcrlf). cbn [foldOutcome].
  f_equal. pose proof (summaryBlocks_crlf output Hcrlf) as Hblocks.
  generalize emptyMetrics as metrics.
  induction Hblocks as [|block blocks Hblock _ IH]; intros metrics; [done|].
  cbn [foldl]. unfold processBlock at 2. rewrite Hblock. apply IH.
Qed.

End CRLF.

Lemma crlf_log_gives_empty_metrics_witness :
  includes crlfLog "Target: Ph" = true ∧
  extractModelMetrics crlfLog = Returned emptyMetrics.
Proof.
  split; [vm_compute; reflexivity|].
  apply (crlf_log_gives_empty_metrics crlfLog). vm_compute. reflexivity.
Defined.

(** ** Predictions of the simulated analysis *)

(** Membership in a list written out that holds for none of its elements. *)
Ltac elem_absurd H :=
  repeat (apply elem_of_cons in H as [?|H]; [done|]); by apply elem_of_nil in H.

Section PredictionFields.

Context (draws : nat → Q).

Lemma simulateModelAnalysis_lookup (data : list (gmap string value)) (i k : nat)
    (row : gmap string value) :
  data !! k = Some row →
  ∃ soilIds j1 j2,
    soilIds !! k = Some (soilIdOf row draws j1).1 ∧
    (simulateModelAnalysis data draws i).1 !! k = Some (predictionOf soilIds k row draws j2).1.
Proof.
  intros Hrow. unfold simulateModelAnalysis. rewrite bind_run.
  set (soilIds := (mapRand (λ _ row0, soilIdOf row0) 0 data draws i).1).
  set (j := (mapRand (λ _ row0, soilIdOf row0) 0 data draws i).2).
  destruct (mapRand_lookup draws (λ _ row0, soilIdOf row0) data 0 i k row Hrow) as [j1 Hj1].
  destruct (mapRand_lookup draws (predictionOf soilIds) data 0 j k row Hrow) as [j2 Hj2].
  exists soilIds, j1, j2. split; [exact Hj1|exact Hj2].
Qed.

Lemma simulateModelAnalysis_row (data : list (gmap string value)) (i k : nat)
    (prediction : gmap string value) :
  (simulateModelAnalysis data draws i).1 !! k = Some prediction → is_Some (data !! k).
Proof.
  intros Hk%lookup_lt_Some. apply lookup_lt_is_Some.
  unfold simulateModelAnalysis in Hk. rewrite bind_run in Hk.
  by rewrite mapRand_length in Hk.
Qed.

Lemma simulateModelAnalysis_length (data : list (gmap string value)) (i : nat) :
  length (simulateModelAnalysis data draws i).1 = length data.
Proof. unfold simulateModelAnalysis. by rewrite bind_run, mapRand_length. Qed.

(** The prediction made from the row at an index that the data has. *)
Lemma simulateModelAnalysis_at (data : list (gmap string value)) (i k : nat) :
  k < length data →
  (simulateModelAnalysis data draws i).1 !! k
    = Some (default ∅ ((simulateModelAnalysis data draws i).1 !! k)).
Proof.
  intros Hk. rewrite <- (simulateModelAnalysis_length data i) in Hk.
  by destruct (lookup_lt_is_Some_2 _ _ Hk) as [prediction ->].
Qed.

(** The identifier and the moisture level of a prediction stay as the
    callback first writes them, and the loop over the target parameters adds
    those six keys and no other. *)
Lemma predictionOf_fields (soilIds : list value) (k j : nat) (row : gmap string value) :
  let soilId := default VUndef (soilIds !! k) in
  let prediction := (predictionOf soilIds k row draws j).1 in
  prediction !! "Soil_ID" = Some soilId ∧
  prediction !! "Moisture_Level" = Some (moistureLevelOf row k soilId) ∧
  ∀ key, is_Some (prediction !! key) ↔ key ∈ "Soil_ID" :: "Moisture_Level" :: targetParams.
Proof.
  intros soilId prediction. subst prediction. unfold predictionOf. cbv zeta. fold soilId.
  set (ml := moistureLevelOf row k soilId).
  set (start := <["Moisture_Level" := ml]> (<["Soil_ID" := soilId]> ∅) : gmap string value).
  pose proof (foldRand_fillParam draws row ml targetParams targetParams_NoDup
                (λ _ H, H) start j) as Hfold.
  split_and!.
  - rewrite (proj2 (Hfold "Soil_ID")); [done|].
    unfold targetParams. intros H. elem_absurd H.
  - rewrite (proj2 (Hfold "Moisture_Level")); [done|].
    unfold targetParams. intros H. elem_absurd H.
  - intros key. destruct (decide (key ∈ targetParams)) as [Hin|Hout].
    + split; [intros _; by do 2 right|]. intros _.
      pose proof (proj1 (Hfold key) Hin) as Hfilled. unfold targetFilled in Hfilled.
      destruct (get row key); [destruct Hfilled as [q ->]|rewrite Hfilled..]; by eexists.
    + rewrite (proj2 (Hfold key) Hout). subst start.
      rewrite !elem_of_cons.
      destruct (decide (key = "Moisture_Level")) as [->|Hml].
      { rewrite lookup_insert_eq. split; [auto|by eexists]. }
      rewrite lookup_insert_ne by done.
      destruct (decide (key = "Soil_ID")) as [->|Hid].
      { rewrite lookup_insert_eq. split; [auto|by eexists]. }
      rewrite lookup_insert_ne, lookup_empty by done.
      split; [by intros [? ?]|]. by intros [?|[?|?]].
Qed.

(** X12.  A prediction has eight keys: the identifier, the moisture level and the
    six target parameters.  Nothing else is taken from the row: the other
    columns of the uploaded file, the reflectances among them, are not part
    of a prediction. *)
Theorem predictions_have_eight_keys (data : list (gmap string value)) (i k : nat)
    (prediction : gmap string value) (key : string) :
  (simulateModelAnalysis data draws i).1 !! k = Some prediction →
  (is_Some (prediction !! key) ↔ key ∈ "Soil_ID" :: "Moisture_Level" :: targetParams).
Proof.
  intros Hpred. destruct (simulateModelAnalysis_row _ _ _ _ Hpred) as [row Hrow].
  destruct (simulateModelAnalysis_lookup data i k row Hrow) as (soilIds & j1 & j2 & _ & Hk).
  rewrite Hk in Hpred. injection Hpred as <-.
  apply predictionOf_fields.
Qed.

End PredictionFields.

Lemma predictions_have_eight_keys_witness :
  is_Some (default ∅ ((simulateModelAnalysis [anonymousRow] (λ _, 0.5%Q) 0).1 !! 0%nat) !! "410")
  ↔ "410" ∈ "Soil_ID" :: "Moisture_Level" :: targetParams.
Proof.
  apply (predictions_have_eight_keys (λ _, 0.5%Q) [anonymousRow] 0 0).
  apply simulateModelAnalysis_at. cbn. lia.
Defined.

(** ** Identifiers and moisture levels *)

Section Identifiers.

Context (draws : nat → Q).

Lemma split_head_before (sep s : string) : split_go sep 0 s !! 0%nat = Some (before sep s).
Proof.
  induction s as [|c s IH]; [done|]. cbn [split_go before].
  destruct (startsWith (String c s) sep); [done|].
  destruct (split_go sep 0 s) as [|piece pieces]; [done|].
  cbn in IH |- *. by injection IH as ->.
Qed.

Lemma before_absent (pat s : string) : includes s pat = false → before pat s = s.
Proof.
  induction s as [|c s IH]; [done|]. intros Hinc. cbn [before].
  rewrite (includes_head _ _ Hinc). by rewrite (IH (includes_tail _ _ _ Hinc)).
Qed.

Lemma split_second (c : ascii) (s : string) :
  includes s (String c "") = true →
  split_go (String c "") 0 s !! 1%nat = Some (before (String c "") (after (String c "") s)).
Proof.
  induction s as [|d s IH]; [done|]. cbn [includes split_go after stripPrefix].
  rewrite startsWith_single. case_bool_decide as Hc.
  - subst d. rewrite Ascii.eqb_refl. intros _. cbn [String.length Nat.sub lookup].
    apply split_head_before.
  - destruct (Ascii.eqb_spec c d) as [?|_]; [done|]. cbn [orb]. intros Hinc.
    specialize (IH Hinc).
    destruct (split_go (String c "") 0 s) as [|piece pieces]; [done|]. exact IH.
Qed.

Lemma includes_app_single (c : ascii) (x y : string) :
  includes (x +:+ y) (String c "")
    = includes x (String c "") || includes y (String c "").
Proof.
  induction x as [|d x IH]; [done|].
  rewrite append_cons. cbn [includes]. rewrite !startsWith_single, IH. by rewrite orb_assoc.
Qed.

Lemma allChars_includes (p : ascii → bool) (c : ascii) (s : string) :
  allChars p s = true → p c = false → includes s (String c "") = false.
Proof.
  intros Hs Hc. induction s as [|d s IH]; [done|].
  cbn [allChars] in Hs. apply andb_true_iff in Hs as [Hd Hs].
  cbn [includes]. rewrite startsWith_single, (IH Hs), orb_false_r.
  apply bool_decide_eq_false. intros ->. congruence.
Qed.

Lemma pretty_N_go_digits (x : N) (s : string) :
  allChars isDigit s = true → allChars isDigit (pretty_N_go x s) = true.
Proof.
  revert s. induction (N.lt_wf_0 x) as [x _ IH]; intros s Hs.
  assert (x = 0 ∨ 0 < x)%N as [->|Hx] by lia; [by rewrite pretty_N_go_0|].
  rewrite pretty_N_go_step by done. apply IH; [by apply N.div_lt|].
  cbn [allChars]. rewrite Hs, andb_true_r.
  unfold pretty_N_char. by repeat case_match.
Qed.

Lemma pretty_Z_digits (n : Z) : (0 <= n)%Z → allChars isDigit (pretty n) = true.
Proof.
  destruct n as [|p|p]; [done| |lia]. intros _.
  unfold pretty, pretty_Z, pretty, pretty_positive, pretty, pretty_N.
  case_decide; [done|]. by apply pretty_N_go_digits.
Qed.

(** The identifier of a row that has one as a text is that text up to its
    first hyphen. *)
Lemma soilIdOf_string (row : gmap string value) (s : string) (j : nat) :
  get row "Soil_ID" = VStr s → s ≠ "" → (soilIdOf row draws j).1 = VStr (before "-" s).
Proof.
  intros Hget Hs. unfold soilIdOf. rewrite bind_run, Hget.
  assert (truthy (VStr s) = true) as -> by (by destruct s).
  cbn [ret fst]. destruct (includes s "-") eqn:Hinc.
  - unfold at_index, split. by rewrite split_head_before.
  - by rewrite before_absent.
Qed.

(** The moisture level found for a textual identifier. *)
Lemma moistureLevelOf_string (row : gmap string value) (k : nat) (id : string) :
  moistureLevelOf row k (VStr id) =
    if includes id "_" then VStr (before "_" (after "_" id))
    else if truthy (get row "Moisture_Level") then get row "Moisture_Level"
    else at_index levels (k mod 3).
Proof.
  unfold moistureLevelOf. destruct (includes id "_") eqn:Hinc; [|done].
  pose proof (split_second "_" id Hinc) as Hsecond. unfold split, at_index.
  rewrite bool_decide_true by (by apply lookup_lt_Some in Hsecond).
  by rewrite Hsecond.
Qed.

(** X13.  For a row whose [Soil_ID] is a non-empty text, the identifier of the
    prediction is that text cut at its first hyphen.  When the identifier has
    an underscore, the moisture level is what stands between its first and
    its second underscore, whatever the [Moisture_Level] column says;
    otherwise it is that column, and without one [0ml], [25ml], [50ml] in
    turn by the index of the row. *)
Theorem identifier_from_row (data : list (gmap string value)) (i k : nat)
    (row prediction : gmap string value) (s : string) :
  data !! k = Some row →
  (simulateModelAnalysis data draws i).1 !! k = Some prediction →
  get row "Soil_ID" = VStr s → s ≠ "" →
  prediction !! "Soil_ID" = Some (VStr (before "-" s)) ∧
  prediction !! "Moisture_Level" =
    Some (if includes (before "-" s) "_"
          then VStr (before "_" (after "_" (before "-" s)))
          else if truthy (get row "Moisture_Level") then get row "Moisture_Level"
          else at_index levels (k mod 3)).
Proof.
  intros Hrow Hpred Hget Hs.
  destruct (simulateModelAnalysis_lookup draws data i k row Hrow)
    as (soilIds & j1 & j2 & Hid & Hk).
  rewrite Hk in Hpred. injection Hpred as <-.
  destruct (predictionOf_fields draws soilIds k j2 row) as (Hsoil & Hml & _).
  rewrite Hid in Hsoil, Hml. cbv [default from_option id] in Hsoil, Hml.
  rewrite (soilIdOf_string row s j1 Hget Hs) in Hsoil, Hml.
  split; [exact Hsoil|]. by rewrite Hml, moistureLevelOf_string.
Qed.

(** X14.  A row with neither [Soil_ID] nor [Records] gets the identifier
    [Sample_<n>] with [n] below 1000 drawn at random; the underscore of that
    identifier makes [<n>] the moisture level of the prediction, so that the
    level is none of [0ml], [25ml], [50ml], whatever the [Moisture_Level]
    column says. *)
Theorem generated_identifier (data : list (gmap string value)) (i k : nat)
    (row prediction : gmap string value) :
  (∀ j : nat, (0 <= draws j)%Q ∧ (draws j < 1)%Q) →
  data !! k = Some row →
  (simulateModelAnalysis data draws i).1 !! k = Some prediction →
  truthy (get row "Soil_ID") = false → truthy (get row "Records") = false →
  ∃ n : Z, (0 <= n < 1000)%Z ∧
    prediction !! "Soil_ID" = Some (VStr ("Sample_" +:+ pretty n)) ∧
    prediction !! "Moisture_Level" = Some (VStr (pretty n)) ∧
    pretty n ∉ levels.
Proof.
  intros Hdraws Hrow Hpred Hid Hrec.
  destruct (simulateModelAnalysis_lookup draws data i k row Hrow)
    as (soilIds & j1 & j2 & Hsoil & Hk).
  rewrite Hk in Hpred. injection Hpred as <-.
  destruct (predictionOf_fields draws soilIds k j2 row) as (Hfield & Hml & _).
  rewrite Hsoil in Hfield, Hml. cbv [default from_option id] in Hfield, Hml.
  set (n := Qfloor (draws j1 * 1000)%Q).
  assert (0 <= n < 1000)%Z as Hn.
  { destruct (Hdraws j1) as [Hlo Hhi]. subst n. split.
    - change 0%Z with (Qfloor 0). apply Qfloor_resp_le. lra.
    - rewrite Zlt_Qlt. eapply Qle_lt_trans; [apply Qfloor_le|]. unfold inject_Z. lra. }
  pose proof (pretty_Z_digits n (proj1 Hn)) as Hdigits.
  assert ((soilIdOf row draws j1).1 = VStr ("Sample_" +:+ pretty n)) as Hgen.
  { unfold soilIdOf. rewrite bind_run, Hid, Hrec, bind_run. cbn [Math_random ret fst].
    fold n. rewrite includes_app_single.
    rewrite (allChars_includes isDigit "-" _ Hdigits) by done. done. }
  rewrite Hgen in Hfield, Hml. exists n. split; [exact Hn|]. split; [exact Hfield|].
  split.
  - rewrite Hml, moistureLevelOf_string, includes_app_single. cbn [orb].
    replace (includes "Sample_" "_") with true by by_computation. cbn [orb].
    replace (after "_" ("Sample_" +:+ pretty n)) with (pretty n)
      by (generalize (pretty n); intros d; by_computation).
    by rewrite before_absent by (by apply (allChars_includes isDigit)).
  - unfold levels. intros Hin.
    repeat (apply elem_of_cons in Hin as [Heq|Hin];
            [rewrite Heq in Hdigits; by vm_compute in Hdigits|]).
    by apply elem_of_nil in Hin.
Qed.

End Identifiers.

Lemma identifier_from_row_witness :
  default ∅ ((simulateModelAnalysis [taggedRow] (λ _, 0.5%Q) 0).1 !! 0%nat) !! "Soil_ID"
    = Some (VStr "F3_25ml_a") ∧
  default ∅ ((simulateModelAnalysis [taggedRow] (λ _, 0.5%Q) 0).1 !! 0%nat) !! "Moisture_Level"
    = Some (VStr "25ml").
Proof.
  apply (identifier_from_row (λ _, 0.5%Q) [taggedRow] 0 0 taggedRow _ "F3_25ml_a-rep2").
  - reflexivity.
  - apply simulateModelAnalysis_at. cbn. lia.
  - vm_compute. reflexivity.
  - discriminate.
Defined.

Lemma generated_identifier_witness :
  ∃ n : Z, (0 <= n < 1000)%Z ∧
    default ∅ ((simulateModelAnalysis [anonymousRow] (λ _, 0.5%Q) 0).1 !! 0%nat) !! "Soil_ID"
      = Some (VStr ("Sample_" +:+ pretty n)) ∧
    default ∅ ((simulateModelAnalysis [anonymousRow] (λ _, 0.5%Q) 0).1 !! 0%nat)
      !! "Moisture_Level" = Some (VStr (pretty n)) ∧
    pretty n ∉ levels.
Proof.
  apply (generated_identifier (λ _, 0.5%Q) [anonymousRow] 0 0 anonymousRow).
  - intros _. split; [discriminate|reflexivity].
  - reflexivity.
  - apply simulateModelAnalysis_at. cbn. lia.
  - vm_compute. reflexivity.
  - vm_compute. reflexivity.
Defined.

(** ** Generated values *)

Section GeneratedValues.

Context (draws : nat → Q).
Hypothesis Hdraws : ∀ j : nat, (0 <= draws j)%Q ∧ (draws j < 1)%Q.

Lemma synthesize_range (moistureLevel : value) (param : string) (i : nat) :
  param ∈ targetParams →
  ∃ q, (synthesize param moistureLevel draws i).1 = Some q ∧
       inGeneratedRange param moistureLevel q.
Proof.
  unfold targetParams. intros Hin. destruct (Hdraws i) as [Hlo Hhi].
  elem_cases Hin; (eexists; split; [reflexivity|]); unfold inGeneratedRange;
    split_and!; intros Heq; try discriminate Heq;
    try (destruct (isString moistureLevel "0ml"), (isString moistureLevel "25ml"));
    lra.
Qed.

Lemma fillParam_range (row : gmap string value) (moistureLevel : value)
    (prediction : gmap string value) (param : string) (i : nat) :
  param ∈ targetParams → get row param = VUndef →
  ∃ q, (fillParam row moistureLevel prediction param draws i).1
         = <[param := VNum (Finite q)]> prediction ∧
       inGeneratedRange param moistureLevel q.
Proof.
  intros Hin Hget. unfold fillParam. rewrite Hget, bind_run.
  destruct (synthesize_range moistureLevel param i Hin) as (q & -> & Hq).
  by exists q.
Qed.

Lemma foldRand_fillParam_range (row : gmap string value) (moistureLevel : value)
    (params : list string) :
  NoDup params →
  (∀ p, p ∈ params → p ∈ targetParams) →
  ∀ (prediction : gmap string value) (i : nat) (param : string),
    param ∈ params → get row param = VUndef →
    ∃ q, (foldRand (fillParam row moistureLevel) prediction params draws i).1 !! param
           = Some (VNum (Finite q)) ∧
         inGeneratedRange param moistureLevel q.
Proof.
  induction 1 as [|p params Hp Hnd IH]; intros Hsub prediction i param Hin Hget.
  { by apply elem_of_nil in Hin. }
  assert (∀ q, q ∈ params → q ∈ targetParams) as Hsub' by (intros q Hq; apply Hsub; by right).
  cbn [foldRand]. rewrite bind_run.
  apply elem_of_cons in Hin as [->|Hin]; [|by apply IH].
  destruct (fillParam_range row moistureLevel prediction p i) as (q & -> & Hq);
    [apply Hsub; by left|done|].
  exists q. split; [|done].
  rewrite (proj2 (foldRand_fillParam draws row moistureLevel params Hnd Hsub' _ _ p) Hp).
  apply lookup_insert_eq.
Qed.

(** X15.  A target parameter that the row lacks is generated inside a fixed
    closed interval around its base value: pH in [5.75, 7.25], EC in
    [600, 1000], nitrogen in [13, 23], phosphorus in [8, 16], potassium in
    [17.5, 32.5], and moisture within 5 of 15, 35 or 55, according to
    whether the moisture level of the prediction is [0ml], [25ml] or
    anything else. *)
Theorem generated_values_in_range (data : list (gmap string value)) (i k : nat)
    (row prediction : gmap string value) (param : string) :
  data !! k = Some row →
  (simulateModelAnalysis data draws i).1 !! k = Some prediction →
  param ∈ targetParams → get row param = VUndef →
  ∃ (q : Q) (moistureLevel : value),
    prediction !! param = Some (VNum (Finite q)) ∧
    prediction !! "Moisture_Level" = Some moistureLevel ∧
    inGeneratedRange param moistureLevel q.
Proof.
  intros Hrow Hpred Hparam Hget.
  destruct (simulateModelAnalysis_lookup draws data i k row Hrow)
    as (soilIds & j1 & j2 & _ & Hk).
  rewrite Hk in Hpred. injection Hpred as <-.
  destruct (predictionOf_fields draws soilIds k j2 row) as (_ & Hml & _).
  unfold predictionOf in *. cbv zeta in *.
  match goal with
  | |- context [foldRand (fillParam row ?ml) ?p targetParams draws j2] =>
      destruct (foldRand_fillParam_range row ml targetParams targetParams_NoDup
                  (λ _ H, H) p j2 param Hparam Hget) as (q & Hq & Hrange)
  end.
  eexists q, _. split; [exact Hq|]. split; [exact Hml|exact Hrange].
Qed.

End GeneratedValues.

Lemma generated_values_in_range_witness :
  ∃ (q : Q) (moistureLevel : value),
    default ∅ ((simulateModelAnalysis [taggedRow] (λ _, 0.5%Q) 0).1 !! 0%nat) !! "Moist"
      = Some (VNum (Finite q)) ∧
    default ∅ ((simulateModelAnalysis [taggedRow] (λ _, 0.5%Q) 0).1 !! 0%nat)
      !! "Moisture_Level" = Some moistureLevel ∧
    inGeneratedRange "Moist" moistureLevel q.
Proof.
  refine (generated_values_in_range (λ _, 0.5%Q) _ [taggedRow] 0 0 taggedRow _ "Moist" _ _ _ _).
  - intros _. split; [discriminate|reflexivity].
  - reflexivity.
  - apply simulateModelAnalysis_at. cbn. lia.
  - unfold targetParams. apply elem_of_cons. right. apply elem_of_cons. left. reflexivity.
  - vm_compute. reflexivity.
Defined.

(** ** The result of the client-side analysis *)

Section AnalysisResults.

Context (draws : nat → Q).

Lemma simulateModelAnalysisResult_run (data : list (gmap string value)) (i : nat) :
  (simulateModelAnalysisResult data draws i).1 =
    {| predictions := (simulateModelAnalysis data draws i).1;
       metrics := simulatedMetrics;
       modelOutput := generateModelOutputText simulatedMetrics [] |}.
Proof. unfold simulateModelAnalysisResult. by rewrite bind_run. Qed.

(** X16.  For a file that can be read, the analysis of the upload never fails,
    whatever the text of the file: the result has one prediction for each
    line after the first of the trimmed text, none for an empty file.  The
    error asking to check the CSV format is thrown only for a file that
    cannot be read. *)
Theorem uploadSoilData_succeeds (content : string) (i : nat) :
  (∃ result, (uploadSoilData (Some content) draws i).1 = Returned result ∧
     length (predictions result) = (length (split (trim content) nl) - 1)%nat ∧
     metrics result = simulatedMetrics) ∧
  (uploadSoilData None draws i).1 =
    Thrown (Rejection "Failed to analyze soil data. Please check your CSV format and try again.").
Proof.
  split; [|done]. unfold uploadSoilData.
  destruct (parseCSV_returns content) as (line0 & _ & ->).
  rewrite bind_run. cbn [ret fst]. eexists. split; [done|].
  rewrite simulateModelAnalysisResult_run. cbn [predictions metrics]. split; [|done].
  unfold simulateModelAnalysis. by rewrite bind_run, mapRand_length, length_fmap, length_drop.
Qed.

Lemma numberIs_spec (n : option number) (q : Q) : numberIs n q = true ↔ isNumber n q.
Proof. destruct n as [[| |q']|]; cbn; try (split; [done|tauto]). apply Qeq_bool_iff. Qed.

Lemma readsBack_spec (o : outcome ModelMetrics) (target : string) (m : TargetMetrics) :
  readsBack o (target, m) = true →
  ∃ extracted,
    o = Returned extracted ∧
    isNumber (r2Scores extracted !! target) (r2Score m) ∧
    isNumber (rmseScores extracted !! target) (rmseScore m) ∧
    bestModels extracted !! target = Some (bestModel m) ∧
    isNumber (mseScores extracted !! target) (rmseScore m * rmseScore m) ∧
    ¬ isNumber (mseScores extracted !! target) (mseScore m) ∧
    bestFeatures extracted !! target
      = Some (featureNames (Z.of_nat (length (selectedFeatures m)))) ∧
    bestFeatures extracted !! target ≠ Some (selectedFeatures m).
Proof.
  destruct o as [e|]; [|done]. cbn [readsBack].
  rewrite !andb_true_iff, !negb_true_iff, !bool_decide_eq_true, bool_decide_eq_false.
  rewrite !numberIs_spec, <- not_true_iff_false, numberIs_spec.
  intros ((((((? & ?) & ?) & ?) & ?) & ?) & ?). by exists e.
Qed.

(** X17.  The text that the simulated analysis returns as the output of the model
    is one the extractor of the route reads back.  For each target it gives
    the R2, the RMSE and the best model of the metrics returned with the
    text.  The MSE it derives is the square of the RMSE, which is not the
    MSE of those metrics, and its feature lists are placeholders of the same
    length as the lists of those metrics, not their names. *)
Theorem simulated_output_is_read_back (data : list (gmap string value)) (i : nat)
    (target : string) (m : TargetMetrics) :
  (target, m) ∈ metrics (simulateModelAnalysisResult data draws i).1 →
  ∃ extracted,
    extractModelMetrics (modelOutput (simulateModelAnalysisResult data draws i).1)
      = Returned extracted ∧
    isNumber (r2Scores extracted !! target) (r2Score m) ∧
    isNumber (rmseScores extracted !! target) (rmseScore m) ∧
    bestModels extracted !! target = Some (bestModel m) ∧
    isNumber (mseScores extracted !! target) (rmseScore m * rmseScore m) ∧
    ¬ isNumber (mseScores extracted !! target) (mseScore m) ∧
    bestFeatures extracted !! target
      = Some (featureNames (Z.of_nat (length (selectedFeatures m)))) ∧
    bestFeatures extracted !! target ≠ Some (selectedFeatures m).
Proof.
  rewrite simulateModelAnalysisResult_run. cbn [metrics modelOutput]. intros Hin.
  assert (forallb (readsBack (extractModelMetrics (generateModelOutputText simulatedMetrics [])))
                  simulatedMetrics = true) as Hall by by_computation.
  rewrite forallb_forall in Hall.
  apply readsBack_spec, Hall. by apply list_elem_of_In.
Qed.

End AnalysisResults.

Lemma simulated_output_is_read_back_witness :
  ∃ extracted,
    extractModelMetrics (modelOutput (simulateModelAnalysisResult sampleRows (λ _, 0.5%Q) 0).1)
      = Returned extracted ∧
    isNumber (r2Scores extracted !! "Ph") 0.87 ∧
    isNumber (rmseScores extracted !! "Ph") 0.42 ∧
    bestModels extracted !! "Ph" = Some "Random Forest" ∧
    isNumber (mseScores extracted !! "Ph") (0.42 * 0.42) ∧
    ¬ isNumber (mseScores extracted !! "Ph") 0.18 ∧
    bestFeatures extracted !! "Ph" = Some (featureNames 5) ∧
    bestFeatures extracted !! "Ph" ≠ Some ["760"; "810"; "PCA_1"; "535"; "d680"].
Proof.
  apply (simulated_output_is_read_back (λ _, 0.5%Q) sampleRows 0 "Ph"
           {| r2Score := 0.87; rmseScore := 0.42; mseScore := 0.18;
              bestModel := "Random Forest";
              selectedFeatures := ["760"; "810"; "PCA_1"; "535"; "d680"] |}).
  vm_compute. apply list_elem_of_here.
Defined.

(** ** Single predictions *)

(** Arithmetic over the rationals once [Math.max], [Math.min], [Math.abs]
    and the comparisons are decided and the divisions by constants are
    written as products. *)
Ltac q_case a b :=
  let H := fresh "H" in
  destruct (Qle_bool a b) eqn:H;
  [apply Qle_bool_iff in H
  |apply not_true_iff_false in H; rewrite Qle_bool_iff in H; apply Qnot_le_lt in H].

Ltac q_cases :=
  repeat match goal with
         | |- context [Qle_bool ?a ?b] => q_case a b
         | _ : context [if Qle_bool ?a ?b then _ else _] |- _ => q_case a b
         end.

Ltac q_constants :=
  unfold Qdiv in *;
  repeat match goal with
         | |- context [Qinv ?c] =>
             let v := eval vm_compute in (Qinv c) in change (Qinv c) with v
         | H : context [Qinv ?c] |- _ =>
             let v := eval vm_compute in (Qinv c) in change (Qinv c) with v in H
         end.

Section SinglePredictions.

Context (draws : nat → Q).
Hypothesis Hdraws : ∀ j : nat, (0 <= draws j)%Q ∧ (draws j < 1)%Q.

Lemma qualityScore_range (spectralData : gmap string value) :
  length (wavelengths spectralData) ≤ 18 →
  (0 <= qualityScore spectralData)%Q ∧ (qualityScore spectralData <= 1)%Q.
Proof.
  intros Hlen. unfold qualityScore.
  set (n := Z.of_nat (length (wavelengths spectralData))).
  assert (0 <= n <= 18)%Z as [Hlo Hhi] by lia.
  rewrite Zle_Qle in Hlo, Hhi. unfold inject_Z at 1 in Hlo. unfold inject_Z at 2 in Hhi.
  q_constants. lra.
Qed.

Lemma simulateSinglePrediction_ranges (spectralData : gmap string value) (i : nat) :
  length (wavelengths spectralData) ≤ 18 →
  inSingleRanges (simulateSinglePrediction spectralData draws i).1.
Proof.
  intros [Hlo Hhi]%qualityScore_range.
  pose proof (Hdraws i) as [? ?]. pose proof (Hdraws (S i)) as [? ?].
  pose proof (Hdraws (S (S i))) as [? ?]. pose proof (Hdraws (S (S (S i)))) as [? ?].
  pose proof (Hdraws (S (S (S (S i))))) as [? ?].
  pose proof (Hdraws (S (S (S (S (S i)))))) as [? ?].
  unfold inSingleRanges.
  cbn [simulateSinglePrediction bind Math_random ret fst Ph Moist EC Nitro Posh_Nitro Pota_Nitro].
  set (q := qualityScore spectralData) in *. split_and!; lra.
Qed.

(** X18.  Whatever the input with at most 18 numeric keys, the six values of a
    single prediction stay in fixed closed ranges: pH in [6.25, 7.25],
    moisture in [30, 50], EC in [700, 1100], nitrogen in [15.5, 25.5],
    phosphorus in [10, 18], potassium in [21.25, 36.25]; the coverage ratio
    is between 0 and 1. *)
Theorem single_prediction_ranges (spectralData : gmap string value) (i : nat) :
  length (wavelengths spectralData) ≤ 18 →
  (0 <= qualityScore spectralData <= 1)%Q ∧
  inSingleRanges (simulateSinglePrediction spectralData draws i).1.
Proof.
  intros Hlen. split; [by apply qualityScore_range|by apply simulateSinglePrediction_ranges].
Qed.

End SinglePredictions.

Lemma single_prediction_ranges_witness :
  (0 <= qualityScore (SpectralDataForm.handleSubmit (SpectralDataForm.formAfter sampleChanges))
     <= 1)%Q ∧
  inSingleRanges
    (simulateSinglePrediction
       (SpectralDataForm.handleSubmit (SpectralDataForm.formAfter sampleChanges))
       (λ _, 0.5%Q) 0).1.
Proof.
  refine (single_prediction_ranges (λ _, 0.5%Q) _ _ 0 _).
  - intros _. split; [discriminate|reflexivity].
  - vm_compute. lia.
Defined.

Section KeysOnly.

Lemma map_keys_dom (m1 m2 : gmap string value) :
  dom m1 = dom m2 → (map_to_list m1).*1 ≡ₚ (map_to_list m2).*1.
Proof.
  intros Hdom. apply NoDup_Permutation; [apply NoDup_fst_map_to_list..|].
  intros key. rewrite !list_elem_of_fmap.
  assert (∀ m : gmap string value,
            (∃ kv : string * value, key = kv.1 ∧ kv ∈ map_to_list m) ↔ key ∈ dom m) as Hkeys.
  { intros m. rewrite elem_of_dom. split.
    - intros ([k v] & -> & Hin%elem_of_map_to_list). by exists v.
    - intros [v Hv]. exists (key, v). split; [done|]. by apply elem_of_map_to_list. }
  by rewrite !Hkeys, Hdom.
Qed.

(** X19.  A single prediction depends on the names of the entries of its input and
    not on their values: two inputs with the same keys give, for the same
    random draws, the same prediction. *)
Theorem single_prediction_ignores_values (m1 m2 : gmap string value) (draws : nat → Q)
    (i : nat) :
  dom m1 = dom m2 →
  simulateSinglePrediction m1 draws i = simulateSinglePrediction m2 draws i.
Proof.
  intros Hdom.
  assert (qualityScore m1 = qualityScore m2) as Hq.
  { unfold qualityScore, wavelengths. do 3 f_equal.
    apply Permutation_length. by rewrite (map_keys_dom m1 m2 Hdom). }
  unfold simulateSinglePrediction. by rewrite Hq.
Qed.

End KeysOnly.

Lemma single_prediction_ignores_values_witness :
  simulateSinglePrediction (<["410" := VNum (Finite 0.1)]> ∅) (λ _, 0.5%Q) 0
  = simulateSinglePrediction (<["410" := VNum (Finite 0.9)]> ∅) (λ _, 0.5%Q) 0.
Proof.
  apply single_prediction_ignores_values. by rewrite !dom_insert_L.
Defined.

(** ** The spectral data form *)

Section Form.

Lemma handleSubmit_lookup (formData : gmap string string) (key : string) :
  SpectralDataForm.handleSubmit formData !! key =
    if bool_decide (key = "__proto__") then None
    else match formData !! key with
         | Some text => if bool_decide (text = "") then None else Some (VNum (parseFloat text))
         | None => None
         end.
Proof.
  unfold SpectralDataForm.handleSubmit. revert key.
  apply (map_fold_weak_ind (λ (r : gmap string value) (m : gmap string string), ∀ key,
           r !! key = if bool_decide (key = "__proto__") then None
                      else match m !! key with
                           | Some text =>
                               if bool_decide (text = "") then None
                               else Some (VNum (parseFloat text))
                           | None => None
                           end)).
  { intros key. rewrite !lookup_empty. by case_bool_decide. }
  intros name text m r Hfresh IH key. specialize (IH key).
  destruct (decide (key = name)) as [->|Hne].
  - rewrite lookup_insert_eq. rewrite Hfresh in IH.
    destruct (decide (text = "")) as [Hempty|Hempty].
    + rewrite !(bool_decide_true (text = "")) by done. rewrite IH. by case_bool_decide.
    + rewrite !(bool_decide_false (text = "")) by done. unfold setProperty.
      case_bool_decide as Hproto; [by rewrite IH|]. by rewrite lookup_insert_eq.
  - rewrite lookup_insert_ne by done.
    destruct (decide (text = "")) as [Hempty|Hempty].
    + by rewrite !(bool_decide_true (text = "")) by done.
    + rewrite !(bool_decide_false (text = "")) by done. by rewrite lookup_setProperty_ne.
Qed.

Lemma formAfter_keys (changes : list (string * string)) (key : string) :
  Forall (λ change, change.1 ∈ SpectralDataForm.wavelengths) changes →
  is_Some (SpectralDataForm.formAfter changes !! key) → key ∈ SpectralDataForm.wavelengths.
Proof.
  unfold SpectralDataForm.formAfter. induction changes as [|[name text] changes IH] using rev_ind.
  { intros _ [? Hkey]. cbn [foldl] in Hkey. by rewrite lookup_empty in Hkey. }
  intros [Hnames Hname]%Forall_app. rewrite Forall_singleton in Hname. cbn in Hname.
  rewrite foldl_app. cbn [foldl]. unfold SpectralDataForm.handleChange at 1.
  destruct (decide (key = name)) as [->|Hne]; [intros _; exact Hname|].
  rewrite lookup_insert_ne by done. by apply IH.
Qed.

Lemma filter_all {A} (P : A → Prop) `{!∀ x, Decision (P x)} (l : list A) :
  Forall P l → filter P l = l.
Proof. induction 1 as [|x l Hx _ IH]; [done|]. by rewrite filter_cons_True, IH. Qed.

Lemma wavelengths_numeric (key : string) :
  key ∈ SpectralDataForm.wavelengths → isNaN (StringToNumber key) = false.
Proof. unfold SpectralDataForm.wavelengths. intros Hin. elem_cases Hin; by_computation. Qed.

(** X20.  What the form submits after any sequence of changes of its 18 inputs:
    an entry for each input whose text is not empty, read by [parseFloat],
    and nothing for the others.  Every submitted key counts as a wavelength
    for the predictor, whether or not its text was a number, and there are
    at most 18 of them. *)
Theorem form_submission (changes : list (string * string)) :
  Forall (λ change, change.1 ∈ SpectralDataForm.wavelengths) changes →
  (∀ key, SpectralDataForm.handleSubmit (SpectralDataForm.formAfter changes) !! key =
          match SpectralDataForm.formAfter changes !! key with
          | Some text => if bool_decide (text = "") then None else Some (VNum (parseFloat text))
          | None => None
          end) ∧
  length (wavelengths (SpectralDataForm.handleSubmit (SpectralDataForm.formAfter changes)))
    = size (SpectralDataForm.handleSubmit (SpectralDataForm.formAfter changes)) ∧
  size (SpectralDataForm.handleSubmit (SpectralDataForm.formAfter changes)) ≤ 18.
Proof.
  intros Hnames.
  assert (∀ key,
            is_Some (SpectralDataForm.handleSubmit (SpectralDataForm.formAfter changes) !! key) →
            key ∈ SpectralDataForm.wavelengths) as Hkeys.
  { intros key. rewrite handleSubmit_lookup. case_bool_decide; [by intros [? ?]|].
    destruct (SpectralDataForm.formAfter changes !! key) as [text|] eqn:Hkey; [|by intros [? ?]].
    intros _. apply (formAfter_keys changes key Hnames). by rewrite Hkey. }
  split_and!.
  - intros key. rewrite handleSubmit_lookup. case_bool_decide as Hproto; [|done].
    destruct (SpectralDataForm.formAfter changes !! key) as [text|] eqn:Hkey; [|done].
    assert (key ∈ SpectralDataForm.wavelengths) as Hin
      by (apply (formAfter_keys changes key Hnames); by rewrite Hkey).
    subst key. unfold SpectralDataForm.wavelengths in Hin. elem_absurd Hin.
  - unfold wavelengths.
    rewrite <- length_map_to_list, <- (length_fmap fst (map_to_list _)). f_equal.
    apply filter_all. apply Forall_forall. intros key Hin.
    apply wavelengths_numeric, Hkeys.
    apply list_elem_of_fmap in Hin as ([k v] & -> & Hin%elem_of_map_to_list). by exists v.
  - rewrite <- length_map_to_list, <- (length_fmap fst (map_to_list _)).
    change 18 with (length SpectralDataForm.wavelengths).
    apply submseteq_length, NoDup_submseteq; [apply NoDup_fst_map_to_list|].
    intros key Hin. apply Hkeys.
    apply list_elem_of_fmap in Hin as ([k v] & -> & Hin%elem_of_map_to_list). by exists v.
Qed.

End Form.

Lemma form_submission_witness :
  (∀ key, SpectralDataForm.handleSubmit (SpectralDataForm.formAfter sampleChanges) !! key =
          match SpectralDataForm.formAfter sampleChanges !! key with
          | Some text => if bool_decide (text = "") then None else Some (VNum (parseFloat text))
          | None => None
          end) ∧
  length (wavelengths (SpectralDataForm.handleSubmit (SpectralDataForm.formAfter sampleChanges)))
    = size (SpectralDataForm.handleSubmit (SpectralDataForm.formAfter sampleChanges)) ∧
  size (SpectralDataForm.handleSubmit (SpectralDataForm.formAfter sampleChanges)) ≤ 18.
Proof.
  apply (form_submission sampleChanges).
  unfold sampleChanges, SpectralDataForm.wavelengths.
  repeat (apply Forall_cons; split; [cbn; set_solver|]). apply Forall_nil. exact I.
Defined.

(** ** The health gauge *)

Section HealthScore.

(** X21.  The health score never exceeds 100.  It is at least 0 when the pH is
    between 3 and 10 and the nitrogen is not negative; only the moisture and
    the EC parts are confined to [0, 1] by the code, so that outside these
    bounds the score can fall below 0. *)
Theorem healthScore_bounds (prediction : SinglePrediction) :
  (SoilHealthGauge.calculateHealthScore prediction <= 100)%Q ∧
  ((3 <= Ph prediction)%Q → (Ph prediction <= 10)%Q → (0 <= Nitro prediction)%Q →
   (0 <= SoilHealthGauge.calculateHealthScore prediction)%Q).
Proof.
  unfold SoilHealthGauge.calculateHealthScore, Math_min, Math_max, Math_abs. cbv zeta.
  split; [|intros ? ? ?]; q_cases; q_constants; lra.
Qed.

Context (draws : nat → Q).
Hypothesis Hdraws : ∀ j : nat, (0 <= draws j)%Q ∧ (draws j < 1)%Q.

(** X22.  The health score of a simulated single prediction, for an input with at
    most 18 numeric keys, lies between 54 and 85: the gauge is never in its
    red range, which ends at 40. *)
Theorem simulated_health_score (spectralData : gmap string value) (i : nat) :
  length (wavelengths spectralData) ≤ 18 →
  (54 < SoilHealthGauge.calculateHealthScore (simulateSinglePrediction spectralData draws i).1)%Q ∧
  (SoilHealthGauge.calculateHealthScore (simulateSinglePrediction spectralData draws i).1 < 85)%Q ∧
  SoilHealthGauge.colorScale
    (SoilHealthGauge.calculateHealthScore (simulateSinglePrediction spectralData draws i).1)
    ≠ "#ef4444".
Proof.
  intros Hlen.
  pose proof (simulateSinglePrediction_ranges draws Hdraws spectralData i Hlen) as Hranges.
  set (prediction := (simulateSinglePrediction spectralData draws i).1) in *.
  destruct Hranges as ([? ?] & [? ?] & [? ?] & [? ?] & _).
  assert (54 < SoilHealthGauge.calculateHealthScore prediction
          ∧ SoilHealthGauge.calculateHealthScore prediction < 85)%Q as [Hlo Hhi].
  { unfold SoilHealthGauge.calculateHealthScore, Math_min, Math_max, Math_abs. cbv zeta.
    split; q_cases; q_constants; lra. }
  split_and!; [done..|].
  unfold SoilHealthGauge.colorScale, Qlt_bool. q_cases; cbn [negb]; try done; lra.
Qed.

End HealthScore.

Lemma healthScore_bounds_witness :
  (SoilHealthGauge.calculateHealthScore samplePrediction <= 100)%Q ∧
  (0 <= SoilHealthGauge.calculateHealthScore samplePrediction)%Q.
Proof.
  destruct (healthScore_bounds samplePrediction) as [Hhi Hlo].
  split; [exact Hhi|]. apply Hlo; vm_compute; discriminate.
Defined.

Lemma simulated_health_score_witness :
  (54 < SoilHealthGauge.calculateHealthScore
          (simulateSinglePrediction (<["410" := VNum (Finite 0.1)]> ∅) (λ _, 0.5%Q) 0%nat).1)%Q ∧
  (SoilHealthGauge.calculateHealthScore
     (simulateSinglePrediction (<["410" := VNum (Finite 0.1)]> ∅) (λ _, 0.5%Q) 0%nat).1 < 85)%Q ∧
  SoilHealthGauge.colorScale
    (SoilHealthGauge.calculateHealthScore
       (simulateSinglePrediction (<["410" := VNum (Finite 0.1)]> ∅) (λ _, 0.5%Q) 0%nat).1)
    ≠ "#ef4444".
Proof.
  refine (simulated_health_score (λ _, 0.5%Q) _ _ 0 _).
  - intros _. split; [discriminate|reflexivity].
  - vm_compute. lia.
Defined.

(** ** The recommendations *)

Section Recommendations.

(** X23.  Each percentage of the fertilizer blend is at least 10; it is at most
    100 when the nutrient is not negative, and it is the minimum of 10 as
    soon as the nutrient reaches nine tenths of its target (22.5 of 25 for
    nitrogen, 13.5 of 15 for phosphorus, 27 of 30 for potassium). *)
Theorem npk_recommendation_bounds (prediction : SinglePrediction) :
  let npkRec := SoilRecommendations.generateNPKRecommendation prediction in
  ((10 <= SoilRecommendations.N npkRec)%Q ∧
   (10 <= SoilRecommendations.P npkRec)%Q ∧
   (10 <= SoilRecommendations.K npkRec)%Q) ∧
  (((0 <= Nitro prediction)%Q → (SoilRecommendations.N npkRec <= 100)%Q) ∧
   ((0 <= Posh_Nitro prediction)%Q → (SoilRecommendations.P npkRec <= 100)%Q) ∧
   ((0 <= Pota_Nitro prediction)%Q → (SoilRecommendations.K npkRec <= 100)%Q)) ∧
  (((22.5 <= Nitro prediction)%Q → (SoilRecommendations.N npkRec == 10)%Q) ∧
   ((13.5 <= Posh_Nitro prediction)%Q → (SoilRecommendations.P npkRec == 10)%Q) ∧
   ((27 <= Pota_Nitro prediction)%Q → (SoilRecommendations.K npkRec == 10)%Q)).
Proof.
  cbv zeta. unfold SoilRecommendations.generateNPKRecommendation, Math_max.
  cbn [SoilRecommendations.N SoilRecommendations.P SoilRecommendations.K].
  split; [|split].
  - split_and!; q_cases; q_constants; lra.
  - split_and!; intros Hle; q_cases; q_constants; lra.
  - split_and!; intros Hle; q_cases; q_constants; lra.
Qed.

Context (draws : nat → Q).
Hypothesis Hdraws : ∀ j : nat, (0 <= draws j)%Q ∧ (draws j < 1)%Q.

(** X24.  For a simulated single prediction, on an input with at most 18 numeric
    keys, the advice hardly depends on anything: the moisture alert is always
    [Moisture Optimal] and the EC alert always [EC Normal]; the soil is never
    found too acidic and the nitrogen never in excess; none of the three
    nutrients is ever of high priority, and the highest application rate is
    never recommended. *)
Theorem simulated_advice (spectralData : gmap string value) (i : nat) :
  length (wavelengths spectralData) ≤ 18 →
  let prediction := (simulateSinglePrediction spectralData draws i).1 in
  let npkRec := SoilRecommendations.generateNPKRecommendation prediction in
  SoilRecommendations.moistureAlert prediction = "Moisture Optimal" ∧
  SoilRecommendations.ecAlert prediction = "EC Normal" ∧
  SoilRecommendations.phAlert prediction ≠ "Increase pH" ∧
  SoilRecommendations.nitrogenAlert prediction ≠ "Excess Nitrogen" ∧
  SoilRecommendations.priority (SoilRecommendations.N npkRec) ≠ "High priority" ∧
  SoilRecommendations.priority (SoilRecommendations.P npkRec) ≠ "High priority" ∧
  SoilRecommendations.priority (SoilRecommendations.K npkRec) ≠ "High priority" ∧
  SoilRecommendations.applicationRate npkRec ≠ " 5-7 ".
Proof.
  intros Hlen.
  pose proof (simulateSinglePrediction_ranges draws Hdraws spectralData i Hlen) as Hranges.
  cbv zeta. set (prediction := (simulateSinglePrediction spectralData draws i).1) in *.
  destruct Hranges as ([? ?] & [? ?] & [? ?] & [? ?] & [? ?] & [? ?]).
  unfold SoilRecommendations.moistureAlert, SoilRecommendations.ecAlert,
    SoilRecommendations.phAlert, SoilRecommendations.nitrogenAlert,
    SoilRecommendations.priority, SoilRecommendations.applicationRate,
    SoilRecommendations.generateNPKRecommendation, Math_max, Qlt_bool.
  cbn [SoilRecommendations.N SoilRecommendations.P SoilRecommendations.K].
  split_and!; q_cases; cbn [negb]; try done; q_constants; lra.
Qed.

End Recommendations.

Lemma npk_recommendation_bounds_witness :
  (SoilRecommendations.N (SoilRecommendations.generateNPKRecommendation samplePrediction)
     <= 100)%Q ∧
  (SoilRecommendations.K (SoilRecommendations.generateNPKRecommendation samplePrediction)
     == 10)%Q.
Proof.
  destruct (npk_recommendation_bounds samplePrediction) as (_ & (Hn & _ & _) & (_ & _ & Hk)).
  split; [apply Hn|apply Hk]; vm_compute; discriminate.
Defined.

Lemma simulated_advice_witness :
  SoilRecommendations.moistureAlert
    (simulateSinglePrediction (<["410" := VNum (Finite 0.1)]> ∅) (λ _, 0.5%Q) 0).1
  = "Moisture Optimal".
Proof.
  refine (proj1 (simulated_advice (λ _, 0.5%Q) _ (<["410" := VNum (Finite 0.1)]> ∅) 0 _)).
  - intros _. split; [discriminate|reflexivity].
  - vm_compute. lia.
Defined.

(** ** The table of samples: search *)

Section TableSearch.

Lemma includes_empty (s : string) : includes s "" = true.
Proof. by destruct s. Qed.

Lemma matchesSearch_text (searchTerm : string) (sample : JsObject) :
  hasTextId sample →
  SoilSampleTable.matchesSearch searchTerm sample = Returned (idMatches searchTerm sample).
Proof.
  intros [id Hid]. unfold SoilSampleTable.matchesSearch, idMatches. by rewrite Hid.
Qed.

Lemma matchesSearch_other (searchTerm : string) (sample : JsObject) :
  ¬ hasTextId sample → SoilSampleTable.matchesSearch searchTerm sample = Thrown TypeError.
Proof.
  intros Hid. unfold SoilSampleTable.matchesSearch.
  destruct (prop sample "Soil_ID") as [|id|n] eqn:Hprop; [done| |done].
  destruct Hid. by exists id.
Qed.

Lemma hasTextId_dec (sample : JsObject) : hasTextId sample ∨ ¬ hasTextId sample.
Proof.
  unfold hasTextId. destruct (prop sample "Soil_ID") as [|id|n]; [right|left|right];
    [by intros [? ?]|by exists id|by intros [? ?]].
Qed.

(** What the filter of the table gives: a TypeError as soon as the
    identifier of one sample, kept or not, is no text; otherwise the samples
    whose identifier contains the search term, letter case apart. *)
Lemma filteredSamples_outcome (samples : list JsObject) (searchTerm : string) :
  match SoilSampleTable.filteredSamples samples searchTerm with
  | Thrown e => e = TypeError ∧ ∃ sample, sample ∈ samples ∧ ¬ hasTextId sample
  | Returned filtered =>
      Forall hasTextId samples ∧
      filtered = filter (λ sample, idMatches searchTerm sample = true) samples
  end.
Proof.
  unfold SoilSampleTable.filteredSamples.
  induction samples as [|sample samples IH]; [done|].
  cbn [filterOutcome]. destruct (hasTextId_dec sample) as [Hid|Hid].
  - rewrite (matchesSearch_text _ _ Hid). cbn [obind].
    destruct (filterOutcome _ samples) as [rest|e]; cbn [obind].
    + destruct IH as [Hall ->]. split; [by constructor|].
      rewrite filter_cons. by destruct (idMatches searchTerm sample); case_decide.
    + destruct IH as [-> (other & Hin & Hother)]. split; [done|].
      exists other. split; [by right|done].
  - rewrite (matchesSearch_other _ _ Hid). cbn [obind]. split; [done|].
    exists sample. split; [by left|done].
Qed.

Lemma table_search_throws (samples : list JsObject) (searchTerm : string) :
  (∃ sample, sample ∈ samples ∧ ¬ hasTextId sample) →
  SoilSampleTable.filteredSamples samples searchTerm = Thrown TypeError.
Proof.
  intros (sample & Hin & Hid).
  pose proof (filteredSamples_outcome samples searchTerm) as Hout.
  destruct (SoilSampleTable.filteredSamples samples searchTerm) as [filtered|e].
  - destruct Hout as [Hall _]. rewrite Forall_forall in Hall. destruct Hid. by apply Hall.
  - by destruct Hout as [-> _].
Qed.

(** X25.  The search of the table.  It throws a TypeError exactly when some
    sample has no text as its [Soil_ID], whatever the search term; when it
    returns, it keeps the samples whose identifier contains the term, letter
    case apart, and all of them for the empty term. *)
Theorem table_search (samples : list JsObject) (searchTerm : string) :
  (SoilSampleTable.filteredSamples samples searchTerm = Thrown TypeError ↔
   ∃ sample, sample ∈ samples ∧ ¬ hasTextId sample) ∧
  (∀ filtered, SoilSampleTable.filteredSamples samples searchTerm = Returned filtered →
     filtered = filter (λ sample, idMatches searchTerm sample = true) samples ∧
     (searchTerm = "" → filtered = samples)).
Proof.
  pose proof (filteredSamples_outcome samples searchTerm) as Hout. split.
  - destruct (SoilSampleTable.filteredSamples samples searchTerm) as [filtered|e].
    + destruct Hout as [Hall _]. split; [done|].
      intros (sample & Hin & Hid). rewrite Forall_forall in Hall. destruct Hid. by apply Hall.
    + destruct Hout as [-> Hsome]. done.
  - intros filtered Hrun. rewrite Hrun in Hout. destruct Hout as [Hall ->].
    split; [done|]. intros ->. apply filter_all.
    eapply Forall_impl; [exact Hall|]. intros sample [id Hid].
    unfold idMatches. rewrite Hid. apply includes_empty.
Qed.

Lemma prop_predictionObject (prediction : gmap string value) (key : string) :
  key ∈ predictionKeys → prop (predictionObject prediction) key = get prediction key.
Proof.
  unfold predictionKeys, targetParams. intros Hin. elem_cases Hin; reflexivity.
Qed.

Context (draws : nat → Q).

(** X26.  A row whose identifier is a number keeps it as a number, and the table
    of the predictions then throws at its first rendering, whatever the
    search term: an uploaded file whose [Soil_ID] column holds numbers such
    as 101 cannot be displayed. *)
Theorem numeric_identifier_breaks_table (data : list (gmap string value)) (i k : nat)
    (row : gmap string value) (n : number) (searchTerm : string) :
  data !! k = Some row →
  get row "Soil_ID" = VNum n → truthy (VNum n) = true →
  (∃ prediction, (simulateModelAnalysis data draws i).1 !! k = Some prediction ∧
                 prediction !! "Soil_ID" = Some (VNum n)) ∧
  SoilSampleTable.filteredSamples
    (predictionObject <$> (simulateModelAnalysis data draws i).1) searchTerm
  = Thrown TypeError.
Proof.
  intros Hrow Hget Htruthy.
  destruct (simulateModelAnalysis_lookup draws data i k row Hrow)
    as (soilIds & j1 & j2 & Hid & Hk).
  destruct (predictionOf_fields draws soilIds k j2 row) as (Hsoil & _ & _).
  rewrite Hid in Hsoil. cbv [default from_option id] in Hsoil.
  assert ((soilIdOf row draws j1).1 = VNum n) as Hnum.
  { unfold soilIdOf. by rewrite bind_run, Hget, Htruthy. }
  rewrite Hnum in Hsoil. split; [by eexists|].
  apply table_search_throws.
  exists (predictionObject (predictionOf soilIds k row draws j2).1). split.
  - apply list_elem_of_fmap. eexists. split; [done|]. by eapply list_elem_of_lookup_2.
  - intros [id Hprop]. rewrite prop_predictionObject in Hprop by (by left).
    unfold get in Hprop. by rewrite Hsoil in Hprop.
Qed.

End TableSearch.

Lemma numeric_identifier_breaks_table_witness :
  SoilSampleTable.filteredSamples
    (predictionObject <$> (simulateModelAnalysis [numberedRow] (λ _, 0.5%Q) 0).1) "s"
  = Thrown TypeError.
Proof.
  refine (proj2 (numeric_identifier_breaks_table (λ _, 0.5%Q) [numberedRow] 0 0 numberedRow
                   (Finite 101) "s" _ _ _)).
  - reflexivity.
  - vm_compute. reflexivity.
  - vm_compute. reflexivity.
Defined.

Lemma table_search_witness :
  SoilSampleTable.filteredSamples twoSamples "" = Returned twoSamples.
Proof.
  destruct (SoilSampleTable.filteredSamples twoSamples "") as [filtered|e] eqn:Hrun;
    [|by vm_compute in Hrun].
  f_equal. by apply (table_search twoSamples "").
Defined.

(** ** The table of samples: pages *)

Section TablePages.

Lemma totalPages_div (filtered : list JsObject) :
  SoilSampleTable.totalPages filtered = (length filtered + 9) / 10.
Proof.
  unfold SoilSampleTable.totalPages, SoilSampleTable.itemsPerPage.
  set (n := length filtered).
  assert (Qceiling (inject_Z (Z.of_nat n) / inject_Z (Z.of_nat 10))
          = ((Z.of_nat n + 9) / 10)%Z) as ->.
  { change (inject_Z (Z.of_nat 10)) with 10%Q. unfold Qdiv.
    change (/ 10)%Q with (1 # 10)%Q. unfold Qceiling, Qfloor. cbn.
    rewrite Z.mul_1_r. Z.div_mod_to_equations. lia. }
  rewrite <- (Nat2Z.id ((n + 9) / 10)). f_equal.
  by rewrite Nat2Z.inj_div, Nat2Z.inj_add.
Qed.

Lemma paginatedSamples_take (filtered : list JsObject) (currentPage : nat) :
  1 ≤ currentPage →
  SoilSampleTable.paginatedSamples filtered currentPage
    = take 10 (drop ((currentPage - 1) * 10) filtered).
Proof.
  intros Hp. unfold SoilSampleTable.paginatedSamples, slice, SoilSampleTable.itemsPerPage.
  f_equal. lia.
Qed.

Lemma pages_concat (count : nat) (l : list JsObject) :
  length l ≤ count * 10 →
  concat ((λ page, take 10 (drop ((page - 1) * 10) l)) <$> seq 1 count) = l.
Proof.
  revert l. induction count as [|count IH]; intros l Hlen.
  { by destruct l; [|cbn in Hlen; lia]. }
  cbn [seq fmap list_fmap concat]. rewrite <- fmap_S_seq, <- list_fmap_compose.
  transitivity (take 10 l ++ drop 10 l); [|apply take_drop]. f_equal.
  rewrite <- (IH (drop 10 l)) at 1 by (rewrite length_drop; lia).
  f_equal. apply list_fmap_ext. intros k page Hpage. cbn [compose].
  apply lookup_seq in Hpage as [-> _]. rewrite drop_drop. do 2 f_equal. lia.
Qed.

(** X27.  The pages of the table.  Pages 1 to [totalPages] put one after the other
    are the filtered samples, each page from 1 to [totalPages] has between 1
    and 10 rows, as many as [Showing ... to ...] says, and a page beyond has
    none.  The two buttons keep the page between 1 and [totalPages]. *)
Theorem table_pages (filtered : list JsObject) :
  concat (SoilSampleTable.paginatedSamples filtered
            <$> seq 1 (SoilSampleTable.totalPages filtered)) = filtered ∧
  (∀ page, 1 ≤ page ≤ SoilSampleTable.totalPages filtered →
     1 ≤ length (SoilSampleTable.paginatedSamples filtered page) ≤ 10 ∧
     length (SoilSampleTable.paginatedSamples filtered page)
       = SoilSampleTable.showingTo filtered page - SoilSampleTable.showingFrom page + 1 ∧
     1 ≤ SoilSampleTable.previousPage page ≤ SoilSampleTable.totalPages filtered ∧
     1 ≤ SoilSampleTable.nextPage filtered page ≤ SoilSampleTable.totalPages filtered) ∧
  (∀ page, SoilSampleTable.totalPages filtered < page →
     SoilSampleTable.paginatedSamples filtered page = []).
Proof.
  rewrite totalPages_div.
  pose proof (Nat.div_mod_eq (length filtered + 9) 10) as Hdiv.
  pose proof (Nat.mod_upper_bound (length filtered + 9) 10 ltac:(lia)) as Hmod.
  set (pages := (length filtered + 9) / 10) in *.
  split_and!.
  - rewrite <- (pages_concat pages filtered) at 2 by lia. f_equal.
    apply list_fmap_ext. intros k page Hpage. apply lookup_seq in Hpage as [-> _].
    apply paginatedSamples_take. lia.
  - intros page [Hlo Hhi]. rewrite paginatedSamples_take by done.
    rewrite length_take, length_drop.
    unfold SoilSampleTable.showingTo, SoilSampleTable.showingFrom,
      SoilSampleTable.previousPage, SoilSampleTable.nextPage, SoilSampleTable.itemsPerPage.
    rewrite totalPages_div. fold pages. lia.
  - intros page Hpage. unfold SoilSampleTable.paginatedSamples, slice,
      SoilSampleTable.itemsPerPage.
    rewrite drop_ge by lia. by rewrite take_nil.
Qed.

End TablePages.

Lemma table_pages_witness :
  1 ≤ length (SoilSampleTable.paginatedSamples (replicate 21 []) 3) ≤ 10 ∧
  length (SoilSampleTable.paginatedSamples (replicate 21 []) 3)
    = SoilSampleTable.showingTo (replicate 21 []) 3 - SoilSampleTable.showingFrom 3 + 1 ∧
  1 ≤ SoilSampleTable.previousPage 3 ≤ SoilSampleTable.totalPages (replicate 21 []) ∧
  1 ≤ SoilSampleTable.nextPage (replicate 21 []) 3 ≤ SoilSampleTable.totalPages (replicate 21 []).
Proof.
  apply (proj1 (proj2 (table_pages (replicate 21 [])))). vm_compute. lia.
Defined.

(** ** The table of samples: export *)

Section TableExport.

Lemma overlapFree_single (c : ascii) (u : string) : overlapFree (String c "") u = true.
Proof. reflexivity. Qed.

Lemma split_cons_char (c : ascii) (x rest : string) :
  includes x (String c "") = false →
  split_go (String c "") 0 (x +:+ String c rest) = x :: split_go (String c "") 0 rest.
Proof.
  intros Hx. rewrite split_go_app_free
    by (apply noneStarts_of_includes; [done|apply overlapFree_single]).
  cbn [split_go]. rewrite startsWith_single, bool_decide_true by done.
  cbn [String.length Nat.sub]. by rewrite append_empty_r.
Qed.

Lemma split_join_char (c : ascii) (l : list string) :
  l ≠ [] → Forall (λ x, includes x (String c "") = false) l →
  split (join (String c "") l) (String c "") = l.
Proof.
  unfold split. intros Hne Hall. induction Hall as [|x l Hx Hall IH]; [done|].
  destruct l as [|y l].
  - cbn [join]. by apply split_absent.
  - cbn [join]. cbn [join] in IH. rewrite append_cons, append_empty_l.
    rewrite split_cons_char by done. f_equal. by apply IH.
Qed.

Lemma includes_join (c d : ascii) (l : list string) :
  c ≠ d → Forall (λ x, includes x (String d "") = false) l →
  includes (join (String c "") l) (String d "") = false.
Proof.
  intros Hcd Hall. induction Hall as [|x l Hx Hall IH]; [done|].
  destruct l as [|y l]; [done|]. cbn [join] in *.
  rewrite !includes_app_single, Hx, IH. cbn [includes orb].
  rewrite startsWith_single. by rewrite bool_decide_false.
Qed.

Lemma filteredSamples_subset (samples filtered : list JsObject) (searchTerm : string) :
  SoilSampleTable.filteredSamples samples searchTerm = Returned filtered →
  ∀ sample, sample ∈ filtered → sample ∈ samples.
Proof.
  intros Hrun sample Hin.
  pose proof (filteredSamples_outcome samples searchTerm) as Hout.
  rewrite Hrun in Hout. destruct Hout as [_ ->].
  by apply list_elem_of_filter in Hin as [_ ?].
Qed.

(** X28.  The exported text read again by the CSV parser.  When no column name
    and no cell holds a comma or a line feed, no column has a name that
    [Object.prototype] has, and the text has no white space at either end,
    the parser gives one row for each exported sample, and
    under each column what its coercion makes of the text of the cell: the
    number again for a number that [String] prints in full, but also the
    number for a text that looks like one, and 0 for [undefined]. *)
Theorem export_then_parse (samples : list JsObject) (searchTerm csv : string) :
  SoilSampleTable.exportToCsv samples searchTerm = Returned csv →
  trim csv = csv →
  NoDup (SoilSampleTable.columns samples) →
  (∀ col, col ∈ SoilSampleTable.columns samples →
     (col ∉ objectPrototypeNames) ∧ includes col "," = false ∧ includes col nl = false) →
  (∀ sample col, sample ∈ samples → col ∈ SoilSampleTable.columns samples →
     includes (cellText (prop sample col)) "," = false ∧
     includes (cellText (prop sample col)) nl = false) →
  ∃ filtered rows,
    SoilSampleTable.filteredSamples samples searchTerm = Returned filtered ∧
    parseCSV csv = Returned rows ∧
    length rows = length filtered ∧
    ∀ k sample row col,
      filtered !! k = Some sample → rows !! k = Some row →
      col ∈ SoilSampleTable.columns samples →
      row !! col = Some (coerce (VStr (cellText (prop sample col)))).
Proof.
  unfold SoilSampleTable.exportToCsv.
  destruct (SoilSampleTable.filteredSamples samples searchTerm) as [filtered|e] eqn:Hrun;
    [|done].
  set (columns := SoilSampleTable.columns samples).
  set (line := λ sample : JsObject, join "," ((λ col, cellText (prop sample col)) <$> columns)).
  intros Hcsv Htrim Hnodup Hcols Hcells.
  assert (csv = join nl (join "," columns :: (line <$> filtered))) as ->
    by (by injection Hcsv as <-).
  clear Hcsv.
  pose proof (filteredSamples_subset _ _ _ Hrun) as Hsub.
  assert (split (join nl (join "," columns :: (line <$> filtered))) nl
          = join "," columns :: (line <$> filtered)) as Hlines.
  { apply split_join_char; [done|]. constructor.
    - apply includes_join; [done|]. apply Forall_forall. intros col Hcol. by apply Hcols.
    - apply Forall_fmap, Forall_forall. intros sample Hin. unfold line.
      apply includes_join; [done|]. apply Forall_fmap, Forall_forall. intros col Hcol.
      by apply Hcells; [apply Hsub|]. }
  exists filtered, (parseRow (split (join "," columns) ",") <$> (line <$> filtered)).
  split; [done|]. split.
  { unfold parseCSV. rewrite Htrim, Hlines. done. }
  split; [by rewrite !length_fmap|].
  intros k sample row col Hk Hrow Hcol.
  rewrite !list_lookup_fmap, Hk in Hrow. injection Hrow as <-.
  assert (columns ≠ []) as Hne by (intros Hnil; rewrite Hnil in Hcol; by apply elem_of_nil in Hcol).
  rewrite split_join_char;
    [|done|apply Forall_forall; intros col' Hcol'; by apply Hcols].
  apply list_elem_of_lookup_1 in Hcol as [index Hindex].
  rewrite (parseRow_lookup columns (line sample) index col).
  - unfold line. rewrite split_join_char.
    + unfold at_index. by rewrite list_lookup_fmap, Hindex.
    + by destruct columns.
    + apply Forall_fmap, Forall_forall. intros col' Hcol'.
      by apply Hcells; [apply Hsub; eapply list_elem_of_lookup_2|].
  - intros ->. apply (Hcols "__proto__"); [by eapply list_elem_of_lookup_2|].
    unfold objectPrototypeNames.
    repeat first [apply list_elem_of_here | apply list_elem_of_further].
  - done.
  - intros j Hj Hother. pose proof (NoDup_lookup _ _ _ _ Hnodup Hindex Hother). lia.
Qed.

End TableExport.

Lemma export_then_parse_witness :
  ∃ filtered rows,
    SoilSampleTable.filteredSamples twoSamples "" = Returned filtered ∧
    parseCSV ("Soil_ID,Moisture_Level,Ph" +:+ nl +:+ "S1_0ml,0ml,6.5" +:+ nl +:+ "B2,25ml,7.25")
      = Returned rows ∧
    length rows = length filtered ∧
    ∀ k sample row col,
      filtered !! k = Some sample → rows !! k = Some row →
      col ∈ SoilSampleTable.columns twoSamples →
      row !! col = Some (coerce (VStr (cellText (prop sample col)))).
Proof.
  apply (export_then_parse twoSamples "").
  - vm_compute. reflexivity.
  - vm_compute. reflexivity.
  - vm_compute. apply NoDup_ListNoDup. repeat constructor; cbn; intuition discriminate.
  - intros col Hin. vm_compute in Hin.
    elem_cases Hin; (split; [|split; vm_compute; reflexivity]);
      unfold objectPrototypeNames; intros Hproto; elem_absurd Hproto.
  - intros sample col Hs Hin. unfold twoSamples in Hs. vm_compute in Hin.
    elem_cases Hs; elem_cases Hin; split; vm_compute; reflexivity.
Defined.

(** ** The charts *)

Section Charts.

Lemma sameValueZero_refl (v : value) : SoilCharts.sameValueZero v v = true.
Proof.
  destruct v as [|s|[| |q]]; cbn; try done; try (by apply bool_decide_eq_true).
  by apply Qeq_bool_iff.
Qed.

Lemma strictEquals_refl (v : value) : v ≠ VNum NaN → SoilCharts.strictEquals v v = true.
Proof.
  intros Hv. destruct v as [|s|[| |q]]; cbn; try done; try (by apply bool_decide_eq_true).
  by apply Qeq_bool_iff.
Qed.

Lemma distinct_elem (seen l : list value) (id : value) :
  id ∈ SoilCharts.distinct seen l → id ∈ l.
Proof.
  revert seen. induction l as [|x l IH]; intros seen; cbn [SoilCharts.distinct]; [done|].
  destruct (existsb _ seen).
  - intros Hin. right. by apply (IH seen).
  - intros [->|Hin]%elem_of_cons; [by left|]. right. by apply (IH (x :: seen)).
Qed.

Lemma distinct_length (seen l : list value) : length (SoilCharts.distinct seen l) ≤ length l.
Proof.
  revert seen. induction l as [|x l IH]; intros seen; cbn [SoilCharts.distinct]; [done|].
  destruct (existsb _ seen); cbn [length].
  - pose proof (IH seen). lia.
  - pose proof (IH (x :: seen)). lia.
Qed.

Lemma distinct_covers (seen l : list value) (x : value) :
  x ∈ l →
  ∃ id, (id ∈ seen ∨ id ∈ SoilCharts.distinct seen l) ∧ SoilCharts.sameValueZero x id = true.
Proof.
  revert seen. induction l as [|y l IH]; intros seen Hin; [by apply elem_of_nil in Hin|].
  cbn [SoilCharts.distinct]. destruct (existsb _ seen) eqn:Hseen.
  - apply elem_of_cons in Hin as [->|Hin].
    + apply existsb_exists in Hseen as (id & Hid%list_elem_of_In & Hsame). eauto.
    + by apply IH.
  - apply elem_of_cons in Hin as [->|Hin].
    + exists y. split; [right; by left|apply sameValueZero_refl].
    + destruct (IH (y :: seen) Hin) as (id & [Hid|Hid] & Hsame).
      * apply elem_of_cons in Hid as [->|Hid]; [|by eauto].
        exists y. split; [right; by left|done].
      * exists id. split; [right; by right|done].
Qed.

Lemma find_first {A} (f : A → bool) (l : list A) (x : A) :
  x ∈ l → f x = true →
  ∃ j y, l !! j = Some y ∧ f y = true ∧ List.find f l = Some y ∧
         ∀ j' y', j' < j → l !! j' = Some y' → f y' = false.
Proof.
  induction l as [|z l IH]; intros Hin Hx; [by apply elem_of_nil in Hin|].
  cbn [List.find]. destruct (f z) eqn:Hz.
  - exists 0, z. split_and!; [done..|]. intros j' y' Hj'. lia.
  - apply elem_of_cons in Hin as [->|Hin]; [congruence|].
    destruct (IH Hin Hx) as (j & y & Hj & Hy & Hfind & Hfirst).
    exists (S j), y. split_and!; [done..|].
    intros [|j'] y' Hj' Hy'; [by injection Hy' as <-|].
    apply (Hfirst j'); [lia|done].
Qed.

(** X29.  The charts have one label for each distinct [Soil_ID], and every sample
    has its identifier among the labels.  The point plotted for a label that
    is not NaN is the field of the first sample with that identifier: the
    samples that share an identifier with an earlier one are not shown. *)
Theorem chart_series (data : list (gmap string value)) (field : string) :
  length (SoilCharts.series field data) = length (SoilCharts.soilIds data) ∧
  length (SoilCharts.soilIds data) ≤ length data ∧
  (∀ sample, sample ∈ data →
     ∃ id, id ∈ SoilCharts.soilIds data ∧
           SoilCharts.sameValueZero (get sample "Soil_ID") id = true) ∧
  (∀ k id, SoilCharts.soilIds data !! k = Some id → id ≠ VNum NaN →
     ∃ j sample,
       data !! j = Some sample ∧
       SoilCharts.strictEquals (get sample "Soil_ID") id = true ∧
       (∀ j' sample', j' < j → data !! j' = Some sample' →
          SoilCharts.strictEquals (get sample' "Soil_ID") id = false) ∧
       SoilCharts.series field data !! k = Some (Some (get sample field))).
Proof.
  unfold SoilCharts.series, SoilCharts.soilIds. split_and!.
  - by rewrite length_fmap.
  - etrans; [apply distinct_length|]. by rewrite length_fmap.
  - intros sample Hin.
    destruct (distinct_covers [] ((λ item, get item "Soil_ID") <$> data)
                (get sample "Soil_ID")) as (id & [Hid|Hid] & Hsame).
    + by apply (list_elem_of_fmap_2 (λ item, get item "Soil_ID")).
    + by apply elem_of_nil in Hid.
    + by exists id.
  - intros k id Hk Hid.
    assert (id ∈ (λ item, get item "Soil_ID") <$> data) as Hin
      by (eapply distinct_elem, list_elem_of_lookup_2, Hk).
    apply list_elem_of_fmap in Hin as (sample0 & -> & Hin).
    destruct (find_first (λ item, SoilCharts.strictEquals (get item "Soil_ID")
                                    (get sample0 "Soil_ID")) data sample0 Hin)
      as (j & sample & Hj & Hsample & Hfind & Hfirst); [by apply strictEquals_refl|].
    exists j, sample. split_and!; [done..|].
    rewrite list_lookup_fmap, Hk. cbn. unfold SoilCharts.findSample. by rewrite Hfind.
Qed.

End Charts.

Lemma chart_series_witness :
  ∃ j sample,
    repeatedSamples !! j = Some sample ∧
    SoilCharts.strictEquals (get sample "Soil_ID") (VStr "A") = true ∧
    (∀ j' sample', j' < j → repeatedSamples !! j' = Some sample' →
       SoilCharts.strictEquals (get sample' "Soil_ID") (VStr "A") = false) ∧
    SoilCharts.series "Moist" repeatedSamples !! 0 = Some (Some (get sample "Moist")).
Proof.
  apply (proj2 (proj2 (proj2 (chart_series repeatedSamples "Moist"))) 0 (VStr "A")).
  - vm_compute. reflexivity.
  - discriminate.
Defined.

(** ** The table of the model metrics *)

Section MetricsTable.

Lemma summaryRow_outcome (metrics : ModelMetrics) (target : string) :
  is_Some (r2Scores metrics !! target) →
  match ModelMetricsView.summaryRow metrics target with
  | Thrown e =>
      e = TypeError ∧
      (rmseScores metrics !! target = None ∨ mseScores metrics !! target = None)
  | Returned row =>
      is_Some (rmseScores metrics !! target) ∧ is_Some (mseScores metrics !! target)
  end.
Proof.
  intros [r2 Hr2]. unfold ModelMetricsView.summaryRow. rewrite Hr2.
  destruct (rmseScores metrics !! target); [|by auto].
  destruct (mseScores metrics !! target); [|by auto]. by split; eexists.
Qed.

Lemma summaryRows_outcome (targets : list string) (metrics : ModelMetrics) :
  (∀ target, target ∈ targets → is_Some (r2Scores metrics !! target)) →
  match ModelMetricsView.summaryRows targets metrics with
  | Thrown e =>
      e = TypeError ∧
      ∃ target, target ∈ targets ∧
        (rmseScores metrics !! target = None ∨ mseScores metrics !! target = None)
  | Returned rows =>
      length rows = length targets ∧
      ∀ target, target ∈ targets →
        is_Some (rmseScores metrics !! target) ∧ is_Some (mseScores metrics !! target)
  end.
Proof.
  unfold ModelMetricsView.summaryRows.
  induction targets as [|target targets IH]; intros Hkeys.
  { split; [done|]. intros target Hin. by apply elem_of_nil in Hin. }
  cbn [mapOutcome].
  pose proof (summaryRow_outcome metrics target (Hkeys target ltac:(by left))) as Hrow.
  destruct (ModelMetricsView.summaryRow metrics target) as [row|e]; cbn [obind].
  - specialize (IH (λ t Hin, Hkeys t ltac:(by right))).
    destruct (mapOutcome _ targets) as [rows|e]; cbn [obind].
    + destruct IH as [Hlen Hall]. split; [cbn; by rewrite Hlen|].
      intros t [->|Hin]%elem_of_cons; [done|by apply Hall].
    + destruct IH as [-> (t & Hin & Hmissing)]. split; [done|].
      exists t. split; [by right|done].
  - destruct Hrow as [-> Hmissing]. split; [done|]. exists target. split; [by left|done].
Qed.

(** X30.  The performance summary shown for the metrics that the extractor gives.
    It throws a TypeError exactly when some target with an R2 lacks an RMSE
    or an MSE, which the extractor allows: a target whose RMSE was not found,
    or was found to be 0, has no MSE.  It is rendered, one row per target,
    when every target with an R2 has an RMSE other than 0 and NaN. *)
Theorem extracted_metrics_table (output : string) (metrics : ModelMetrics)
    (targets : list string) :
  extractModelMetrics output = Returned metrics →
  (∀ target, target ∈ targets → is_Some (r2Scores metrics !! target)) →
  (ModelMetricsView.summaryRows targets metrics = Thrown TypeError ↔
   ∃ target, target ∈ targets ∧
     (rmseScores metrics !! target = None ∨ mseScores metrics !! target = None)) ∧
  ((∀ target, target ∈ targets →
      ∃ x, rmseScores metrics !! target = Some x ∧ truthy (VNum x) = true) →
   ∃ rows, ModelMetricsView.summaryRows targets metrics = Returned rows ∧
           length rows = length targets).
Proof.
  intros Hrun Hkeys.
  pose proof (summaryRows_outcome targets metrics Hkeys) as Hout.
  pose proof (extractModelMetrics_mseFromRmse output metrics Hrun) as [_ Hmse].
  split; [split|].
  - intros Hthrown. rewrite Hthrown in Hout. by destruct Hout as [_ ?].
  - intros (target & Hin & Hmissing).
    destruct (ModelMetricsView.summaryRows targets metrics) as [rows|e].
    + destruct Hout as [_ Hall]. destruct (Hall target Hin) as [[? Hrmse] [? Hm]].
      destruct Hmissing; congruence.
    + by destruct Hout as [-> _].
  - intros Htruthy.
    destruct (ModelMetricsView.summaryRows targets metrics) as [rows|e].
    + destruct Hout as [Hlen _]. by exists rows.
    + destruct Hout as [_ (target & Hin & Hmissing)].
      destruct (Htruthy target Hin) as (x & Hrmse & Hx).
      pose proof (Hmse target x Hrmse Hx). destruct Hmissing; congruence.
Qed.

End MetricsTable.

Lemma extracted_metrics_table_witness :
  ∃ metrics, extractModelMetrics zeroRmseLog = Returned metrics ∧
    ModelMetricsView.summaryRows ["Ph"] metrics = Thrown TypeError.
Proof.
  destruct (extractModelMetrics zeroRmseLog) as [metrics|e] eqn:Hrun;
    [|by vm_compute in Hrun].
  exists metrics. split; [done|].
  assert (r2Scores metrics !! "Ph" = Some (Finite 1) ∧ mseScores metrics !! "Ph" = None)
    as [Hr2 Hmse] by (vm_compute in Hrun; injection Hrun as <-; by vm_compute).
  apply (extracted_metrics_table zeroRmseLog metrics ["Ph"] Hrun).
  - intros target ->%list_elem_of_singleton. by rewrite Hr2.
  - exists "Ph". split; [by left|by right].
Defined.
